(** * Zerodha token refresher (final.py): login state machine and token extraction

    A shallow embedding of [final.py]: the string operations the
    request-token extraction relies on, the exceptions the script raises,
    and the browser-driven login procedure written in a small
    state / exception / trace monad over the external collaborators
    (Selenium driver, KiteConnect client, pyotp, pymongo).

    Every call that leaves the script is an entry of the trace, so that
    "how often" and "in which order" are statements about a list of
    events.  [print] and [logging] calls do not steer control flow and
    are left out; durations are in milliseconds. *)

From Stdlib Require Import String Ascii List Bool Arith Lia ZArith.
Import ListNotations.
Open Scope string_scope.
Open Scope list_scope.

Set Implicit Arguments.

(* ===================================================================== *)
(** ** Python [str] operations used by the script *)
(* ===================================================================== *)

Module PyStr.

(** [s.startswith(prefix)] *)
Fixpoint startswith (prefix s : string) : bool :=
match prefix, s with
| EmptyString, _ => true
| String _ _, EmptyString => false
| String a p, String b s' => Ascii.eqb a b && startswith p s'
end.

(** [s.find(sub)], with [None] for Python's [-1]. *)
Fixpoint find (sub s : string) : option nat :=
if startswith sub s then Some 0
else match s with
     | EmptyString => None
     | String _ s' => option_map S (find sub s')
     end.

(** [sub in s] *)
Definition contains (sub s : string) : bool :=
match find sub s with Some _ => true | None => false end.

(** [s[:n]] and [s[n:]] for a non-negative [n]. *)
Fixpoint take (n : nat) (s : string) : string :=
match n, s with
| S n', String a s' => String a (take n' s')
| _, _ => EmptyString
end.

Fixpoint drop (n : nat) (s : string) : string :=
match n, s with
| S n', String _ s' => drop n' s'
| _, _ => s
end.

(** [c in chars] for a single character. *)
Fixpoint char_in (c : ascii) (chars : string) : bool :=
match chars with
| EmptyString => false
| String a chars' => Ascii.eqb c a || char_in c chars'
end.

(** [s.lstrip(chars)]: drop leading characters that belong to [chars]. *)
Fixpoint lstrip (chars s : string) : string :=
match s with
| EmptyString => EmptyString
| String a s' => if char_in a chars then lstrip chars s' else s
end.

(** The scan of [s.split(sep)] for a non-empty [sep]: cut at the first
  occurrence of [sep], go on after it.  Every round removes at least
  one character, so [length s] rounds are enough ([split_from_fuel]). *)
Fixpoint split_from (fuel : nat) (sep s : string) : list string :=
match fuel with
| O => [s]
| S fuel' =>
    match find sep s with
    | None => [s]
    | Some i => take i s :: split_from fuel' sep (drop (i + String.length sep) s)
    end
end.

(** The text of [s] before the first occurrence of [sep] (all of [s]
  when there is none), and the text after that occurrence. *)
Definition before (sep s : string) : string :=
match find sep s with Some i => take i s | None => s end.

Definition after (sep s : string) : string :=
match find sep s with
| Some i => drop (i + String.length sep) s
| None => EmptyString
end.

End PyStr.

(* ===================================================================== *)
(** ** Exceptions and results *)
(* ===================================================================== *)

(** Subclasses of Python's [Exception] that can travel through the script.
    [Foreign] stands for whatever a collaborator raises (Selenium's
    WebDriverException family, kiteconnect and pymongo errors), told apart
    by an opaque tag. *)
Inductive exn : Type :=
| Exception (msg : string)
| RuntimeError (msg : string)
| ValueError (msg : string)
| IndexError
| KeyError (key : string)
| TypeError
| AttributeError
| OverflowError
| TimeoutException
| Foreign (tag : nat).

Inductive result (A : Type) : Type :=
| Ok (a : A)
| Raise (e : exn).
Arguments Ok {A} a.
Arguments Raise {A} e.

Definition is_ok {A} (r : result A) : bool :=
  match r with Ok _ => true | Raise _ => false end.

Definition rbind {A B} (r : result A) (k : A -> result B) : result B :=
  match r with
  | Ok a => k a
  | Raise e => Raise e
  end.

(** [l[i]] for a non-negative literal index. *)
Definition getitem {A} (l : list A) (i : nat) : result A :=
  match nth_error l i with
  | Some a => Ok a
  | None => Raise IndexError
  end.

(** [s.split(sep)]; an empty separator is a [ValueError]. *)
Definition split (s sep : string) : result (list string) :=
  match sep with
  | EmptyString => Raise (ValueError "empty separator")
  | String _ _ => Ok (PyStr.split_from (String.length s) sep s)
  end.

(* ===================================================================== *)
(** ** Request-token extraction (ZerodhaClient.login, lines 380-389) *)
(* ===================================================================== *)

Definition TOKEN_NOT_FOUND : exn :=
  Exception "Request token not found in URL; login failed?".

Definition extract_request_token (rt_url : string) : result string :=
  if PyStr.contains "request_token=" rt_url then
    rbind (split rt_url "request_token=") (fun parts =>
    rbind (getitem parts 1) (fun tail =>
    rbind (split tail "&") (fun fields =>
    getitem fields 0)))
  else if PyStr.contains "request_token" rt_url then
    rbind (split rt_url "request_token") (fun parts =>
    if Nat.ltb 1 (List.length parts) then
      rbind (getitem parts 1) (fun tail =>
      Ok (PyStr.lstrip "=&#?/" tail))
    else Raise TOKEN_NOT_FOUND)
  else Raise TOKEN_NOT_FOUND.

(* ===================================================================== *)
(** ** Values the script passes around *)
(* ===================================================================== *)

(** Handles of objects that live with the collaborators. *)
Definition driver := nat.        (* webdriver.Chrome instance *)
Definition element := nat.       (* selenium WebElement *)
Definition mongo_client := nat.  (* pymongo MongoClient *)
Definition database := nat.      (* pymongo Database *)

(** A dict with string keys whose order is that of the literal. *)
Definition dict (V : Type) : Type := list (string * V).

Fixpoint dict_lookup {V} (d : dict V) (k : string) : option V :=
  match d with
  | [] => None
  | (k', v) :: d' => if String.eqb k' k then Some v else dict_lookup d' k
  end.

(** [d[k]] *)
Definition dict_getitem {V} (d : dict V) (k : string) : result V :=
  match dict_lookup d k with
  | Some v => Ok v
  | None => Raise (KeyError k)
  end.

(** Python truthiness of a [str], and of [os.getenv]'s [str or None]. *)
Definition nonempty (s : string) : bool :=
  match s with EmptyString => false | String _ _ => true end.

Definition truthy_opt (o : option string) : bool :=
  match o with Some s => nonempty s | None => false end.

(** [x or ""] on an optional string. *)
Definition or_empty (o : option string) : string :=
  match o with
  | Some s => if nonempty s then s else ""
  | None => ""
  end.

(** [selenium.webdriver.chrome.options.Options] as far as the script fills it. *)
Inductive option_value : Type :=
| OptList (l : list string)
| OptBool (b : bool).

Record Options : Type := {
  experimental_options : dict option_value;
  arguments : list string;
  binary_location : option string
}.

Definition new_Options : Options :=
  {| experimental_options := []; arguments := []; binary_location := None |}.

Definition add_experimental_option (o : Options) (name : string) (v : option_value) : Options :=
  {| experimental_options := experimental_options o ++ [(name, v)];
     arguments := arguments o;
     binary_location := binary_location o |}.

Definition add_argument (o : Options) (a : string) : Options :=
  {| experimental_options := experimental_options o;
     arguments := arguments o ++ [a];
     binary_location := binary_location o |}.

Definition set_binary_location (o : Options) (p : string) : Options :=
  {| experimental_options := experimental_options o;
     arguments := arguments o;
     binary_location := Some p |}.

(** The [KiteConnect] client object: its key and the token set on it. *)
Record KiteConnect : Type := {
  api_key : string;
  access_token : option string
}.

Definition new_KiteConnect (key : string) : KiteConnect :=
  {| api_key := key; access_token := None |}.

Definition set_access_token (k : KiteConnect) (tok : string) : KiteConnect :=
  {| api_key := api_key k; access_token := Some tok |}.

(** Naive [datetime] values as microseconds since 0001-01-01T00:00:00;
    [datetime.max] is 9999-12-31T23:59:59.999999. *)
Definition datetime := Z.
Definition DATETIME_MAX : Z := (3652059 * 86400 * 1000000 - 1)%Z.

(** [timedelta(hours=h)] in microseconds. *)
Definition timedelta_hours (h : Z) : Z := (h * 3600 * 1000000)%Z.

(** [t + delta]; leaving the representable range is an [OverflowError]. *)
Definition datetime_add (t : datetime) (delta : Z) : result datetime :=
  if ((0 <=? t + delta) && (t + delta <=? DATETIME_MAX))%Z
  then Ok (t + delta)%Z
  else Raise OverflowError.

(** Field values of the documents handed to pymongo.  A filter is a
    [dict bson]; an update maps each operator ([$set], [$setOnInsert])
    to the fields it writes. *)
Inductive bson : Type :=
| BStr (s : string)
| BDate (t : datetime)
| BBool (b : bool).

(** The callables of [selenium.webdriver.support.expected_conditions]
    the script builds, and the Python values that reach [wait.until]
    and come back from it. *)
Inductive condition : Type :=
| url_contains (url : string)
| element_to_be_clickable (locator : string).

Inductive pyval : Type :=
| PyBool (b : bool)
| PyElement (el : element)
| PyCallable (c : condition).

(** Truth value of an object: a function object is always true. *)
Definition truthy (v : pyval) : bool :=
  match v with
  | PyBool b => b
  | PyElement _ => true
  | PyCallable _ => true
  end.

(** [a or b]: the left operand when it is true, else the right one. *)
Definition py_or (a b : pyval) : pyval :=
  if truthy a then a else b.

(** One entry per call made to a collaborator, in program order. *)
Inductive event : Type :=
| EvLoginUrl (key : string)
| EvInstall
| EvChromeStart (path : string) (opts : Options) (r : result driver)
| EvGet (d : driver) (url : string)
| EvPollClickable (d : driver) (locator : string)
| EvCurrentUrl (d : driver)
| EvFindElements (d : driver) (xpath : string)
| EvFindElement (d : driver) (xpath : string)
| EvClear (el : element)
| EvSendKeys (el : element) (text : string)
| EvClick (el : element)
| EvQuit (d : driver)
| EvSleep (ms : nat)
| EvTotpNow (secret : string) (r : result string)
| EvGenerateSession (rt secret : string) (r : result (dict string))
| EvMongoClient (uri : string) (r : result mongo_client)
| EvGetDatabase (c : mongo_client) (name : string)
| EvGetDefaultDatabase (c : mongo_client)
| EvUtcNow (t : datetime)
| EvUpdateOne (db : database) (coll : string) (filter : dict bson)
    (update : dict (dict bson)) (upsert : bool)
| EvClose (c : mongo_client).

(* ===================================================================== *)
(** ** Process environment and collaborators *)
(* ===================================================================== *)

(** What the module reads once at import time (lines 44-54, 130) and
    [os.getenv] as [login] sees it. *)
Record environment : Type := {
  ZERODHA_USER_ID : string;
  ZERODHA_PASSWORD : string;
  ZERODHA_API_KEY : string;
  ZERODHA_API_SECRET : string;
  ZERODHA_TOTP_SECRET : string;
  MONGO_URI : string;
  APP_CONFIG : dict (option string);
  getenv : string -> option string
}.

Definition MONGO_DB_NAME : string := "".
Definition MONGO_COLLECTION_NAME : string := "zerodhatokens".
Definition TOKEN_UPDATED_BY : string := "aiman.singh30@gmail.com".

(** The calls the script makes outside itself, over a state [W] of the
    outside world (browser, network, clock, database).  Each returns its
    result or the exception it raised, and the world after the call. *)
Record collaborators (W : Type) : Type := {
  kite_login_url : string -> W -> result string * W;
  kite_generate_session : string -> string -> string -> W -> result (dict string) * W;
  manager_install : W -> result string * W;
  chrome_start : string -> Options -> W -> result driver * W;
  driver_get : driver -> string -> W -> result unit * W;
  driver_current_url : driver -> W -> result string * W;
  driver_find_elements : driver -> string -> W -> result (list element) * W;
  driver_find_element : driver -> string -> W -> result element * W;
  driver_quit : driver -> W -> result unit * W;
  (* one evaluation of element_to_be_clickable under wait.until:
     the element, or None when it is absent or not yet clickable *)
  probe_clickable : driver -> string -> W -> result (option element) * W;
  element_clear : element -> W -> result unit * W;
  element_send_keys : element -> string -> W -> result unit * W;
  element_click : element -> W -> result unit * W;
  totp_now : string -> W -> result string * W;
  time_passes : nat -> W -> W;
  (* polls that still fit into WebDriverWait's timeout after the first *)
  wait_polls : nat;
  mongo_connect : string -> W -> result mongo_client * W;
  mongo_get_database : mongo_client -> string -> W -> result database * W;
  mongo_get_default_database : mongo_client -> W -> result database * W;
  mongo_update_one :
    database -> string -> dict bson -> dict (dict bson) -> bool -> W -> result unit * W;
  mongo_close : mongo_client -> W -> result unit * W;
  clock_utcnow : W -> datetime * W
}.

(* ===================================================================== *)
(** ** The monad of the script: world state, exceptions, call trace *)
(* ===================================================================== *)

Record outcome (W A : Type) : Type := Out {
  res : result A;
  final : W;
  trace : list event
}.
Arguments Out {W A} res final trace.

Definition M (W A : Type) : Type := W -> outcome W A.

Section Monad.
Context {W : Type}.

Definition ret {A} (a : A) : M W A := fun w => Out (Ok a) w [].

(** [raise e] *)
Definition raise {A} (e : exn) : M W A := fun w => Out (Raise e) w [].

Definition bind {A B} (m : M W A) (k : A -> M W B) : M W B :=
  fun w =>
    let o := m w in
    match res o with
    | Ok a => let o' := k a (final o) in
              Out (res o') (final o') (trace o ++ trace o')
    | Raise e => Out (Raise e) (final o) (trace o)
    end.

(** A pure computation that may raise. *)
Definition lift {A} (r : result A) : M W A := fun w => Out r w [].

(** [try: m  except Exception as e: h e] *)
Definition try_except {A} (m : M W A) (h : exn -> M W A) : M W A :=
  fun w =>
    let o := m w in
    match res o with
    | Ok a => o
    | Raise e => let o' := h e (final o) in
                 Out (res o') (final o') (trace o ++ trace o')
    end.

(** [try: m  finally: f].  The outcome of [m] stands unless [f] raises. *)
Definition try_finally {A} (m : M W A) (f : M W unit) : M W A :=
  fun w =>
    let o := m w in
    let o' := f (final o) in
    Out (match res o' with Ok _ => res o | Raise e => Raise e end)
        (final o') (trace o ++ trace o').

(** Run [m] and hand its result, value or exception, to the caller. *)
Definition catch {A} (m : M W A) : M W (result A) :=
  fun w => let o := m w in Out (Ok (res o)) (final o) (trace o).

(** One call to a collaborator, recorded in the trace. *)
Definition invoke {A} (f : W -> result A * W) (ev : result A -> event) : M W A :=
  fun w => let (r, w') := f w in Out r w' [ev r].

End Monad.

Declare Scope py_scope.
Delimit Scope py_scope with py.
Notation "x <- m ;; k" := (bind m (fun x => k))
  (at level 61, m at next level, right associativity) : py_scope.
Notation "m ;; k" := (bind m (fun _ => k))
  (at level 61, right associativity) : py_scope.
Open Scope py_scope.

(* ===================================================================== *)
(** ** XPath locators of the login page *)
(* ===================================================================== *)

Definition dq : string := String (ascii_of_nat 34) EmptyString.

Definition XPATH_USERID : string :=
  ("//input[@type=" ++ dq ++ "text" ++ dq ++ " or @id=" ++ dq ++ "userid" ++ dq
   ++ " or @name=" ++ dq ++ "userid" ++ dq ++ "]")%string.

Definition XPATH_PASSWORD : string :=
  ("//input[@type=" ++ dq ++ "password" ++ dq ++ " or @name=" ++ dq ++ "password"
   ++ dq ++ "]")%string.

Definition XPATH_SUBMIT : string :=
  ("//button[@type=" ++ dq ++ "submit" ++ dq ++ "]")%string.

Definition LOWERED_TEXT : string :=
  "translate(., 'ABCDEFGHIJKLMNOPQRSTUVWXYZ', 'abcdefghijklmnopqrstuvwxyz')".

Definition XPATH_LOGIN_TEXT : string :=
  ("//button[contains(" ++ LOWERED_TEXT ++ ", 'login') or contains("
   ++ LOWERED_TEXT ++ ", 'sign in')]")%string.

Definition XPATH_TOTP : string :=
  ("//input[@type=" ++ dq ++ "number" ++ dq ++ " or @name=" ++ dq ++ "totp" ++ dq
   ++ " or @id=" ++ dq ++ "totp" ++ dq ++ "]")%string.

Definition XPATH_TOTP_SUBMIT : string :=
  (XPATH_SUBMIT ++ " | //button[contains(text(), " ++ dq ++ "Continue" ++ dq
   ++ ")] | //button[contains(text(), " ++ dq ++ "CONTINUE" ++ dq ++ ")]")%string.

Definition XPATH_CONTINUE_TEXT : string :=
  ("//button[contains(" ++ LOWERED_TEXT ++ ", 'continue')]")%string.

(* ===================================================================== *)
(** ** The script *)
(* ===================================================================== *)

(** [load_config()] (lines 136-146). *)
Record config : Type := {
  cfg_api_key : string;
  cfg_api_secret : string;
  usr : string;
  pwd : string;
  authenticator : string
}.

Definition load_config (env : environment) : config :=
  {| cfg_api_key := ZERODHA_API_KEY env;
     cfg_api_secret := ZERODHA_API_SECRET env;
     usr := ZERODHA_USER_ID env;
     pwd := ZERODHA_PASSWORD env;
     authenticator := ZERODHA_TOTP_SECRET env |}.

(** [APP_CONFIG.get(k) or ""] *)
Definition app_config_get (env : environment) (k : string) : string :=
  match dict_lookup (APP_CONFIG env) k with
  | Some v => or_empty v
  | None => ""
  end.

(** Chrome options of one login cycle (lines 223-241). *)
Definition build_options (env : environment) : Options :=
  let chrome_user_data_dir := app_config_get env "chrome_user_data_dir" in
  let o := new_Options in
  let o := add_experimental_option o "excludeSwitches" (OptList ["enable-automation"]) in
  let o := add_experimental_option o "useAutomationExtension" (OptBool false) in
  let o :=
    if nonempty chrome_user_data_dir && negb (truthy_opt (getenv env "GITHUB_ACTIONS"))
    then add_argument o ("--user-data-dir=" ++ chrome_user_data_dir)%string
    else o in
  match getenv env "GITHUB_ACTIONS" with
  | Some "true" =>
      let chrome_bin :=
        match getenv env "CHROME_BIN" with
        | Some p => p
        | None => "/usr/bin/chromium-browser"
        end in
      let o := set_binary_location o chrome_bin in
      let o := add_argument o "--headless=new" in
      let o := add_argument o "--no-sandbox" in
      let o := add_argument o "--disable-dev-shm-usage" in
      let o := add_argument o "--disable-gpu" in
      let o := add_argument o "--window-size=1920,1080" in
      add_argument o "--remote-debugging-port=9222"
  | _ => o
  end.

Definition SUBMIT_NOT_FOUND : exn := Exception "Login submit button not found".
Definition OTP_SUBMIT_NOT_FOUND : exn := Exception "TOTP submit button not found".
Definition LAUNCH_FAILURE : exn :=
  RuntimeError "Unable to start Chrome via webdriver-manager".

(** [max_retries] of the two loops of the OTP screen (line 319). *)
Definition max_retries : nat := 3.

(** [@retry(stop_max_attempt_number=3, wait_fixed=5000)] (line 210). *)
Definition stop_max_attempt_number : nat := 3.
Definition wait_fixed : nat := 5000.

(** The token document written by [save_token_to_mongo] (lines 170-182). *)
Definition token_filter : dict bson := [("updatedBy", BStr TOKEN_UPDATED_BY)].

Definition token_update (access_token : string) (now expires_at : datetime)
  : dict (dict bson) :=
  [("$set", [("accessToken", BStr access_token);
             ("updatedAt", BDate now);
             ("expiresAt", BDate expires_at);
             ("isActive", BBool true);
             ("updatedBy", BStr TOKEN_UPDATED_BY)]);
   ("$setOnInsert", [("createdAt", BDate now)])].

Section Script.
Context {W : Type}.
Variable env : environment.
Variable ext : collaborators W.

(** *** Calls to the collaborators *)

Definition login_url (kite : KiteConnect) : M W string :=
  invoke (kite_login_url ext (api_key kite)) (fun _ => EvLoginUrl (api_key kite)).

Definition generate_session (kite : KiteConnect) (rt api_secret : string)
  : M W (dict string) :=
  invoke (kite_generate_session ext (api_key kite) rt api_secret)
         (EvGenerateSession rt api_secret).

Definition install : M W string :=
  invoke (manager_install ext) (fun _ => EvInstall).

Definition Chrome (path : string) (options : Options) : M W driver :=
  invoke (chrome_start ext path options) (EvChromeStart path options).

Definition get (d : driver) (url : string) : M W unit :=
  invoke (driver_get ext d url) (fun _ => EvGet d url).

Definition current_url (d : driver) : M W string :=
  invoke (driver_current_url ext d) (fun _ => EvCurrentUrl d).

Definition find_elements (d : driver) (xpath : string) : M W (list element) :=
  invoke (driver_find_elements ext d xpath) (fun _ => EvFindElements d xpath).

Definition find_element (d : driver) (xpath : string) : M W element :=
  invoke (driver_find_element ext d xpath) (fun _ => EvFindElement d xpath).

Definition quit (d : driver) : M W unit :=
  invoke (driver_quit ext d) (fun _ => EvQuit d).

Definition clear (el : element) : M W unit :=
  invoke (element_clear ext el) (fun _ => EvClear el).

Definition send_keys (el : element) (text : string) : M W unit :=
  invoke (element_send_keys ext el text) (fun _ => EvSendKeys el text).

Definition click (el : element) : M W unit :=
  invoke (element_click ext el) (fun _ => EvClick el).

Definition TOTP_now (secret : string) : M W string :=
  invoke (totp_now ext secret) (EvTotpNow secret).

(** [time.sleep], in milliseconds. *)
Definition sleep (ms : nat) : M W unit :=
  fun w => Out (Ok tt) (time_passes ext ms w) [EvSleep ms].

Definition MongoClient (uri : string) : M W mongo_client :=
  invoke (mongo_connect ext uri) (EvMongoClient uri).

Definition get_database (c : mongo_client) (name : string) : M W database :=
  invoke (mongo_get_database ext c name) (fun _ => EvGetDatabase c name).

Definition get_default_database (c : mongo_client) : M W database :=
  invoke (mongo_get_default_database ext c) (fun _ => EvGetDefaultDatabase c).

Definition update_one (db : database) (coll : string) (filter : dict bson)
           (update : dict (dict bson)) (upsert : bool) : M W unit :=
  invoke (mongo_update_one ext db coll filter update upsert)
         (fun _ => EvUpdateOne db coll filter update upsert).

Definition close (c : mongo_client) : M W unit :=
  invoke (mongo_close ext c) (fun _ => EvClose c).

Definition utcnow : M W datetime :=
  fun w => let (t, w') := clock_utcnow ext w in Out (Ok t) w' [EvUtcNow t].

(** *** [WebDriverWait(driver, 20).until(method)] *)

(** One call [method(driver)] of an expected condition. *)
Definition call_condition (d : driver) (c : condition) : M W pyval :=
  match c with
  | url_contains url =>
      u <- current_url d ;;
      ret (PyBool (PyStr.contains url u))
  | element_to_be_clickable locator =>
      o <- invoke (probe_clickable ext d locator) (fun _ => EvPollClickable d locator) ;;
      ret (match o with Some el => PyElement el | None => PyBool false end)
  end.

(** Poll until the value is true; [more] further polls fit in the timeout. *)
Fixpoint until_loop (d : driver) (c : condition) (more : nat) : M W pyval :=
  v <- call_condition d c ;;
  if truthy v then ret v
  else match more with
       | O => raise TimeoutException
       | S more' => sleep 500 ;; until_loop d c more'
       end.

Definition until (d : driver) (method : pyval) : M W pyval :=
  match method with
  | PyCallable c => until_loop d c (wait_polls ext)
  | _ => raise TypeError
  end.

(** The value [until] returned, used as a WebElement. *)
Definition as_element (v : pyval) : M W element :=
  match v with
  | PyElement el => ret el
  | _ => raise AttributeError
  end.

(** *** [ZerodhaClient.login], one cycle (lines 216-415) *)

(** Session launch (lines 243-265). *)
Definition launch (options : Options) : M W driver :=
  let chrome_driver_path := app_config_get env "chrome_driver_path" in
  first <-
    (if nonempty chrome_driver_path
     then try_except (d <- Chrome chrome_driver_path options ;; ret (Some d))
                     (fun _ => ret None)
     else ret None) ;;
  match first with
  | Some d => ret d
  | None =>
      try_except (driver_path <- install ;; Chrome driver_path options)
                 (fun _ => raise LAUNCH_FAILURE)
  end.

(** User id and password (lines 271-287). *)
Definition fill_credentials (cfg : config) (d : driver) : M W unit :=
  v <- until d (PyCallable (element_to_be_clickable XPATH_USERID)) ;;
  user_id_box <- as_element v ;;
  clear user_id_box ;;
  send_keys user_id_box (usr cfg) ;;
  v <- until d (PyCallable (element_to_be_clickable XPATH_PASSWORD)) ;;
  password_box <- as_element v ;;
  clear password_box ;;
  send_keys password_box (pwd cfg).

(** Login submit (lines 289-302). *)
Definition submit_login (d : driver) : M W unit :=
  submit_btns <- find_elements d XPATH_SUBMIT ;;
  match submit_btns with
  | b :: _ => click b
  | [] =>
      alt_btns <- find_elements d XPATH_LOGIN_TEXT ;;
      match alt_btns with
      | b :: _ => click b
      | [] => raise SUBMIT_NOT_FOUND
      end
  end.

(** One entry of the code into the OTP field (lines 322-323). *)
Definition enter_code (totp_box : element) (authkey : string) : M W unit :=
  clear totp_box ;;
  send_keys totp_box authkey.

(** The OTP entry loop (lines 320-335), over the attempts still to run. *)
Fixpoint enter_totp (d : driver) (attempts : list nat)
         (totp_box : element) (authkey : string) : M W unit :=
  match attempts with
  | [] => ret tt
  | attempt :: rest =>
      r <- catch (enter_code totp_box authkey) ;;
      match r with
      | Ok _ => ret tt
      | Raise e =>
          if Nat.ltb attempt (max_retries - 1) then
            sleep 1000 ;;
            totp_box <- find_element d XPATH_TOTP ;;
            enter_totp d rest totp_box authkey
          else raise e
      end
  end.

(** One round of the OTP submit loop (lines 341-367); returning is [break]. *)
Definition submit_totp_round (d : driver) : M W unit :=
  submit_btns <- find_elements d XPATH_TOTP_SUBMIT ;;
  submit_btns <-
    (match submit_btns with
     | [] => find_elements d XPATH_CONTINUE_TEXT
     | _ => ret submit_btns
     end) ;;
  match submit_btns with
  | _ :: _ => click (List.last submit_btns 0)
  | [] =>
      sleep 2000 ;;
      u <- current_url d ;;
      if PyStr.contains "request_token" u then ret tt
      else
        u <- current_url d ;;
        if PyStr.contains "status=success" u then ret tt
        else raise OTP_SUBMIT_NOT_FOUND
  end.

(** The OTP submit loop (lines 339-372). *)
Fixpoint submit_totp (d : driver) (attempts : list nat) : M W unit :=
  match attempts with
  | [] => ret tt
  | attempt :: rest =>
      r <- catch (submit_totp_round d) ;;
      match r with
      | Ok _ => ret tt
      | Raise e =>
          if Nat.ltb attempt (max_retries - 1) then
            sleep 1000 ;; submit_totp d rest
          else raise e
      end
  end.

(** The argument of the last [wait.until] (line 376). *)
Definition redirect_condition : pyval :=
  py_or (PyCallable (url_contains "request_token"))
        (PyCallable (url_contains "status=success")).

(** Redirect wait and extraction (lines 374-389). *)
Definition wait_for_request_token (d : driver) : M W string :=
  until d redirect_condition ;;
  rt_url <- current_url d ;;
  lift (extract_request_token rt_url).

(** Token exchange (lines 391-406). *)
Definition exchange (cfg : config) (kite : KiteConnect) (rt : string)
  : M W (KiteConnect * string) :=
  data <- generate_session kite rt (cfg_api_secret cfg) ;;
  tok <- lift (dict_getitem data "access_token") ;;
  ret (set_access_token kite tok, tok).

(** The body of the [try] (lines 268-406). *)
Definition login_steps (cfg : config) (kite : KiteConnect) (d : driver)
           (url : string) : M W (KiteConnect * string) :=
  get d url ;;
  fill_credentials cfg d ;;
  submit_login d ;;
  sleep 2000 ;;
  v <- until d (PyCallable (element_to_be_clickable XPATH_TOTP)) ;;
  totp_box <- as_element v ;;
  authkey <- TOTP_now (authenticator cfg) ;;
  enter_totp d (seq 0 max_retries) totp_box authkey ;;
  sleep 2000 ;;
  submit_totp d (seq 0 max_retries) ;;
  rt <- wait_for_request_token d ;;
  exchange cfg kite rt.

(** [finally: try: driver.quit() except Exception: pass] (lines 411-415). *)
Definition teardown (d : driver) : M W unit :=
  try_except (quit d) (fun _ => ret tt).

(** The undecorated method body. *)
Definition login_once (cfg : config) : M W (KiteConnect * string) :=
  let kite := new_KiteConnect (cfg_api_key cfg) in
  url <- login_url kite ;;
  d <- launch (build_options env) ;;
  try_finally
    (try_except (login_steps cfg kite d url) (fun e => raise e))
    (teardown d).

(** The cycle up to the generation of the code (lines 216-313): the
    login URL, the launch and the steps of the [try] that come before
    line 316.  It returns the OTP field when each of them has returned. *)
Definition reach_otp_field (cfg : config) : M W element :=
  let kite := new_KiteConnect (cfg_api_key cfg) in
  url <- login_url kite ;;
  d <- launch (build_options env) ;;
  get d url ;;
  fill_credentials cfg d ;;
  submit_login d ;;
  sleep 2000 ;;
  v <- until d (PyCallable (element_to_be_clickable XPATH_TOTP)) ;;
  as_element v.

(** *** The [retrying] decorator

    [Retrying.call] with [stop_max_attempt_number] and [wait_fixed]:
    run the function; a returned value is final; an exception is
    re-raised once the attempt number has reached the maximum, else the
    wrapper sleeps [wait_fixed] ms and runs the function again.
    [further] counts the attempts still allowed after this one. *)
Fixpoint retrying_call {A} (further : nat) (wait_ms : nat) (fn : M W A) : M W A :=
  r <- catch fn ;;
  match r with
  | Ok a => ret a
  | Raise e =>
      match further with
      | O => raise e
      | S further' => sleep wait_ms ;; retrying_call further' wait_ms fn
      end
  end.

Definition retry {A} (max_attempts wait_ms : nat) (fn : M W A) : M W A :=
  retrying_call (max_attempts - 1) wait_ms fn.

(** [ZerodhaClient.login] as callers see it (line 210). *)
Definition login (cfg : config) : M W (KiteConnect * string) :=
  retry stop_max_attempt_number wait_fixed (login_once cfg).

(** *** [save_token_to_mongo] (lines 152-197) *)

Definition save_token_to_mongo (access_token : string) : M W unit :=
  client <- MongoClient (MONGO_URI env) ;;
  try_finally
    (try_except
       (db <- (if nonempty MONGO_DB_NAME
               then get_database client MONGO_DB_NAME
               else get_default_database client) ;;
        now <- utcnow ;;
        expires_at <- lift (datetime_add now (timedelta_hours 24)) ;;
        update_one db MONGO_COLLECTION_NAME token_filter
                   (token_update access_token now expires_at) true)
       (fun e => raise e))
    (try_except (close client) (fun _ => ret tt)).

(** *** [main] (lines 421-434); the value is the process exit status. *)

Definition main : M W nat :=
  r <- catch (let cfg := load_config env in
              p <- login cfg ;;
              save_token_to_mongo (snd p)) ;;
  match r with
  | Ok _ => ret 0
  | Raise _ => ret 1
  end.

End Script.

(* ===================================================================== *)
(** ** Observations on call traces *)
(* ===================================================================== *)

(** How many events of a trace satisfy [p]. *)
Definition count (p : event -> bool) (t : list event) : nat :=
  List.length (filter p t).

(** Every event a computation can put on the trace satisfies [P];
    no event it can put there satisfies [p]. *)
Definition emits {W A : Type} (P : event -> Prop) (m : M W A) : Prop :=
  forall w, Forall P (trace (m w)).

Definition never {W A : Type} (p : event -> bool) (m : M W A) : Prop :=
  emits (fun ev => p ev = false) m.

(** Traces of successive runs with [sep] between each two of them. *)
Fixpoint join (sep : list event) (runs : list (list event)) : list event :=
  match runs with
  | [] => []
  | [t] => t
  | t :: rest => t ++ sep ++ join sep rest
  end.

(** An entry attempt starts by clearing the field. *)
Definition is_entry (ev : event) : bool :=
  match ev with EvClear _ => true | _ => false end.

Definition is_totp (ev : event) : bool :=
  match ev with EvTotpNow _ _ => true | _ => false end.

(** A cycle starts by asking the client for the login URL. *)
Definition is_cycle_start (ev : event) : bool :=
  match ev with EvLoginUrl _ => true | _ => false end.

Definition is_session_start (ev : event) : bool :=
  match ev with EvChromeStart _ _ (Ok _) => true | _ => false end.

Definition is_quit (ev : event) : bool :=
  match ev with EvQuit _ => true | _ => false end.

(** The pause the retry decorator makes between two cycles. *)
Definition is_retry_wait (ev : event) : bool :=
  match ev with EvSleep ms => Nat.eqb ms wait_fixed | _ => false end.

Definition is_mongo_client (ev : event) : bool :=
  match ev with EvMongoClient _ _ => true | _ => false end.

Definition is_update_one (ev : event) : bool :=
  match ev with EvUpdateOne _ _ _ _ _ => true | _ => false end.

(** Any call to the document store or to its clock. *)
Definition is_persistence (ev : event) : bool :=
  match ev with
  | EvMongoClient _ _ | EvGetDatabase _ _ | EvGetDefaultDatabase _
  | EvUtcNow _ | EvUpdateOne _ _ _ _ _ | EvClose _ => true
  | _ => false
  end.

(** Events of the browser steps of a cycle: page and element calls,
    the pauses of the steps, the code generator and the token exchange. *)
Definition is_step (ev : event) : bool :=
  match ev with
  | EvGet _ _ | EvPollClickable _ _ | EvCurrentUrl _ | EvFindElements _ _
  | EvFindElement _ _ | EvClear _ | EvSendKeys _ _ | EvClick _
  | EvTotpNow _ _ | EvGenerateSession _ _ _ => true
  | EvSleep ms => Nat.eqb ms 500 || Nat.eqb ms 1000 || Nat.eqb ms 2000
  | _ => false
  end.

(** What may follow the generation of a code with result [r]: no second
    generation, and nothing typed but that code. *)
Definition follows_code (r : result string) (ev : event) : Prop :=
  match ev with
  | EvTotpNow _ _ => False
  | EvSendKeys _ text => r = Ok text
  | _ => True
  end.

(** A trace with at most one code generation, for [secret], after which
    nothing but the generated code is typed. *)
Definition one_code (secret : string) (t : list event) : Prop :=
  Forall (fun ev => is_totp ev = false) t \/
  exists t1 r t2,
    t = t1 ++ EvTotpNow secret r :: t2 /\
    Forall (fun ev => is_totp ev = false) t1 /\
    Forall (follows_code r) t2.

(** The upsert the specification describes, written out: collection
    [zerodhatokens], the document keyed by the fixed [updatedBy]
    identity, [upsert=True], the token as [accessToken], the time [now]
    as [updatedAt] (and as [createdAt] of a new document) and [now] plus
    24 hours, in microseconds, as [expiresAt]. *)
Definition writes_token (access_token : string) (now : datetime) (ev : event) : Prop :=
  match ev with
  | EvUpdateOne _ coll filter update upsert =>
      coll = "zerodhatokens" /\
      filter = [("updatedBy", BStr "aiman.singh30@gmail.com")] /\
      upsert = true /\
      update = [("$set", [("accessToken", BStr access_token);
                          ("updatedAt", BDate now);
                          ("expiresAt", BDate (now + 86400000000)%Z);
                          ("isActive", BBool true);
                          ("updatedBy", BStr "aiman.singh30@gmail.com")]);
                ("$setOnInsert", [("createdAt", BDate now)])]
  | _ => False
  end.

(** Every upsert of a trace comes right after a reading of the clock
    and writes the document of [access_token] stamped with that
    reading. *)
Definition upserts_stamped (access_token : string) (t : list event) : Prop :=
  forall pre ev post,
    t = pre ++ ev :: post -> is_update_one ev = true ->
    exists pre' now, pre = pre' ++ [EvUtcNow now] /\ writes_token access_token now ev.

(** [m] generates a code exactly when [m'] returns, [m'] is a
    beginning of [m] that generates none, and [m] returns only when
    [m'] does. *)
Definition generates_after {W A B : Type} (m : M W A) (m' : M W B) (w : W)
  : Prop :=
  count is_totp (trace (m w)) = (if is_ok (res (m' w)) then 1 else 0) /\
  count is_totp (trace (m' w)) = 0 /\
  (exists rest, trace (m w) = trace (m' w) ++ rest) /\
  (is_ok (res (m w)) = true -> is_ok (res (m' w)) = true).

(** A successful exchange is the last step before teardown, and the
    token handed on is the [access_token] entry of what it returned. *)
Definition ends_with_exchange (secret tok : string) (t : list event) : Prop :=
  exists t0 rt data,
    t = t0 ++ [EvGenerateSession rt secret (Ok data)] /\
    dict_getitem data "access_token" = Ok tok.

(* ===================================================================== *)
(** ** A scripted outside world, to run the script on concrete inputs *)
(* ===================================================================== *)

Module Sim.

(** A [<button>] of the page: its handle, [type] attribute and text. *)
Record button : Type := {
  btn_id : element;
  btn_type : string;
  btn_text : string
}.

Record world : Type := {
  buttons : list button;    (* the buttons of the page, in document order *)
  url : string;             (* what driver.current_url reports *)
  stale : nat;              (* send_keys calls on the OTP field that still raise *)
  chrome_ok : bool;         (* webdriver.Chrome(...) starts *)
  quit_ok : bool;           (* driver.quit() returns *)
  mongo_ok : bool;          (* MongoClient(...) connects *)
  now : datetime            (* the clock *)
}.

(** XPath [translate(., 'A..Z', 'a..z')] on one character and on a string. *)
Definition lower_char (c : ascii) : ascii :=
  let n := nat_of_ascii c in
  if (65 <=? n)%nat && (n <=? 90)%nat then ascii_of_nat (n + 32) else c.

Fixpoint lower (s : string) : string :=
  match s with
  | EmptyString => EmptyString
  | String c s' => String (lower_char c) (lower s')
  end.

(** Which buttons each locator of the script selects. *)
Definition selects (xpath : string) (b : button) : bool :=
  if String.eqb xpath XPATH_SUBMIT then String.eqb (btn_type b) "submit"
  else if String.eqb xpath XPATH_LOGIN_TEXT then
    PyStr.contains "login" (lower (btn_text b))
    || PyStr.contains "sign in" (lower (btn_text b))
  else if String.eqb xpath XPATH_TOTP_SUBMIT then
    String.eqb (btn_type b) "submit"
    || PyStr.contains "Continue" (btn_text b)
    || PyStr.contains "CONTINUE" (btn_text b)
  else if String.eqb xpath XPATH_CONTINUE_TEXT then
    PyStr.contains "continue" (lower (btn_text b))
  else false.

Definition USERID_BOX : element := 1.
Definition PASSWORD_BOX : element := 2.
Definition TOTP_BOX : element := 3.
Definition TOTP_BOX_AGAIN : element := 4.
Definition STALE_ELEMENT : exn := Foreign 10.
Definition SESSION_NOT_CREATED : exn := Foreign 11.
Definition QUIT_FAILED : exn := Foreign 12.
Definition SERVER_SELECTION_TIMEOUT : exn := Foreign 13.

Definition use_stale (w : world) : world :=
  {| buttons := buttons w; url := url w; stale := Nat.pred (stale w);
     chrome_ok := chrome_ok w; quit_ok := quit_ok w; mongo_ok := mongo_ok w;
     now := now w |}.

Definition ext : collaborators world := {|
  kite_login_url := fun key w =>
    (Ok ("https://kite.zerodha.com/connect/login?v=3&api_key=" ++ key)%string, w);
  kite_generate_session := fun key rt secret w =>
    (Ok [("access_token", ("token-for-" ++ rt)%string); ("user_id", "XW7136")], w);
  manager_install := fun w => (Ok "/tmp/chromedriver", w);
  chrome_start := fun path opts w =>
    (if chrome_ok w then Ok 1 else Raise SESSION_NOT_CREATED, w);
  driver_get := fun d u w => (Ok tt, w);
  driver_current_url := fun d w => (Ok (url w), w);
  driver_find_elements := fun d xpath w =>
    (Ok (map btn_id (filter (selects xpath) (buttons w))), w);
  driver_find_element := fun d xpath w => (Ok TOTP_BOX_AGAIN, w);
  driver_quit := fun d w => (if quit_ok w then Ok tt else Raise QUIT_FAILED, w);
  probe_clickable := fun d locator w =>
    (Ok (Some (if String.eqb locator XPATH_USERID then USERID_BOX
               else if String.eqb locator XPATH_PASSWORD then PASSWORD_BOX
               else TOTP_BOX)), w);
  element_clear := fun el w => (Ok tt, w);
  element_send_keys := fun el text w =>
    if (TOTP_BOX <=? el)%nat then
      match stale w with
      | O => (Ok tt, w)
      | S _ => (Raise STALE_ELEMENT, use_stale w)
      end
    else (Ok tt, w);
  element_click := fun el w => (Ok tt, w);
  totp_now := fun secret w => (Ok "123456", w);
  time_passes := fun ms w => w;
  wait_polls := 2;
  mongo_connect := fun uri w =>
    (if mongo_ok w then Ok 1 else Raise SERVER_SELECTION_TIMEOUT, w);
  mongo_get_database := fun c name w => (Ok 1, w);
  mongo_get_default_database := fun c w => (Ok 1, w);
  mongo_update_one := fun db coll f u up w => (Ok tt, w);
  mongo_close := fun c w => (Ok tt, w);
  clock_utcnow := fun w => (now w, w)
|}.

Definition env : environment := {|
  ZERODHA_USER_ID := "XW7136";
  ZERODHA_PASSWORD := "secret";
  ZERODHA_API_KEY := "key";
  ZERODHA_API_SECRET := "apisecret";
  ZERODHA_TOTP_SECRET := "JBSWY3DPEHPK3PXP";
  MONGO_URI := "mongodb://localhost/trading";
  APP_CONFIG := [("chrome_driver_path", Some ""); ("chrome_user_data_dir", Some "")];
  getenv := fun _ => None
|}.

Definition SUBMIT_BUTTON : button :=
  {| btn_id := 20; btn_type := "submit"; btn_text := "Login" |}.
Definition SIGN_IN_BUTTON : button :=
  {| btn_id := 21; btn_type := "button"; btn_text := "Sign In" |}.
Definition HELP_BUTTON : button :=
  {| btn_id := 22; btn_type := "button"; btn_text := "Forgot user ID or password?" |}.

(** A session that works: a submit button, a redirect carrying a code. *)
Definition happy : world := {|
  buttons := [HELP_BUTTON; SUBMIT_BUTTON];
  url := "https://127.0.0.1/?request_token=abc123&action=login&status=success";
  stale := 0;
  chrome_ok := true; quit_ok := true; mongo_ok := true;
  now := 63900000000000000%Z
|}.

Definition with_buttons (bs : list button) (w : world) : world :=
  {| buttons := bs; url := url w; stale := stale w;
     chrome_ok := chrome_ok w; quit_ok := quit_ok w; mongo_ok := mongo_ok w;
     now := now w |}.

Definition with_url (u : string) (w : world) : world :=
  {| buttons := buttons w; url := u; stale := stale w;
     chrome_ok := chrome_ok w; quit_ok := quit_ok w; mongo_ok := mongo_ok w;
     now := now w |}.

Definition with_stale (n : nat) (w : world) : world :=
  {| buttons := buttons w; url := url w; stale := n;
     chrome_ok := chrome_ok w; quit_ok := quit_ok w; mongo_ok := mongo_ok w;
     now := now w |}.

Definition with_quit_ok (b : bool) (w : world) : world :=
  {| buttons := buttons w; url := url w; stale := stale w;
     chrome_ok := chrome_ok w; quit_ok := b; mongo_ok := mongo_ok w;
     now := now w |}.

Definition with_mongo_ok (b : bool) (w : world) : world :=
  {| buttons := buttons w; url := url w; stale := stale w;
     chrome_ok := chrome_ok w; quit_ok := quit_ok w; mongo_ok := b;
     now := now w |}.

(** A redirect that reports success without carrying a code. *)
Definition STATUS_ONLY_URL : string :=
  "https://kite.zerodha.com/connect/finish?status=success".

End Sim.

(* ===================================================================== *)
(** ** Further observations on call traces *)
(* ===================================================================== *)

Definition is_install (ev : event) : bool :=
  match ev with EvInstall => true | _ => false end.

Definition is_chrome_start (ev : event) : bool :=
  match ev with EvChromeStart _ _ _ => true | _ => false end.

(** The first query of a round of the OTP submit loop. *)
Definition is_otp_query (ev : event) : bool :=
  match ev with
  | EvFindElements _ xpath => String.eqb xpath XPATH_TOTP_SUBMIT
  | _ => false
  end.

Definition is_click (ev : event) : bool :=
  match ev with EvClick _ => true | _ => false end.

(** The pause between two rounds of a loop of the OTP screen. *)
Definition is_round_pause (ev : event) : bool :=
  match ev with EvSleep ms => Nat.eqb ms 1000 | _ => false end.

(** One evaluation of an expected condition under [wait.until], and the
    pause between two of them. *)
Definition is_poll (ev : event) : bool :=
  match ev with
  | EvCurrentUrl _ | EvPollClickable _ _ => true
  | _ => false
  end.

Definition is_poll_pause (ev : event) : bool :=
  match ev with EvSleep ms => Nat.eqb ms 500 | _ => false end.



Definition is_exchange (ev : event) : bool :=
  match ev with EvGenerateSession _ _ _ => true | _ => false end.

(** A trace without exchange, or with one exchange, for [secret], as its
    last event. *)
Definition exchange_last (secret : string) (t : list event) : Prop :=
  Forall (fun ev => is_exchange ev = false) t \/
  exists t0 rt r,
    t = t0 ++ [EvGenerateSession rt secret r] /\
    Forall (fun ev => is_exchange ev = false) t0.


(* ===================================================================== *)
(** ** Module initialisation *)
(* ===================================================================== *)

(** *** The required environment variables (lines 44-66) *)

(** The keys of [required_env], in the order of the dict literal. *)
Definition REQUIRED_ENV : list string :=
  ["ZERODHA_USER_ID"; "ZERODHA_PASSWORD"; "ZERODHA_API_KEY";
   "ZERODHA_API_SECRET"; "ZERODHA_TOTP_SECRET"; "MONGO_URI"].

(** [required_env]: every key with what [os.getenv] gave for it. *)
Definition required_env (getenv : string -> option string) : dict (option string) :=
  map (fun k => (k, getenv k)) REQUIRED_ENV.

(** [[k for k, v in required_env.items() if not v]] *)
Definition missing (getenv : string -> option string) : list string :=
  map fst (filter (fun kv => negb (truthy_opt (snd kv))) (required_env getenv)).

(** [", ".join(parts)] *)
Fixpoint join_str (sep : string) (parts : list string) : string :=
  match parts with
  | [] => ""
  | [p] => p
  | p :: rest => (p ++ sep ++ join_str sep rest)%string
  end.

(** The text of a list of names inside an f-string: each name between
    single quotes (the names hold no quote and nothing to escape). *)
Definition repr_names (names : list string) : string :=
  ("[" ++ join_str ", " (map (fun k => "'" ++ k ++ "'") names) ++ "]")%string.

(** The check at import time: a [ValueError] naming the missing variables. *)
Definition check_required_env (getenv : string -> option string) : result unit :=
  match missing getenv with
  | [] => Ok tt
  | names =>
      Raise (ValueError ("Missing required environment variables: "
                         ++ repr_names names)%string)
  end.

(** *** [load_app_config] (lines 106-127) *)

(** A [pathlib.Path] as its parts; [p / name]. *)
Definition Path : Type := list string.

Definition path_div (p : Path) (name : string) : Path := p ++ [name].

Section AppConfig.
(** What [yaml.safe_load] returns, its truth value, the empty dict, and
    the document of the embedded fallback text. *)
Variable doc : Type.
Variable doc_truthy : doc -> bool.
Variable empty_doc : doc.
Variable embedded : doc.

(** The files as the function finds them: [None] where [is_file()] is
    false, else what opening and parsing the file gives. *)
Definition files : Type := Path -> option (result doc).

(** [v or {}] *)
Definition or_empty_doc (v : doc) : doc :=
  if doc_truthy v then v else empty_doc.

Definition candidates (project_root : Path) : list Path :=
  [path_div (path_div project_root "config") "app_config.yaml";
   path_div project_root "app_config.yaml";
   ["/"; "mnt"; "data"; "app_config.yaml"]].

(** The loop over the candidates and the fallback after it; beside the
    result, the files that were opened.  An exception is logged and
    raised again. *)
Fixpoint load_first (fs : files) (cands : list Path) : result doc * list Path :=
  match cands with
  | [] => (Ok (or_empty_doc embedded), [])
  | config_path :: rest =>
      match fs config_path with
      | Some r => (rbind r (fun v => Ok (or_empty_doc v)), [config_path])
      | None => load_first fs rest
      end
  end.

Definition load_app_config (fs : files) (project_root : Path)
  : result doc * list Path :=
  load_first fs (candidates project_root).

End AppConfig.

(** A YAML document of the shape of the application config: a mapping
    whose values are strings, lists of strings or mappings of strings;
    and [yaml.safe_load(_EMBEDDED_APP_CONFIG_YAML)] (lines 82-93). *)
Inductive yaml : Type :=
| YStr (s : string)
| YSeq (l : list string)
| YMap (m : dict string).

Definition EMBEDDED_APP_CONFIG : dict yaml :=
  [("user_credentials_map", YMap [("XW7136", "USR1_")]);
   ("exchanges", YSeq ["NSE"; "BSE"; "MCX"; "NFO"; "BFO"]);
   ("chrome_driver_path", YStr "");
   ("chrome_user_data_dir", YStr "")].

(* ===================================================================== *)
(** ** Further scripted inputs *)
(* ===================================================================== *)

Module Scenario.

(** A machine with a driver installed at a fixed path. *)
Definition env_with_driver_path : environment := {|
  ZERODHA_USER_ID := "XW7136";
  ZERODHA_PASSWORD := "secret";
  ZERODHA_API_KEY := "key";
  ZERODHA_API_SECRET := "apisecret";
  ZERODHA_TOTP_SECRET := "JBSWY3DPEHPK3PXP";
  MONGO_URI := "mongodb://localhost/trading";
  APP_CONFIG := [("chrome_driver_path", Some "/opt/chromedriver");
                 ("chrome_user_data_dir", Some "")];
  getenv := fun _ => None
|}.

(** A CI runner on which a profile directory is configured all the same. *)
Definition env_ci : environment := {|
  ZERODHA_USER_ID := "XW7136";
  ZERODHA_PASSWORD := "secret";
  ZERODHA_API_KEY := "key";
  ZERODHA_API_SECRET := "apisecret";
  ZERODHA_TOTP_SECRET := "JBSWY3DPEHPK3PXP";
  MONGO_URI := "mongodb://localhost/trading";
  APP_CONFIG := [("chrome_driver_path", Some "");
                 ("chrome_user_data_dir", Some "/home/me/profile")];
  getenv := fun k => if String.eqb k "GITHUB_ACTIONS" then Some "true" else None
|}.

Definition with_chrome_ok (b : bool) (w : Sim.world) : Sim.world :=
  {| Sim.buttons := Sim.buttons w; Sim.url := Sim.url w; Sim.stale := Sim.stale w;
     Sim.chrome_ok := b; Sim.quit_ok := Sim.quit_ok w; Sim.mongo_ok := Sim.mongo_ok w;
     Sim.now := Sim.now w |}.

Definition CONTINUE_BUTTON : Sim.button :=
  {| Sim.btn_id := 30; Sim.btn_type := "button"; Sim.btn_text := "Continue" |}.
Definition CONTINUE_BUTTON_AGAIN : Sim.button :=
  {| Sim.btn_id := 31; Sim.btn_type := "submit"; Sim.btn_text := "CONTINUE" |}.

(** An OTP screen that went nowhere: no button, no marker in the URL. *)
Definition stuck : Sim.world :=
  Sim.with_buttons [] (Sim.with_url "https://kite.zerodha.com/connect/login" Sim.happy).

(** An environment in which the password is empty and the URI unset. *)
Definition getenv_incomplete (k : string) : option string :=
  if String.eqb k "ZERODHA_PASSWORD" then Some ""
  else if String.eqb k "MONGO_URI" then None
  else Some "x".

(** Two config files: the one under config/ is broken, the one beside
    the script is fine. *)
Definition PROJECT_ROOT : Path := ["/"; "srv"; "token"].

Definition yaml_truthy (d : dict yaml) : bool :=
  match d with [] => false | _ :: _ => true end.

Definition broken_then_good (p : Path) : option (result (dict yaml)) :=
  match p with
  | ["/"; "srv"; "token"; "config"; "app_config.yaml"] => Some (Raise (Foreign 20))
  | ["/"; "srv"; "token"; "app_config.yaml"] =>
      Some (Ok [("chrome_driver_path", YStr "/opt/chromedriver")])
  | _ => None
  end.

(** Only the file beside the script exists, and it is empty. *)
Definition empty_beside_script (p : Path) : option (result (dict yaml)) :=
  match p with
  | ["/"; "srv"; "token"; "app_config.yaml"] => Some (Ok [])
  | _ => None
  end.

End Scenario.

(* ===================================================================== *)
(** * Properties *)
(* ===================================================================== *)

Unset Implicit Arguments.

Module PyStrFacts.
Import PyStr.

Lemma take_app (a b : string) : take (String.length a) (a ++ b)%string = a.
Proof. induction a as [|c a IH]; simpl; [now destruct b | now rewrite IH]. Qed.

Lemma take_app_more (n : nat) (a b : string) :
  take (String.length a + n) (a ++ b)%string = (a ++ take n b)%string.
Proof. induction a as [|c a IH]; simpl; [reflexivity | now rewrite IH]. Qed.

Lemma drop_app (a b : string) : drop (String.length a) (a ++ b)%string = b.
Proof. induction a as [|c a IH]; simpl; [now destruct b | exact IH]. Qed.

Lemma length_drop (n : nat) (s : string) :
  String.length (drop n s) = String.length s - n.
Proof.
  revert s; induction n as [|n IH]; intros [|c s]; simpl; auto.
Qed.

Lemma length_app (a b : string) :
  String.length (a ++ b)%string = String.length a + String.length b.
Proof. induction a as [|c a IH]; simpl; [reflexivity | now rewrite IH]. Qed.

Lemma app_empty_r (a : string) : (a ++ "")%string = a.
Proof. induction a as [|c a IH]; simpl; [reflexivity | now rewrite IH]. Qed.

Lemma app_assoc (a b c : string) : ((a ++ b) ++ c = a ++ (b ++ c))%string.
Proof. induction a as [|x a IH]; simpl; [reflexivity | now rewrite IH]. Qed.

Lemma startswith_app (p s : string) : startswith p (p ++ s)%string = true.
Proof.
  induction p as [|c p IH]; simpl; [reflexivity|].
  now rewrite Ascii.eqb_refl, IH.
Qed.

(** A match of [q] that begins inside [p] and runs past its end covers
    the character that follows [p]. *)
Lemma startswith_straddle (q p : string) (c : ascii) (t : string) :
  startswith q (p ++ String c t)%string = true ->
  startswith q p = true \/ char_in c q = true.
Proof.
  revert q; induction p as [|a p IH]; intros [|b q]; simpl; auto.
  - intros H. apply andb_true_iff in H as [H _].
    apply Ascii.eqb_eq in H; subst. right. now rewrite Ascii.eqb_refl.
  - intros H. apply andb_true_iff in H as [Hab H].
    destruct (IH _ H) as [H1 | H1].
    + left. now rewrite Hab, H1.
    + right. rewrite H1. apply orb_true_r.
Qed.

Lemma find_empty (s : string) : find "" s = Some 0.
Proof. destruct s; reflexivity. Qed.

Lemma find_cons (sub : string) (a : ascii) (s : string) :
  find sub (String a s) =
  if startswith sub (String a s) then Some 0 else option_map S (find sub s).
Proof. reflexivity. Qed.

Lemma find_none_cons (sub : string) (a : ascii) (s : string) :
  find sub (String a s) = None ->
  startswith sub (String a s) = false /\ find sub s = None.
Proof.
  rewrite find_cons. destruct (startswith sub (String a s)); [discriminate|].
  destruct (find sub s); [discriminate | auto].
Qed.

(** The first occurrence of a separator whose first character occurs
    nowhere else in it, behind a prefix that is free of it. *)
Lemma find_behind (c : ascii) (rest pre tail : string) :
  char_in c rest = false ->
  find (String c rest) pre = None ->
  find (String c rest) (pre ++ String c rest ++ tail)%string
  = Some (String.length pre).
Proof.
  intros Hc.
  assert (Hhit : startswith (String c rest) (String c rest ++ tail)%string = true)
    by apply startswith_app.
  remember (String c rest ++ tail)%string as st eqn:Est.
  assert (Hst : st = String c (rest ++ tail)%string) by (subst; reflexivity).
  clear Est.
  induction pre as [|a pre IH]; intros Hpre.
  - cbn [append String.length]. rewrite Hst, find_cons, <- Hst, Hhit. reflexivity.
  - apply find_none_cons in Hpre as [Hs Hf].
    cbn [append String.length]. rewrite find_cons.
    destruct (startswith (String c rest) (String a (pre ++ st))) eqn:E.
    + exfalso. cbn [startswith] in E, Hs.
      apply andb_true_iff in E as [Eca E]. rewrite Hst in E.
      destruct (startswith_straddle _ _ _ _ E) as [H | H].
      * rewrite Eca, H in Hs. discriminate.
      * congruence.
    + now rewrite (IH Hf).
Qed.

(** Searching past a character the separator does not contain. *)
Lemma find_past_char (sep code : string) (c : ascii) (t : string) :
  find sep code = None ->
  char_in c sep = false ->
  find sep (code ++ String c t)%string
  = option_map (fun k => String.length code + 1 + k) (find sep t).
Proof.
  intros Hcode Hc. induction code as [|a code IH].
  - cbn [append String.length]. rewrite find_cons.
    destruct sep as [|b sep]; [now rewrite find_empty in Hcode|].
    cbn [startswith]. cbn [char_in] in Hc.
    apply orb_false_iff in Hc as [Hcb _].
    rewrite Ascii.eqb_sym, Hcb. cbn [andb].
    destruct (find (String b sep) t); reflexivity.
  - apply find_none_cons in Hcode as [Hs Hf].
    cbn [append String.length]. rewrite find_cons.
    destruct (startswith sep (String a (code ++ String c t))) eqn:E.
    + exfalso.
      change (String a (code ++ String c t))%string
        with (String a code ++ String c t)%string in E.
      destruct (startswith_straddle _ _ _ _ E); congruence.
    + rewrite (IH Hf). destruct (find sep t); reflexivity.
Qed.

(** More fuel than [length s] changes nothing. *)
Lemma split_from_fuel (sep : string) (n m : nat) (s : string) :
  sep <> "" ->
  String.length s <= n -> String.length s <= m ->
  split_from n sep s = split_from m sep s.
Proof.
  intros Hsep. revert m s; induction n as [|n IH]; intros m s Hn Hm.
  - destruct s; [|cbn in Hn; lia].
    destruct m; [reflexivity|]. cbn.
    destruct sep; [congruence | reflexivity].
  - destruct m as [|m].
    + destruct s; [|cbn in Hm; lia]. cbn.
      destruct sep; [congruence | reflexivity].
    + cbn [split_from]. destruct (find sep s) as [i|]; [|reflexivity].
      f_equal. apply IH; rewrite length_drop;
        destruct sep; try congruence; cbn [String.length]; lia.
Qed.

(** The defining equation of [split_from] at the fuel [split] gives it. *)
Lemma split_from_eq (sep s : string) :
  sep <> "" ->
  split_from (String.length s) sep s =
  match find sep s with
  | None => [s]
  | Some i =>
      let tail := drop (i + String.length sep) s in
      take i s :: split_from (String.length tail) sep tail
  end.
Proof.
  intros Hsep. destruct s as [|a s].
  - cbn. destruct sep; [congruence | reflexivity].
  - cbn [String.length split_from].
    destruct (find sep (String a s)) as [i|]; [|reflexivity].
    cbn zeta. f_equal. apply split_from_fuel; auto.
    rewrite length_drop. destruct sep; [congruence|].
    cbn [String.length]. lia.
Qed.

End PyStrFacts.

Section Extraction.
Import PyStr PyStrFacts.

Lemma startswith_weaken (p q s : string) :
  startswith (p ++ q)%string s = true -> startswith p s = true.
Proof.
  revert s; induction p as [|a p IH]; intros [|b s]; cbn; auto; try discriminate.
  intros H. apply andb_true_iff in H as [H1 H2]. now rewrite H1, (IH _ H2).
Qed.

(** Where a longer marker occurs, so does each of its prefixes. *)
Lemma contains_weaken (p q s : string) :
  contains (p ++ q)%string s = true -> contains p s = true.
Proof.
  unfold contains. induction s as [|a s IH].
  - cbn. destruct (startswith (p ++ q) "") eqn:E; [|discriminate].
    now rewrite (startswith_weaken _ _ _ E).
  - rewrite !find_cons.
    destruct (startswith (p ++ q) (String a s)) eqn:E.
    + now rewrite (startswith_weaken _ _ _ E).
    + destruct (startswith p (String a s)); [reflexivity|].
      destruct (find (p ++ q) s); [|discriminate].
      intros _. destruct (find p s); [reflexivity | now specialize (IH eq_refl)].
Qed.

Lemma startswith_length (p s : string) :
  startswith p s = true -> String.length p <= String.length s.
Proof.
  revert s; induction p as [|a p IH]; intros [|b s]; cbn; try lia; try discriminate.
  intros H. apply andb_true_iff in H as [_ H]. specialize (IH _ H). lia.
Qed.

(** An occurrence lies inside the string. *)
Lemma find_fits (sub s : string) (i : nat) :
  find sub s = Some i -> i + String.length sub <= String.length s.
Proof.
  revert i; induction s as [|a s IH]; intros i.
  - cbn. destruct (startswith sub "") eqn:E; [|discriminate].
    intros [= <-]. apply startswith_length in E. cbn in *. lia.
  - rewrite find_cons. destruct (startswith sub (String a s)) eqn:E.
    + intros [= <-]. apply startswith_length in E. cbn in *. lia.
    + destruct (find sub s) as [j|]; [|discriminate].
      intros [= <-]. specialize (IH j eq_refl). cbn. lia.
Qed.

(** A prefix of the marker occurs no later than the marker itself. *)
Lemma find_weaken (p q s : string) (i : nat) :
  find (p ++ q)%string s = Some i -> exists j, find p s = Some j /\ j <= i.
Proof.
  revert i; induction s as [|a s IH]; intros i.
  - cbn. destruct (startswith (p ++ q) "") eqn:E; [|discriminate].
    intros [= <-]. rewrite (startswith_weaken _ _ _ E). eauto.
  - rewrite !find_cons.
    destruct (startswith (p ++ q) (String a s)) eqn:E.
    + intros [= <-]. rewrite (startswith_weaken _ _ _ E). eauto.
    + destruct (find (p ++ q) s) as [k|]; [|discriminate].
      intros [= <-]. destruct (IH k eq_refl) as (j & Hj & Hle).
      destruct (startswith p (String a s)).
      * exists 0. split; [reflexivity | lia].
      * rewrite Hj. exists (S j). split; [reflexivity | lia].
Qed.

Lemma contains_false (sub s : string) :
  contains sub s = false -> find sub s = None.
Proof. unfold contains. now destruct (find sub s). Qed.

Lemma contains_true (sub s : string) :
  contains sub s = true -> exists i, find sub s = Some i.
Proof. unfold contains. destruct (find sub s) as [i|]; [eauto | discriminate]. Qed.

(** [s.split(sep)] for a non-empty separator: the text before the first
    occurrence, then the split of the text after it. *)
Lemma split_cons (s sep : string) (i : nat) :
  sep <> "" ->
  find sep s = Some i ->
  exists l, split (after sep s) sep = Ok l /\ split s sep = Ok (before sep s :: l).
Proof.
  intros Hsep Hi. unfold split, before, after. rewrite Hi.
  destruct sep as [|c sep]; [congruence|].
  eexists; split; [reflexivity|].
  rewrite split_from_eq, Hi by discriminate. reflexivity.
Qed.

Lemma split_head (s sep : string) :
  sep <> "" -> exists l, split s sep = Ok (before sep s :: l).
Proof.
  intros Hsep. destruct (find sep s) as [i|] eqn:Hi.
  - destruct (split_cons s sep i Hsep Hi) as (l & _ & H). eauto.
  - unfold split, before. rewrite Hi.
    destruct sep as [|c sep]; [congruence|].
    rewrite split_from_eq, Hi by discriminate. eauto.
Qed.

Lemma split_first (s sep : string) :
  sep <> "" ->
  rbind (split s sep) (fun fields => getitem fields 0) = Ok (before sep s).
Proof.
  intros Hsep. destruct (split_head s sep Hsep) as (l & ->). reflexivity.
Qed.

(** What the two branches of the extraction compute. *)
Lemma extract_query_branch (rt_url : string) :
  contains "request_token=" rt_url = true ->
  extract_request_token rt_url
  = Ok (before "&" (before "request_token=" (after "request_token=" rt_url))).
Proof.
  intros H. unfold extract_request_token. rewrite H.
  destruct (contains_true _ _ H) as [i Hi].
  destruct (split_cons rt_url "request_token=" i ltac:(discriminate) Hi)
    as (l & Hl & ->).
  destruct (split_head (after "request_token=" rt_url) "request_token="
              ltac:(discriminate)) as (l' & Hl').
  rewrite Hl' in Hl. injection Hl as <-. cbn [rbind getitem nth_error].
  apply split_first. discriminate.
Qed.

Lemma extract_bare_branch (rt_url : string) :
  contains "request_token=" rt_url = false ->
  contains "request_token" rt_url = true ->
  extract_request_token rt_url
  = Ok (lstrip "=&#?/" (before "request_token" (after "request_token" rt_url))).
Proof.
  intros H0 H. unfold extract_request_token. rewrite H0, H.
  destruct (contains_true _ _ H) as [i Hi].
  destruct (split_cons rt_url "request_token" i ltac:(discriminate) Hi)
    as (l & Hl & ->).
  destruct (split_head (after "request_token" rt_url) "request_token"
              ltac:(discriminate)) as (l' & Hl').
  rewrite Hl' in Hl. injection Hl as <-. reflexivity.
Qed.

End Extraction.

Section ExtractionClaims.
Import PyStr PyStrFacts.

Lemma cut_behind (c : ascii) (rest pre tail : string) :
  char_in c rest = false ->
  find (String c rest) pre = None ->
  before (String c rest) (pre ++ String c rest ++ tail)%string = pre /\
  after (String c rest) (pre ++ String c rest ++ tail)%string = tail.
Proof.
  intros Hc Hpre. unfold before, after.
  rewrite (find_behind _ _ _ tail Hc Hpre). split.
  - apply take_app.
  - rewrite <- app_assoc, <- length_app. apply drop_app.
Qed.

Lemma before_absent (sep s : string) : find sep s = None -> before sep s = s.
Proof. unfold before. now intros ->. Qed.

(** The text before a separator that first shows up behind a character
    it does not contain begins with everything up to that character. *)
Lemma before_past_char (sep code : string) (c : ascii) (t : string) :
  find sep code = None ->
  char_in c sep = false ->
  exists x, before sep (code ++ String c t)%string = (code ++ String c x)%string.
Proof.
  intros Hcode Hc. unfold before.
  rewrite (find_past_char _ _ _ t Hcode Hc).
  destruct (find sep t) as [k|]; cbn [option_map]; [|eauto].
  exists (take k t).
  rewrite <- Nat.add_assoc, take_app_more. reflexivity.
Qed.

(** C2.  For a URL made of a prefix free of the marker, the marker
    [request_token=], a code that holds neither [&] nor the marker, and
    then either nothing or [&] and more text, the extraction yields
    exactly the code. *)
Theorem extract_query_code (pre code rest : string) :
  contains "request_token=" pre = false ->
  contains "request_token=" code = false ->
  contains "&" code = false ->
  extract_request_token (pre ++ "request_token=" ++ code)%string = Ok code /\
  extract_request_token (pre ++ "request_token=" ++ code ++ "&" ++ rest)%string
  = Ok code.
Proof.
  intros Hpre Hcode Hamp.
  apply contains_false in Hpre, Hcode, Hamp.
  assert (Hr : char_in "r" "equest_token=" = false) by reflexivity.
  assert (Hin : forall tail,
             contains "request_token=" (pre ++ "request_token=" ++ tail)%string = true).
  { intros tail. unfold contains. now rewrite (find_behind _ _ _ tail Hr Hpre). }
  split; rewrite extract_query_branch by apply Hin;
    rewrite (proj2 (cut_behind _ _ _ _ Hr Hpre)).
  - now rewrite (before_absent _ _ Hcode), (before_absent _ _ Hamp).
  - change ("&" ++ rest)%string with (String "&" rest).
    destruct (before_past_char "request_token=" code "&" rest Hcode eq_refl)
      as [x ->].
    change (String "&" x) with ("&" ++ x)%string.
    now rewrite (proj1 (cut_behind "&" "" code x eq_refl Hamp)).
Qed.

Lemma extract_query_code_witness :
  extract_request_token "https://127.0.0.1/?request_token=abc123&status=success"
  = Ok "abc123".
Proof.
  exact (proj2 (extract_query_code "https://127.0.0.1/?" "abc123" "status=success"
                  eq_refl eq_refl eq_refl)).
Defined.

(** C3 (as the code has it).  For a URL that holds [request_token] but
    not [request_token=], the extraction takes the text after the first
    occurrence of [request_token] up to its next occurrence (up to the
    end when there is none), and strips leading [=&#?/] from it. *)
Theorem extract_bare_marker (rt_url : string) :
  contains "request_token=" rt_url = false ->
  contains "request_token" rt_url = true ->
  extract_request_token rt_url
  = Ok (lstrip "=&#?/" (before "request_token" (after "request_token" rt_url)))
  /\ (contains "request_token" (after "request_token" rt_url) = false ->
      extract_request_token rt_url
      = Ok (lstrip "=&#?/" (after "request_token" rt_url))).
Proof.
  intros H0 H. rewrite (extract_bare_branch _ H0 H). split; [reflexivity|].
  intros Hone. now rewrite (before_absent _ _ (contains_false _ _ Hone)).
Qed.

Lemma extract_bare_marker_witness :
  extract_request_token "https://127.0.0.1/request_token#xyz789" = Ok "xyz789".
Proof.
  exact (proj1 (extract_bare_marker "https://127.0.0.1/request_token#xyz789"
                  eq_refl eq_refl)).
Defined.

(** C3 as stated fails where the marker occurs twice: the extraction
    stops at the second occurrence. *)
Lemma extract_bare_marker_not_rest :
  ~ (forall rt_url : string,
        contains "request_token=" rt_url = false ->
        contains "request_token" rt_url = true ->
        extract_request_token rt_url
        = Ok (lstrip "=&#?/" (after "request_token" rt_url))).
Proof.
  intros H.
  specialize (H "https://x/request_token#abc&next=request_token_done" eq_refl eq_refl).
  vm_compute in H. discriminate H.
Qed.



(** C9.  A URL that holds [request_token] never makes the extraction
    raise: the split on the marker has at least two parts, so the guard
    of the bare-marker branch cannot fail, and a URL that ends right at
    its only marker (with or without [=]) yields the empty code. *)
Theorem extract_marker_never_raises (rt_url : string) :
  contains "request_token" rt_url = true ->
  (exists parts, split rt_url "request_token" = Ok parts /\ 2 <= List.length parts) /\
  exists rt, extract_request_token rt_url = Ok rt /\
    forall pre, contains "request_token" pre = false ->
      (rt_url = pre ++ "request_token" \/ rt_url = pre ++ "request_token=")%string ->
      rt = "".
Proof.
  intros H. split.
  - destruct (contains_true _ _ H) as [i Hi].
    destruct (split_cons rt_url "request_token" i ltac:(discriminate) Hi)
      as (l & Hl & ->).
    destruct (split_head (after "request_token" rt_url) "request_token"
                ltac:(discriminate)) as (l' & Hl').
    rewrite Hl' in Hl. injection Hl as <-.
    eexists; split; [reflexivity | cbn; lia].
  - assert (Hr : char_in "r" "equest_token" = false) by reflexivity.
    assert (Hr' : char_in "r" "equest_token=" = false) by reflexivity.
    assert (Hfree : forall pre, contains "request_token" pre = false ->
              find "request_token" pre = None /\ find "request_token=" pre = None).
    { intros pre Hpre. split; [now apply contains_false|].
      apply contains_false.
      destruct (contains "request_token=" pre) eqn:E'; [|reflexivity].
      apply (contains_weaken "request_token" "=") in E'. congruence. }
    destruct (contains "request_token=" rt_url) eqn:E.
    + rewrite (extract_query_branch _ E). eexists; split; [reflexivity|].
      intros pre Hpre [-> | ->]; destruct (Hfree _ Hpre) as [Hp Hp'].
      * exfalso. destruct (contains_true _ _ E) as [i Hi].
        pose proof (find_fits _ _ _ Hi) as Hfit.
        destruct (find_weaken "request_token" "=" _ _ Hi) as (j & Hj & Hle).
        rewrite <- (app_empty_r "request_token") in Hj at 2.
        rewrite (find_behind _ _ _ "" Hr Hp) in Hj. injection Hj as <-.
        rewrite length_app in Hfit. cbn in Hfit. lia.
      * rewrite <- (app_empty_r "request_token=") at 2 3.
        rewrite (proj2 (cut_behind _ _ _ _ Hr' Hp')). reflexivity.
    + rewrite (extract_bare_branch _ E H). eexists; split; [reflexivity|].
      intros pre Hpre [-> | ->]; destruct (Hfree _ Hpre) as [Hp Hp'].
      * rewrite <- (app_empty_r "request_token") at 2 3.
        rewrite (proj2 (cut_behind _ _ _ _ Hr Hp)). reflexivity.
      * exfalso. unfold contains in E.
        rewrite <- (app_empty_r "request_token=") in E at 2.
        rewrite (find_behind _ _ _ "" Hr' Hp') in E. discriminate.
Qed.

Lemma extract_marker_never_raises_witness :
  extract_request_token "https://127.0.0.1/request_token" = Ok ""
  /\ extract_request_token "https://127.0.0.1/request_token=" = Ok "".
Proof.
  split.
  - destruct (extract_marker_never_raises "https://127.0.0.1/request_token" eq_refl)
      as [_ (rt & Hrt & Hempty)].
    rewrite Hrt. f_equal.
    apply (Hempty "https://127.0.0.1/"); [reflexivity | now left].
  - destruct (extract_marker_never_raises "https://127.0.0.1/request_token=" eq_refl)
      as [_ (rt & Hrt & Hempty)].
    rewrite Hrt. f_equal.
    apply (Hempty "https://127.0.0.1/"); [reflexivity | now right].
Defined.

End ExtractionClaims.

(* ===================================================================== *)
(** ** Running the monad *)
(* ===================================================================== *)

Section MonadFacts.
Context {W : Type}.

Lemma bind_ok {A B} (m : M W A) (k : A -> M W B) (w w1 : W) (a : A) (t1 : list event) :
  m w = Out (Ok a) w1 t1 ->
  bind m k w = Out (res (k a w1)) (final (k a w1)) (t1 ++ trace (k a w1)).
Proof. unfold bind. now intros ->. Qed.

Lemma bind_raise {A B} (m : M W A) (k : A -> M W B) (w w1 : W) (e : exn)
      (t1 : list event) :
  m w = Out (Raise e) w1 t1 -> bind m k w = Out (Raise e) w1 t1.
Proof. unfold bind. now intros ->. Qed.

Lemma invoke_run {A} (f : W -> result A * W) (ev : result A -> event)
      (w w' : W) (r : result A) :
  f w = (r, w') -> invoke f ev w = Out r w' [ev r].
Proof. unfold invoke. now intros ->. Qed.

Lemma trace_bind {A B} (m : M W A) (k : A -> M W B) (w : W) :
  trace (bind m k w)
  = trace (m w) ++ match res (m w) with
                   | Ok a => trace (k a (final (m w)))
                   | Raise _ => []
                   end.
Proof.
  unfold bind. destruct (res (m w)); cbn; [reflexivity | now rewrite app_nil_r].
Qed.

End MonadFacts.

Section FirstScreen.
Context {W : Type} (ext : collaborators W).

(** C7.  The login submit step asks for the submit-typed buttons first
    and clicks the first of them; only when there is none does it ask
    for the buttons whose lowered text holds "login" or "sign in", and
    clicks the first of those; when both queries are empty it raises
    "Login submit button not found" and has clicked nothing. *)
Theorem submit_login_order (d : driver) (w : W) :
  (forall b btns w1,
      driver_find_elements ext d XPATH_SUBMIT w = (Ok (b :: btns), w1) ->
      In b (b :: btns) /\
      submit_login ext d w
      = Out (fst (element_click ext b w1)) (snd (element_click ext b w1))
            [EvFindElements d XPATH_SUBMIT; EvClick b])
  /\ (forall w1 b btns w2,
      driver_find_elements ext d XPATH_SUBMIT w = (Ok [], w1) ->
      driver_find_elements ext d XPATH_LOGIN_TEXT w1 = (Ok (b :: btns), w2) ->
      In b (b :: btns) /\
      submit_login ext d w
      = Out (fst (element_click ext b w2)) (snd (element_click ext b w2))
            [EvFindElements d XPATH_SUBMIT; EvFindElements d XPATH_LOGIN_TEXT;
             EvClick b])
  /\ (forall w1 w2,
      driver_find_elements ext d XPATH_SUBMIT w = (Ok [], w1) ->
      driver_find_elements ext d XPATH_LOGIN_TEXT w1 = (Ok [], w2) ->
      submit_login ext d w
      = Out (Raise SUBMIT_NOT_FOUND) w2
            [EvFindElements d XPATH_SUBMIT; EvFindElements d XPATH_LOGIN_TEXT]).
Proof.
  unfold submit_login, find_elements, click. repeat split.
  - now left.
  - rewrite (bind_ok _ _ _ _ _ _ (invoke_run _ _ _ _ _ H)).
    unfold invoke. destruct (element_click ext b w1); reflexivity.
  - now left.
  - rewrite (bind_ok _ _ _ _ _ _ (invoke_run _ _ _ _ _ H)).
    rewrite (bind_ok _ _ _ _ _ _ (invoke_run _ _ _ _ _ H0)).
    unfold invoke. destruct (element_click ext b w2); reflexivity.
  - intros w1 w2 H1 H2.
    rewrite (bind_ok _ _ _ _ _ _ (invoke_run _ _ _ _ _ H1)).
    rewrite (bind_ok _ _ _ _ _ _ (invoke_run _ _ _ _ _ H2)).
    reflexivity.
Qed.

End FirstScreen.

(** On the page with a submit button that button is clicked; with a help
    button and a "Sign In" button only, "Sign In" is clicked; with the
    help button alone the step fails. *)
Lemma submit_login_order_witness :
  trace (submit_login Sim.ext 1 Sim.happy)
  = [EvFindElements 1 XPATH_SUBMIT; EvClick 20]
  /\ trace (submit_login Sim.ext 1
              (Sim.with_buttons [Sim.HELP_BUTTON; Sim.SIGN_IN_BUTTON] Sim.happy))
     = [EvFindElements 1 XPATH_SUBMIT; EvFindElements 1 XPATH_LOGIN_TEXT; EvClick 21]
  /\ res (submit_login Sim.ext 1 (Sim.with_buttons [Sim.HELP_BUTTON] Sim.happy))
     = Raise SUBMIT_NOT_FOUND.
Proof.
  split; [|split].
  - destruct (submit_login_order Sim.ext 1 Sim.happy) as (Hsubmit & _ & _).
    destruct (Hsubmit 20 [] _ eq_refl) as [_ ->]. reflexivity.
  - destruct (submit_login_order Sim.ext 1
                (Sim.with_buttons [Sim.HELP_BUTTON; Sim.SIGN_IN_BUTTON] Sim.happy))
      as (_ & Halt & _).
    destruct (Halt _ 21 [] _ eq_refl eq_refl) as [_ ->]. reflexivity.
  - destruct (submit_login_order Sim.ext 1 (Sim.with_buttons [Sim.HELP_BUTTON] Sim.happy))
      as (_ & _ & Hnone).
    rewrite (Hnone _ _ eq_refl eq_refl). reflexivity.
Defined.

Section RedirectWait.
Context {W : Type} (ext : collaborators W).

(** [a or b] on two function objects is the first of them. *)
Lemma redirect_condition_is_left :
  redirect_condition = PyCallable (url_contains "request_token").
Proof. reflexivity. Qed.

Section NoRequestToken.
Variable d : driver.
Variable Inv : W -> Prop.
Hypothesis url_stays : forall w, Inv w ->
  exists u w', driver_current_url ext d w = (Ok u, w') /\ Inv w' /\
               PyStr.contains "request_token" u = false.
Hypothesis time_keeps : forall ms w, Inv w -> Inv (time_passes ext ms w).

Lemma call_url_contains (s u : string) (w w' : W) :
  driver_current_url ext d w = (Ok u, w') ->
  call_condition ext d (url_contains s) w
  = Out (Ok (PyBool (PyStr.contains s u))) w' [EvCurrentUrl d].
Proof.
  intros Hu. unfold call_condition, current_url.
  now rewrite (bind_ok _ _ _ _ _ _ (invoke_run _ _ _ _ _ Hu)).
Qed.

Lemma until_loop_times_out (more : nat) (w : W) :
  Inv w ->
  res (until_loop ext d (url_contains "request_token") more w) = Raise TimeoutException.
Proof.
  revert w; induction more as [|more IH]; intros w Hw;
    destruct (url_stays w Hw) as (u & w' & Hu & Hw' & Hno);
    cbn [until_loop];
    rewrite (bind_ok _ _ _ _ _ _ (call_url_contains "request_token" u w w' Hu));
    rewrite Hno; cbn [truthy].
  - reflexivity.
  - cbn [res]. unfold bind at 1. cbn [sleep res final trace].
    apply IH. now apply time_keeps.
Qed.

End NoRequestToken.

(** C1 (the code against it).  While the browser stays on URLs that do
    not hold [request_token], the wait for the redirect raises
    [TimeoutException], whether or not those URLs hold [status=success]:
    the wait polls the first condition only. *)
Theorem redirect_wait_times_out (d : driver) (Inv : W -> Prop) (w : W) :
  (forall w, Inv w ->
     exists u w', driver_current_url ext d w = (Ok u, w') /\ Inv w' /\
                  PyStr.contains "request_token" u = false) ->
  (forall ms w, Inv w -> Inv (time_passes ext ms w)) ->
  Inv w ->
  res (until ext d redirect_condition w) = Raise TimeoutException /\
  res (wait_for_request_token ext d w) = Raise TimeoutException.
Proof.
  intros Hurl Htime Hw.
  assert (H : res (until ext d redirect_condition w) = Raise TimeoutException)
    by (apply (until_loop_times_out d Inv Hurl Htime); exact Hw).
  split; [exact H|].
  unfold wait_for_request_token, bind. now rewrite H.
Qed.

End RedirectWait.

Lemma redirect_wait_times_out_witness :
  PyStr.contains "status=success" Sim.STATUS_ONLY_URL = true /\
  res (until Sim.ext 1 redirect_condition (Sim.with_url Sim.STATUS_ONLY_URL Sim.happy))
  = Raise TimeoutException.
Proof.
  split; [reflexivity|].
  refine (proj1 (redirect_wait_times_out Sim.ext 1
                   (fun w => Sim.url w = Sim.STATUS_ONLY_URL)
                   (Sim.with_url Sim.STATUS_ONLY_URL Sim.happy) _ _ eq_refl)).
  - intros w Hw. exists (Sim.url w), w. repeat split; [exact Hw|].
    rewrite Hw. reflexivity.
  - intros ms w Hw. exact Hw.
Defined.

(** The check made when no submit button is found (lines 361-364) tests
    both markers on the URL string, and does accept that URL. *)
Example auto_submit_accepts_status_success :
  res (submit_totp_round Sim.ext 1
         (Sim.with_buttons [] (Sim.with_url Sim.STATUS_ONLY_URL Sim.happy)))
  = Ok tt.
Proof. reflexivity. Qed.

(** The same world run through the whole script: three cycles, each
    ending in the timeout, and the process exits with status 1. *)
Example status_only_login_fails :
  res (login Sim.env Sim.ext (load_config Sim.env)
         (Sim.with_url Sim.STATUS_ONLY_URL Sim.happy)) = Raise TimeoutException
  /\ res (main Sim.env Sim.ext (Sim.with_url Sim.STATUS_ONLY_URL Sim.happy)) = Ok 1.
Proof. split; vm_compute; reflexivity. Qed.

Section Counting.

Lemma count_app (p : event -> bool) (t1 t2 : list event) :
  count p (t1 ++ t2) = count p t1 + count p t2.
Proof. unfold count. now rewrite filter_app, length_app. Qed.

Lemma count_cons (p : event -> bool) (ev : event) (t : list event) :
  count p (ev :: t) = (if p ev then 1 else 0) + count p t.
Proof. unfold count. cbn. now destruct (p ev). Qed.

Lemma count_nil (p : event -> bool) : count p [] = 0.
Proof. reflexivity. Qed.

End Counting.

Section OtpEntry.
Context {W : Type} (ext : collaborators W).
Variable d : driver.
Variable authkey : string.

Lemma enter_code_run (box : element) (w : W) :
  enter_code ext box authkey w
  = match element_clear ext box w with
    | (Ok _, w1) =>
        Out (fst (element_send_keys ext box authkey w1))
            (snd (element_send_keys ext box authkey w1))
            [EvClear box; EvSendKeys box authkey]
    | (Raise e, w1) => Out (Raise e) w1 [EvClear box]
    end.
Proof.
  unfold enter_code, clear, send_keys, bind, invoke.
  destruct (element_clear ext box w) as [[[]|e] w1]; cbn; [|reflexivity].
  destruct (element_send_keys ext box authkey w1); reflexivity.
Qed.

(** Every entry clears the field exactly once. *)
Lemma enter_code_one_entry (box : element) (w : W) :
  count is_entry (trace (enter_code ext box authkey w)) = 1.
Proof.
  rewrite enter_code_run.
  destruct (element_clear ext box w) as [[[]|e] w1]; reflexivity.
Qed.

(** One round of the loop. *)
Lemma enter_totp_round (attempt : nat) (rest : list nat) (box : element) (w : W) :
  enter_totp ext d (attempt :: rest) box authkey w
  = let o := enter_code ext box authkey w in
    match res o with
    | Ok _ => Out (Ok tt) (final o) (trace o)
    | Raise e =>
        if Nat.ltb attempt (max_retries - 1) then
          match driver_find_element ext d XPATH_TOTP (time_passes ext 1000 (final o)) with
          | (Ok box', w') =>
              let o' := enter_totp ext d rest box' authkey w' in
              Out (res o') (final o')
                  (trace o ++ [EvSleep 1000; EvFindElement d XPATH_TOTP] ++ trace o')
          | (Raise e', w') =>
              Out (Raise e') w' (trace o ++ [EvSleep 1000; EvFindElement d XPATH_TOTP])
          end
        else Out (Raise e) (final o) (trace o)
    end.
Proof.
  cbn [enter_totp]. unfold bind at 1, catch. cbn [res final trace].
  destruct (res (enter_code ext box authkey w)) as [[]|e].
  - cbn. now rewrite app_nil_r.
  - destruct (Nat.ltb attempt (max_retries - 1)).
    + unfold bind, sleep, find_element, invoke. cbn [res final trace].
      destruct (driver_find_element ext d XPATH_TOTP
                  (time_passes ext 1000 (final (enter_code ext box authkey w))))
        as [[box'|e'] w']; cbn [res final trace]; reflexivity.
    + cbn. now rewrite app_nil_r.
Qed.

Lemma enter_totp_entries (attempts : list nat) (box : element) (w : W) :
  count is_entry (trace (enter_totp ext d attempts box authkey w)) <= List.length attempts.
Proof.
  revert box w; induction attempts as [|attempt rest IH]; intros box w.
  - cbn. lia.
  - rewrite enter_totp_round. cbn zeta.
    pose proof (enter_code_one_entry box w) as H1.
    destruct (res (enter_code ext box authkey w)) as [[]|e]; cbn [trace List.length].
    + lia.
    + destruct (Nat.ltb attempt (max_retries - 1)); cbn [trace]; [|lia].
      destruct (driver_find_element ext d XPATH_TOTP _) as [[box'|e'] w'];
        cbn [trace]; rewrite !count_app, H1; cbn [count filter is_entry List.length].
      * specialize (IH box' w'). fold (count is_entry (trace (enter_totp ext d rest box' authkey w'))). lia.
      * lia.
Qed.

(** C5.  The OTP entry loop enters the code at most three times.  An
    entry that returns ends the loop at once.  An entry that raises on the
    first or second attempt is followed by a one-second pause and a fresh
    lookup of the OTP field, and the next attempt uses the field just
    found (a lookup that raises ends the loop with its exception).  The
    third attempt is the last: the loop ends with its outcome, so a third
    failure leaves the loop as the very exception it raised. *)
Theorem enter_totp_bounded_retry (box0 : element) (w0 : W) :
  let run := enter_totp ext d (seq 0 max_retries) box0 authkey w0 in
  let relocate := [EvSleep 1000; EvFindElement d XPATH_TOTP] in
  count is_entry (trace run) <= 3 /\
  (forall w1 t1,
      enter_code ext box0 authkey w0 = Out (Ok tt) w1 t1 ->
      run = Out (Ok tt) w1 t1 /\ count is_entry (trace run) = 1) /\
  (forall e1 w1 t1,
      enter_code ext box0 authkey w0 = Out (Raise e1) w1 t1 ->
      (forall e' w2,
          driver_find_element ext d XPATH_TOTP (time_passes ext 1000 w1) = (Raise e', w2) ->
          run = Out (Raise e') w2 (t1 ++ relocate)) /\
      (forall box1 w2,
          driver_find_element ext d XPATH_TOTP (time_passes ext 1000 w1) = (Ok box1, w2) ->
          (forall w3 t3,
              enter_code ext box1 authkey w2 = Out (Ok tt) w3 t3 ->
              run = Out (Ok tt) w3 (t1 ++ relocate ++ t3) /\
              count is_entry (trace run) = 2) /\
          (forall e2 w3 t3,
              enter_code ext box1 authkey w2 = Out (Raise e2) w3 t3 ->
              (forall e' w4,
                  driver_find_element ext d XPATH_TOTP (time_passes ext 1000 w3)
                  = (Raise e', w4) ->
                  run = Out (Raise e') w4 (t1 ++ relocate ++ t3 ++ relocate)) /\
              (forall box2 w4,
                  driver_find_element ext d XPATH_TOTP (time_passes ext 1000 w3)
                  = (Ok box2, w4) ->
                  let last := enter_code ext box2 authkey w4 in
                  run = Out (res last) (final last)
                            (t1 ++ relocate ++ t3 ++ relocate ++ trace last) /\
                  count is_entry (trace run) = 3)))).
Proof.
  intros run relocate. split; [apply (enter_totp_entries (seq 0 max_retries))|].
  subst run relocate. change (seq 0 max_retries) with [0; 1; 2].
  rewrite enter_totp_round. cbn zeta.
  pose proof (enter_code_one_entry box0 w0) as C0.
  split.
  - intros w1 t1 H0. rewrite H0 in *. cbn [res final trace] in *. auto.
  - intros e1 w1 t1 H0. rewrite H0 in *. cbn [res final trace] in *.
    change (Nat.ltb 0 (max_retries - 1)) with true. cbv iota.
    split.
    + intros e' w2 H1. now rewrite H1.
    + intros box1 w2 H1. rewrite H1. cbv iota.
      rewrite enter_totp_round. cbn zeta.
      pose proof (enter_code_one_entry box1 w2) as C1.
      split.
      * intros w3 t3 H2. rewrite H2 in *. cbn [res final trace] in *.
        split; [reflexivity|].
        rewrite !count_app, C0, C1. reflexivity.
      * intros e2 w3 t3 H2. rewrite H2 in *. cbn [res final trace] in *.
        change (Nat.ltb 1 (max_retries - 1)) with true. cbv iota.
        split.
        -- intros e' w4 H3. rewrite H3. reflexivity.
        -- intros box2 w4 H3. rewrite H3. cbv iota.
           rewrite enter_totp_round. cbn zeta.
           pose proof (enter_code_one_entry box2 w4) as C2.
           change (Nat.ltb 2 (max_retries - 1)) with false. cbv iota.
           destruct (res (enter_code ext box2 authkey w4)) as [[]|e3];
             cbn [res final trace]; (split; [reflexivity|]);
             rewrite !count_app, C0, C1, C2; reflexivity.
Qed.

End OtpEntry.

(** The field goes stale once: the first entry raises, the field is
    looked up again, the second entry goes through, and there is no third. *)
Lemma enter_totp_bounded_retry_witness :
  enter_totp Sim.ext 1 (seq 0 max_retries) Sim.TOTP_BOX "123456"
             (Sim.with_stale 1 Sim.happy)
  = Out (Ok tt) Sim.happy
        [EvClear Sim.TOTP_BOX; EvSendKeys Sim.TOTP_BOX "123456";
         EvSleep 1000; EvFindElement 1 XPATH_TOTP;
         EvClear Sim.TOTP_BOX_AGAIN; EvSendKeys Sim.TOTP_BOX_AGAIN "123456"]
  /\ count is_entry
       (trace (enter_totp Sim.ext 1 (seq 0 max_retries) Sim.TOTP_BOX "123456"
                          (Sim.with_stale 1 Sim.happy))) = 2.
Proof.
  destruct (enter_totp_bounded_retry Sim.ext 1 "123456" Sim.TOTP_BOX
              (Sim.with_stale 1 Sim.happy)) as (_ & _ & Hfail).
  destruct (Hfail Sim.STALE_ELEMENT Sim.happy
              [EvClear Sim.TOTP_BOX; EvSendKeys Sim.TOTP_BOX "123456"] eq_refl)
    as (_ & Hfound).
  destruct (Hfound Sim.TOTP_BOX_AGAIN Sim.happy eq_refl) as (Hsecond & _).
  exact (Hsecond Sim.happy
           [EvClear Sim.TOTP_BOX_AGAIN; EvSendKeys Sim.TOTP_BOX_AGAIN "123456"] eq_refl).
Defined.

(* ===================================================================== *)
(** ** What a computation can put on the trace *)
(* ===================================================================== *)

Lemma bind_run {W A B} (m : M W A) (k : A -> M W B) (w : W) :
  bind m k w
  = match res (m w) with
    | Ok a => let o' := k a (final (m w)) in
              Out (res o') (final o') (trace (m w) ++ trace o')
    | Raise e => Out (Raise e) (final (m w)) (trace (m w))
    end.
Proof. reflexivity. Qed.

Section Emits.
Context {W : Type}.
Variable P : event -> Prop.

Lemma emits_ret {A} (a : A) : emits P (ret (W := W) a).
Proof. intros w. constructor. Qed.

Lemma emits_raise {A} (e : exn) : emits P (raise (W := W) (A := A) e).
Proof. intros w. constructor. Qed.

Lemma emits_lift {A} (r : result A) : emits P (lift (W := W) r).
Proof. intros w. constructor. Qed.

Lemma emits_bind {A B} (m : M W A) (k : A -> M W B) :
  emits P m -> (forall a, emits P (k a)) -> emits P (bind m k).
Proof.
  intros Hm Hk w. rewrite trace_bind. apply Forall_app. split; [apply Hm|].
  destruct (res (m w)); [apply Hk | constructor].
Qed.

(** The continuation may rely on the value being the one computed. *)
Lemma emits_bind_lift {A B} (r : result A) (k : A -> M W B) :
  (forall a, r = Ok a -> emits P (k a)) -> emits P (bind (lift r) k).
Proof.
  intros Hk w. rewrite trace_bind. cbn.
  destruct r as [a|e]; [now apply Hk | constructor].
Qed.

Lemma emits_try_except {A} (m : M W A) (h : exn -> M W A) :
  emits P m -> (forall e, emits P (h e)) -> emits P (try_except m h).
Proof.
  intros Hm Hh w. unfold try_except. specialize (Hm w).
  destruct (res (m w)); [exact Hm|].
  cbn. apply Forall_app. split; [exact Hm | apply Hh].
Qed.

Lemma emits_try_finally {A} (m : M W A) (f : M W unit) :
  emits P m -> emits P f -> emits P (try_finally m f).
Proof.
  intros Hm Hf w. unfold try_finally. cbn.
  apply Forall_app. split; [apply Hm | apply Hf].
Qed.

Lemma emits_catch {A} (m : M W A) : emits P m -> emits P (catch m).
Proof. intros Hm w. apply Hm. Qed.

Lemma emits_invoke {A} (f : W -> result A * W) (ev : result A -> event) :
  (forall r, P (ev r)) -> emits P (invoke f ev).
Proof.
  intros Hev w. unfold invoke. destruct (f w) as [r w']. cbn. auto.
Qed.

Lemma emits_sleep (ext : collaborators W) (ms : nat) :
  P (EvSleep ms) -> emits P (sleep ext ms).
Proof. intros H w. cbn. auto. Qed.

Lemma emits_utcnow (ext : collaborators W) :
  (forall t, P (EvUtcNow t)) -> emits P (utcnow ext).
Proof.
  intros H w. unfold utcnow. destruct (clock_utcnow ext w). cbn. auto.
Qed.

End Emits.

Lemma emits_weaken {W A} (P Q : event -> Prop) (m : M W A) :
  (forall ev, P ev -> Q ev) -> emits P m -> emits Q m.
Proof. intros HPQ Hm w. eapply Forall_impl; [exact HPQ | apply Hm]. Qed.

Lemma count_never (p : event -> bool) (t : list event) :
  Forall (fun ev => p ev = false) t -> count p t = 0.
Proof.
  unfold count. induction 1 as [|ev t Hev _ IH]; cbn; [reflexivity|].
  now rewrite Hev.
Qed.

(** Decomposing one step of a computation whose shape is known. *)
Ltac emits_step :=
  lazymatch goal with
  | |- emits _ (bind (lift _) _) => apply emits_bind_lift; intros ? ?
  | |- emits _ (bind _ _) => apply emits_bind; [|intros ?]
  | |- emits _ (ret _) => apply emits_ret
  | |- emits _ (raise _) => apply emits_raise
  | |- emits _ (lift _) => apply emits_lift
  | |- emits _ (try_except _ _) => apply emits_try_except; [|intros ?]
  | |- emits _ (try_finally _ _) => apply emits_try_finally
  | |- emits _ (catch _) => apply emits_catch
  | |- emits _ (invoke _ _) => apply emits_invoke; intros ?
  | |- emits _ (sleep _ _) => apply emits_sleep
  | |- emits _ (utcnow _) => apply emits_utcnow; intros ?
  | |- emits _ (match ?x with _ => _ end) => destruct x
  end.

Ltac emits_calls :=
  unfold login_url, generate_session, install, Chrome, get, current_url,
    find_elements, find_element, quit, clear, send_keys, click, TOTP_now,
    MongoClient, get_database, get_default_database, update_one, close.

Section StepEvents.
Context {W : Type} (env : environment) (ext : collaborators W).
Variable P : event -> Prop.

(** [P] holds of the page, element and pause events the steps make. *)
Hypothesis P_get : forall d url, P (EvGet d url).
Hypothesis P_poll : forall d loc, P (EvPollClickable d loc).
Hypothesis P_url : forall d, P (EvCurrentUrl d).
Hypothesis P_finds : forall d xp, P (EvFindElements d xp).
Hypothesis P_find : forall d xp, P (EvFindElement d xp).
Hypothesis P_clear : forall el, P (EvClear el).
Hypothesis P_click : forall el, P (EvClick el).
Hypothesis P_sleep_500 : P (EvSleep 500).
Hypothesis P_sleep_1000 : P (EvSleep 1000).
Hypothesis P_sleep_2000 : P (EvSleep 2000).

Lemma emits_until_loop (d : driver) (c : condition) (more : nat) :
  emits P (until_loop ext d c more).
Proof.
  induction more as [|more IH]; cbn [until_loop]; unfold call_condition;
    emits_calls; destruct c; repeat emits_step; auto.
Qed.

Lemma emits_until (d : driver) (method : pyval) : emits P (until ext d method).
Proof.
  unfold until. destruct method; try apply emits_raise. apply emits_until_loop.
Qed.

Lemma emits_as_element (v : pyval) : emits P (as_element (W := W) v).
Proof. unfold as_element. destruct v; repeat emits_step. Qed.

Lemma emits_submit_login (d : driver) : emits P (submit_login ext d).
Proof. unfold submit_login. emits_calls. repeat emits_step; auto. Qed.

Lemma emits_submit_totp_round (d : driver) : emits P (submit_totp_round ext d).
Proof. unfold submit_totp_round. emits_calls. repeat emits_step; auto. Qed.

Lemma emits_submit_totp (d : driver) (attempts : list nat) :
  emits P (submit_totp ext d attempts).
Proof.
  induction attempts as [|attempt rest IH]; cbn [submit_totp].
  - apply emits_ret.
  - apply emits_bind; [apply emits_catch, emits_submit_totp_round|].
    intros [[]|e]; repeat emits_step; auto.
Qed.

Lemma emits_wait_for_request_token (d : driver) :
  emits P (wait_for_request_token ext d).
Proof.
  unfold wait_for_request_token. emits_calls.
  apply emits_bind; [apply emits_until|]. intros _. repeat emits_step; auto.
Qed.

Section Typing.
Variable authkey : string.
Hypothesis P_types : forall el, P (EvSendKeys el authkey).

Lemma emits_enter_code (box : element) : emits P (enter_code ext box authkey).
Proof. unfold enter_code. emits_calls. repeat emits_step; auto. Qed.

Lemma emits_enter_totp (d : driver) (attempts : list nat) (box : element) :
  emits P (enter_totp ext d attempts box authkey).
Proof.
  revert box; induction attempts as [|attempt rest IH]; intros box; cbn [enter_totp].
  - apply emits_ret.
  - apply emits_bind; [apply emits_catch, emits_enter_code|].
    intros [[]|e]; emits_calls; repeat emits_step; auto.
Qed.

End Typing.

Lemma emits_fill_credentials (cfg : config) (d : driver) :
  (forall el text, P (EvSendKeys el text)) ->
  emits P (fill_credentials ext cfg d).
Proof.
  intros P_send. unfold fill_credentials. emits_calls.
  repeat (apply emits_bind;
          [first [apply emits_until | apply emits_as_element | idtac] | intros ?]);
    repeat emits_step; auto.
Qed.

Lemma emits_exchange (cfg : config) (kite : KiteConnect) (rt : string) :
  (forall rt secret r, P (EvGenerateSession rt secret r)) ->
  emits P (exchange ext cfg kite rt).
Proof. intros. unfold exchange. emits_calls. repeat emits_step; auto. Qed.

(** The steps once the code [authkey] is at hand. *)
Lemma emits_after_code (cfg : config) (kite : KiteConnect) (d : driver)
      (box : element) (authkey : string) :
  (forall el, P (EvSendKeys el authkey)) ->
  (forall rt secret r, P (EvGenerateSession rt secret r)) ->
  emits P (enter_totp ext d (seq 0 max_retries) box authkey ;;
           sleep ext 2000 ;;
           submit_totp ext d (seq 0 max_retries) ;;
           rt <- wait_for_request_token ext d ;;
           exchange ext cfg kite rt).
Proof.
  intros P_types P_gen.
  apply emits_bind; [now apply emits_enter_totp | intros _].
  apply emits_bind; [now apply emits_sleep | intros _].
  apply emits_bind; [apply emits_submit_totp | intros _].
  apply emits_bind; [apply emits_wait_for_request_token | intros rt].
  now apply emits_exchange.
Qed.

Lemma emits_login_steps (cfg : config) (kite : KiteConnect) (d : driver)
      (url : string) :
  (forall el text, P (EvSendKeys el text)) ->
  (forall secret r, P (EvTotpNow secret r)) ->
  (forall rt secret r, P (EvGenerateSession rt secret r)) ->
  emits P (login_steps ext cfg kite d url).
Proof.
  intros P_send P_totp P_gen. unfold login_steps.
  apply emits_bind; [unfold get; apply emits_invoke; auto | intros _].
  apply emits_bind; [now apply emits_fill_credentials | intros _].
  apply emits_bind; [apply emits_submit_login | intros _].
  apply emits_bind; [now apply emits_sleep | intros _].
  apply emits_bind; [apply emits_until | intros v].
  apply emits_bind; [apply emits_as_element | intros box].
  apply emits_bind; [unfold TOTP_now; apply emits_invoke; auto | intros authkey].
  now apply emits_after_code.
Qed.

End StepEvents.

(* ===================================================================== *)
(** ** The retry decorator *)
(* ===================================================================== *)

Section Retrying.
Context {W : Type} (ext : collaborators W).

Lemma join_cons (sep t : list event) (runs : list (list event)) :
  runs <> [] -> join sep (t :: runs) = t ++ sep ++ join sep runs.
Proof. destruct runs; [congruence | reflexivity]. Qed.

Lemma join_last (sep : list event) (runs : list (list event)) (t : list event) :
  exists pre, join sep (runs ++ [t]) = pre ++ t.
Proof.
  induction runs as [|t' runs [pre IH]].
  - now exists [].
  - exists (t' ++ sep ++ pre). cbn [app].
    rewrite join_cons by (destruct runs; discriminate).
    now rewrite IH, <- !app_assoc.
Qed.

(** One round of the decorated call. *)
Lemma retrying_call_round {A} (fn : M W A) (wait_ms further : nat) (w : W) :
  retrying_call ext further wait_ms fn w
  = let o := fn w in
    match res o with
    | Ok a => Out (Ok a) (final o) (trace o)
    | Raise e =>
        match further with
        | O => Out (Raise e) (final o) (trace o)
        | S further' =>
            let o' := retrying_call ext further' wait_ms fn
                                    (time_passes ext wait_ms (final o)) in
            Out (res o') (final o') (trace o ++ [EvSleep wait_ms] ++ trace o')
        end
    end.
Proof.
  destruct further; cbn [retrying_call]; unfold bind at 1, catch;
    cbn [res final trace]; destruct (res (fn w)); cbn; rewrite ?app_nil_r;
    reflexivity.
Qed.

(** The decorated call is a chain of runs of the function: at most
    [further + 1] of them, every one but the last raising, a pause of
    [wait_ms] between each two, and the outcome of the last as outcome. *)
Lemma retrying_call_cycles {A} (fn : M W A) (wait_ms further : nat) (w : W) :
  exists (earlier : list (outcome W A)) (last : outcome W A),
    List.length (earlier ++ [last]) <= S further /\
    Forall (fun o => exists w', o = fn w') (earlier ++ [last]) /\
    Forall (fun o => is_ok (res o) = false) earlier /\
    res (retrying_call ext further wait_ms fn w) = res last /\
    final (retrying_call ext further wait_ms fn w) = final last /\
    trace (retrying_call ext further wait_ms fn w)
    = join [EvSleep wait_ms] (map (@trace W A) (earlier ++ [last])).
Proof.
  revert w; induction further as [|further IH]; intros w;
    rewrite retrying_call_round; cbn zeta.
  - exists [], (fn w). cbn [app List.length map join].
    destruct (res (fn w)) eqn:E; cbn [res final trace];
      repeat split; auto; repeat constructor; eauto.
  - destruct (res (fn w)) as [a|e] eqn:E.
    + exists [], (fn w). cbn [app List.length map join res final trace].
      repeat split; auto; try lia. repeat constructor. eauto.
    + destruct (IH (time_passes ext wait_ms (final (fn w))))
        as (earlier & last & Hlen & Hall & Hraised & Hres & Hfin & Htr).
      exists (fn w :: earlier), last. cbn [res final trace].
      repeat split.
      * cbn [app List.length] in *. lia.
      * constructor; [eauto | exact Hall].
      * constructor; [now rewrite E | exact Hraised].
      * exact Hres.
      * exact Hfin.
      * rewrite Htr. cbn [app map].
        rewrite join_cons by (destruct earlier; discriminate). reflexivity.
Qed.

Lemma count_join (p : event -> bool) (sep : list event) (c : nat)
      (runs : list (list event)) :
  Forall (fun t => count p t = c) runs ->
  count p (join sep runs)
  = List.length runs * c + (List.length runs - 1) * count p sep.
Proof.
  induction 1 as [|t runs Ht Hruns IH]; [reflexivity|].
  destruct runs as [|t' runs].
  - cbn [join List.length]. rewrite Ht. lia.
  - rewrite join_cons by discriminate. rewrite !count_app, IH, Ht.
    cbn [List.length]. rewrite !Nat.sub_succ, !Nat.sub_0_r. cbn [Nat.mul]. lia.
Qed.

Lemma count_join_balanced (p q : event -> bool) (sep : list event)
      (runs : list (list event)) :
  Forall (fun t => count p t = count q t) runs ->
  count p sep = count q sep ->
  count p (join sep runs) = count q (join sep runs).
Proof.
  intros H Hsep. induction H as [|t runs Ht Hruns IH]; [reflexivity|].
  destruct runs as [|t' runs].
  - exact Ht.
  - rewrite !join_cons by discriminate. rewrite !count_app. lia.
Qed.

Lemma emits_retrying_call {A} (P : event -> Prop) (fn : M W A)
      (wait_ms further : nat) :
  emits P fn -> P (EvSleep wait_ms) ->
  emits P (retrying_call ext further wait_ms fn).
Proof.
  intros Hfn Hsleep. induction further as [|further IH]; cbn [retrying_call];
    (apply emits_bind; [apply emits_catch, Hfn|]);
    intros [a|e]; repeat emits_step; auto.
Qed.

End Retrying.

(* ===================================================================== *)
(** ** One login cycle *)
(* ===================================================================== *)

Ltac step_events := intros; try reflexivity; auto.

Section Cycle.
Context {W : Type} (env : environment) (ext : collaborators W).
Variable cfg : config.

Lemma emits_launch (P : event -> Prop) (options : Options) :
  P EvInstall -> (forall path opts r, P (EvChromeStart path opts r)) ->
  emits P (launch env ext options).
Proof. intros. unfold launch. emits_calls. repeat emits_step; auto. Qed.

Lemma emits_teardown (P : event -> Prop) (d : driver) :
  P (EvQuit d) -> emits P (teardown ext d).
Proof. intros. unfold teardown. emits_calls. repeat emits_step; auto. Qed.

(** The steps of a cycle make step calls only. *)
Lemma login_steps_events (kite : KiteConnect) (d : driver) (url : string) :
  emits (fun ev => is_step ev = true) (login_steps ext cfg kite d url).
Proof. apply emits_login_steps; step_events. Qed.

Lemma emits_login_once (P : event -> Prop) :
  (forall ev, is_step ev = true -> P ev) ->
  (forall key, P (EvLoginUrl key)) ->
  P EvInstall -> (forall path opts r, P (EvChromeStart path opts r)) ->
  (forall d, P (EvQuit d)) ->
  emits P (login_once env ext cfg).
Proof.
  intros Hstep Hurl Hinst Hstart Hquit. unfold login_once.
  apply emits_bind; [unfold login_url; apply emits_invoke; auto | intros url].
  apply emits_bind; [now apply emits_launch | intros d].
  apply emits_try_finally; [|now apply emits_teardown].
  apply emits_try_except; [|intros e; apply emits_raise].
  eapply emits_weaken; [exact Hstep | apply login_steps_events].
Qed.

Lemma emits_login (P : event -> Prop) :
  (forall ev, is_step ev = true -> P ev) ->
  (forall key, P (EvLoginUrl key)) ->
  P EvInstall -> (forall path opts r, P (EvChromeStart path opts r)) ->
  (forall d, P (EvQuit d)) -> P (EvSleep wait_fixed) ->
  emits P (login env ext cfg).
Proof.
  intros. unfold login, retry.
  apply emits_retrying_call; [now apply emits_login_once | assumption].
Qed.

End Cycle.

(* ===================================================================== *)
(** ** One code per cycle *)
(* ===================================================================== *)

Section OneCodeLists.

Lemma follows_code_not_totp (r : result string) (ev : event) :
  follows_code r ev -> is_totp ev = false.
Proof. destruct ev; cbn; auto; contradiction. Qed.

Lemma quit_follows_code (r : result string) (ev : event) :
  is_quit ev = true -> follows_code r ev.
Proof. destruct ev; cbn; auto; discriminate. Qed.

(** A trace holds at most one way to stand around its only marked event. *)
Lemma split_unique (p : event -> bool) (a b a' b' : list event) (x x' : event) :
  a ++ x :: b = a' ++ x' :: b' ->
  Forall (fun ev => p ev = false) a -> Forall (fun ev => p ev = false) b ->
  p x = true -> p x' = true ->
  a = a' /\ x = x' /\ b = b'.
Proof.
  revert a'; induction a as [|y a IH]; intros [|y' a'] Heq Ha Hb Hx Hx'; cbn in Heq;
    injection Heq as Hhd Htl; subst.
  - auto.
  - exfalso. apply Forall_app in Hb as [_ Hb]. inversion Hb; subst. congruence.
  - exfalso. inversion Ha; subst. congruence.
  - inversion Ha; subst. destruct (IH a' Htl) as (-> & -> & ->); auto.
Qed.

Lemma one_code_count (secret : string) (t : list event) :
  one_code secret t -> count is_totp t <= 1.
Proof.
  intros [H | (t1 & r & t2 & -> & H1 & H2)].
  - rewrite (count_never _ _ H). lia.
  - rewrite count_app, count_cons, (count_never _ _ H1). cbn [is_totp].
    rewrite (count_never is_totp t2); [lia|].
    eapply Forall_impl; [apply follows_code_not_totp | exact H2].
Qed.

Lemma one_code_split (secret : string) (t t1 t2 : list event) (secret' : string)
      (r : result string) :
  one_code secret t ->
  t = t1 ++ EvTotpNow secret' r :: t2 ->
  secret' = secret /\ Forall (follows_code r) t2.
Proof.
  intros [H | (a & r0 & b & -> & Ha & Hb)] Heq.
  - exfalso. subst t. apply Forall_app in H as [_ H]. inversion H; subst.
    discriminate.
  - destruct (split_unique is_totp _ _ _ _ _ _ Heq) as (_ & Hx & <-); auto.
    + eapply Forall_impl; [apply follows_code_not_totp | exact Hb].
    + injection Hx as -> ->. auto.
Qed.

Lemma one_code_then_quit (secret : string) (t t' : list event) :
  one_code secret t -> Forall (fun ev => is_quit ev = true) t' ->
  one_code secret (t ++ t').
Proof.
  intros [H | (t1 & r & t2 & -> & H1 & H2)] Hq.
  - left. apply Forall_app. split; [exact H|].
    eapply Forall_impl; [|exact Hq]. intros ev Hev. now destruct ev.
  - right. exists t1, r, (t2 ++ t'). rewrite <- app_assoc. repeat split; auto.
    apply Forall_app. split; [exact H2|].
    eapply Forall_impl; [apply quit_follows_code | exact Hq].
Qed.

End OneCodeLists.

Section OneCode.
Context {W : Type} (env : environment) (ext : collaborators W).
Variable cfg : config.

Lemma one_code_before {A B} (secret : string) (m : M W A) (k : A -> M W B) :
  never is_totp m ->
  (forall a w, one_code secret (trace (k a w))) ->
  forall w, one_code secret (trace (bind m k w)).
Proof.
  intros Hm Hk w. rewrite trace_bind. specialize (Hm w).
  destruct (res (m w)) as [a|e].
  - destruct (Hk a (final (m w))) as [H | (t1 & r & t2 & Heq & H1 & H2)].
    + left. apply Forall_app. auto.
    + right. exists (trace (m w) ++ t1), r, t2. rewrite Heq, <- app_assoc.
      repeat split; auto. apply Forall_app. auto.
  - left. now rewrite app_nil_r.
Qed.

Lemma one_code_generate {B} (secret : string) (k : string -> M W B) :
  (forall code, emits (follows_code (Ok code)) (k code)) ->
  forall w, one_code secret (trace (bind (TOTP_now ext secret) k w)).
Proof.
  intros Hk w. unfold TOTP_now, bind, invoke.
  destruct (totp_now ext secret w) as [[code|e] w']; cbn [res final trace];
    right.
  - exists [], (Ok code), (trace (k code w')). repeat split; auto. apply Hk.
  - exists [], (Raise e), []. repeat split; auto.
Qed.

Lemma trace_reraise {A} (m : M W A) (w : W) :
  trace (try_except m (fun e => raise e) w) = trace (m w).
Proof.
  unfold try_except. destruct (res (m w)); [reflexivity|]. cbn. apply app_nil_r.
Qed.

Lemma res_reraise {A} (m : M W A) (w : W) :
  res (try_except m (fun e => raise e) w) = res (m w).
Proof.
  unfold try_except. destruct (res (m w)) eqn:E; [exact E | reflexivity].
Qed.

Lemma final_reraise {A} (m : M W A) (w : W) :
  final (try_except m (fun e => raise e) w) = final (m w).
Proof. unfold try_except. now destruct (res (m w)). Qed.

Lemma one_code_login_steps (kite : KiteConnect) (d : driver) (url : string) (w : W) :
  one_code (authenticator cfg) (trace (login_steps ext cfg kite d url w)).
Proof.
  revert w. unfold login_steps.
  apply one_code_before; [unfold get; apply emits_invoke; step_events | intros _].
  apply one_code_before; [apply emits_fill_credentials; step_events | intros _].
  apply one_code_before; [apply emits_submit_login; step_events | intros _].
  apply one_code_before; [apply emits_sleep; step_events | intros _].
  apply one_code_before; [apply emits_until; step_events | intros v].
  apply one_code_before; [apply emits_as_element | intros box].
  apply one_code_generate. intros code.
  apply emits_after_code; step_events; exact I.
Qed.

Lemma one_code_login_once (w : W) :
  one_code (authenticator cfg) (trace (login_once env ext cfg w)).
Proof.
  revert w. unfold login_once.
  apply one_code_before; [unfold login_url; apply emits_invoke; step_events | intros url].
  apply one_code_before; [apply emits_launch; step_events | intros d].
  intros w. unfold try_finally. cbn [trace]. rewrite trace_reraise.
  apply one_code_then_quit; [apply one_code_login_steps|].
  apply (emits_teardown ext). reflexivity.
Qed.

End OneCode.

Lemma count_join_mono (p q : event -> bool) (sep : list event)
      (runs : list (list event)) :
  Forall (fun t => count p t <= count q t) runs ->
  count p sep <= count q sep ->
  count p (join sep runs) <= count q (join sep runs).
Proof.
  intros H Hsep. induction H as [|t runs Ht Hruns IH]; [reflexivity|].
  destruct runs as [|t' runs].
  - exact Ht.
  - rewrite !join_cons by discriminate. rewrite !count_app. lia.
Qed.

(** A step call is none of the calls made around the steps. *)
Lemma step_event_kinds (ev : event) :
  is_step ev = true ->
  is_cycle_start ev = false /\ is_session_start ev = false /\
  is_quit ev = false /\ is_retry_wait ev = false /\ is_persistence ev = false.
Proof.
  destruct ev; cbn; try discriminate; auto.
  rewrite !orb_true_iff, !Nat.eqb_eq. intros [[-> | ->] | ->]; auto.
Qed.

Section CycleShape.
Context {W : Type} (env : environment) (ext : collaborators W).
Variable cfg : config.

(** A launch starts at most one session: one when it returns, none when
    it raises; and it quits none. *)
Lemma launch_sessions (options : Options) (w : W) :
  count is_session_start (trace (launch env ext options w))
  = (if is_ok (res (launch env ext options w)) then 1 else 0).
Proof.
  unfold launch, bind, try_except, Chrome, install, invoke, ret, raise.
  destruct (nonempty (app_config_get env "chrome_driver_path")); cbn [res final trace].
  - destruct (chrome_start ext _ options w) as [[d|e] w1]; cbn [res final trace];
      [reflexivity|].
    destruct (manager_install ext w1) as [[path|e'] w2]; cbn [res final trace];
      [|reflexivity].
    destruct (chrome_start ext path options w2) as [[d|e'] w3]; reflexivity.
  - destruct (manager_install ext w) as [[path|e'] w2]; cbn [res final trace];
      [|reflexivity].
    destruct (chrome_start ext path options w2) as [[d|e'] w3]; reflexivity.
Qed.

(** One cycle, spelled out: the login URL, the launch, and, once a
    session [d] is there, the steps followed by [d.quit()] whatever the
    steps did; what the cycle returns or raises is what the steps
    returned or raised, whatever [quit] did. *)
Lemma login_once_run (w : W) :
  login_once env ext cfg w
  = match kite_login_url ext (cfg_api_key cfg) w with
    | (Raise e, w1) => Out (Raise e) w1 [EvLoginUrl (cfg_api_key cfg)]
    | (Ok url, w1) =>
        let l := launch env ext (build_options env) w1 in
        match res l with
        | Raise e => Out (Raise e) (final l) (EvLoginUrl (cfg_api_key cfg) :: trace l)
        | Ok d =>
            let body := login_steps ext cfg (new_KiteConnect (cfg_api_key cfg)) d url (final l) in
            Out (res body) (snd (driver_quit ext d (final body)))
                (EvLoginUrl (cfg_api_key cfg) :: trace l ++ trace body ++ [EvQuit d])
        end
    end.
Proof.
  unfold login_once, login_url.
  destruct (kite_login_url ext (cfg_api_key cfg) w) as [[url|e] w1] eqn:Eu.
  - rewrite (bind_ok _ _ _ _ _ _ (invoke_run _ _ _ _ _ Eu)).
    cbn zeta. rewrite bind_run.
    destruct (res (launch env ext (build_options env) w1)) as [d|e];
      cbn [res final trace app]; [|reflexivity].
    unfold try_finally. cbn [res final trace].
    rewrite trace_reraise, res_reraise, final_reraise.
    unfold teardown, try_except, quit, invoke.
    destruct (driver_quit ext d (final (login_steps ext cfg (new_KiteConnect (cfg_api_key cfg)) d url
                (final (launch env ext (build_options env) w1))))) as [[[]|e'] wq];
      cbn [res final trace snd app]; rewrite ?app_nil_r; reflexivity.
  - now rewrite (bind_raise _ _ _ _ _ _ (invoke_run _ _ _ _ _ Eu)).
Qed.

Lemma login_steps_never (p : event -> bool) (d : driver) (url : string) (w : W) :
  (forall ev, is_step ev = true -> p ev = false) ->
  count p (trace (login_steps ext cfg (new_KiteConnect (cfg_api_key cfg)) d url w)) = 0.
Proof.
  intros Hp. apply count_never.
  apply (emits_weaken _ _ _ Hp (login_steps_events ext cfg (new_KiteConnect (cfg_api_key cfg)) d url)).
Qed.

Lemma login_once_cycle_start (w : W) :
  count is_cycle_start (trace (login_once env ext cfg w)) = 1.
Proof.
  rewrite login_once_run.
  assert (Hl : forall w1, count is_cycle_start
                 (trace (launch env ext (build_options env) w1)) = 0).
  { intros w1. apply count_never. apply emits_launch; step_events. }
  destruct (kite_login_url ext (cfg_api_key cfg) w) as [[url|e] w1]; [|reflexivity].
  cbn zeta. destruct (res (launch env ext (build_options env) w1)) as [d|e];
    cbn [trace]; rewrite count_cons; cbn [is_cycle_start];
    rewrite ?count_app, ?Hl, ?login_steps_never; try reflexivity.
  intros ev Hev. apply (step_event_kinds ev Hev).
Qed.

Lemma login_once_no_retry_wait (w : W) :
  count is_retry_wait (trace (login_once env ext cfg w)) = 0.
Proof.
  apply count_never. apply emits_login_once; step_events.
  apply (step_event_kinds ev H).
Qed.

(** A cycle quits as many sessions as it started: one, or none. *)
Lemma login_once_sessions (w : W) :
  count is_session_start (trace (login_once env ext cfg w))
  = count is_quit (trace (login_once env ext cfg w)) /\
  count is_quit (trace (login_once env ext cfg w)) <= 1.
Proof.
  rewrite login_once_run.
  assert (Hq : forall w1, count is_quit
                 (trace (launch env ext (build_options env) w1)) = 0).
  { intros w1. apply count_never. apply emits_launch; step_events. }
  destruct (kite_login_url ext (cfg_api_key cfg) w) as [[url|e] w1];
    [|split; [reflexivity | cbn; lia]].
  cbn zeta. pose proof (launch_sessions (build_options env) w1) as Hs.
  destruct (res (launch env ext (build_options env) w1)) as [d|e];
    cbn [trace is_ok] in *; rewrite !count_cons; cbn [is_session_start is_quit];
    rewrite ?count_app, ?count_cons, ?Hs, ?Hq, ?count_nil;
    rewrite ?login_steps_never by (intros ev Hev; apply (step_event_kinds ev Hev));
    cbn [is_session_start is_quit]; split; lia.
Qed.

End CycleShape.

(* ===================================================================== *)
(** ** Where in a cycle the code is generated *)
(* ===================================================================== *)

Section CodeStep.
Context {W : Type} (env : environment) (ext : collaborators W).
Variable cfg : config.

Lemma generates_after_bind {A B C} (m : M W A) (k : A -> M W B) (k' : A -> M W C) :
  never is_totp m ->
  (forall a w, generates_after (k a) (k' a) w) ->
  forall w, generates_after (bind m k) (bind m k') w.
Proof.
  intros Hm Hk w. unfold generates_after. rewrite !bind_run.
  pose proof (count_never _ _ (Hm w)) as H0.
  destruct (res (m w)) as [a|e]; cbn [res final trace].
  - destruct (Hk a (final (m w))) as (Hc & Hc' & [rest Hrest] & Hok).
    rewrite !count_app, H0, Hc, Hc'. repeat split; auto.
    exists rest. now rewrite Hrest, app_assoc.
  - rewrite H0. repeat split; auto. exists []. now rewrite app_nil_r.
Qed.

Lemma generates_after_finally {A B} (m : M W A) (f : M W unit) (m' : M W B) (w : W) :
  never is_totp f ->
  generates_after m m' w ->
  generates_after (try_finally (try_except m (fun e => raise e)) f) m' w.
Proof.
  intros Hf (Hc & Hc' & [rest Hrest] & Hok). unfold generates_after, try_finally.
  cbn [res final trace]. rewrite trace_reraise, res_reraise, final_reraise.
  rewrite count_app, Hc, (count_never _ _ (Hf _)), Nat.add_0_r.
  repeat split; auto.
  - exists (rest ++ trace (f (final (m w)))). now rewrite Hrest, app_assoc.
  - destruct (res (f (final (m w)))); [exact Hok | discriminate].
Qed.

Lemma login_once_generates_after (w : W) :
  generates_after (login_once env ext cfg) (reach_otp_field env ext cfg) w.
Proof.
  revert w. unfold login_once, reach_otp_field. cbv zeta.
  apply generates_after_bind;
    [unfold login_url; apply emits_invoke; step_events | intros url].
  apply generates_after_bind; [apply emits_launch; step_events | intros d].
  intros w. apply generates_after_finally; [apply (emits_teardown ext); reflexivity|].
  revert w. unfold login_steps.
  apply generates_after_bind; [unfold get; apply emits_invoke; step_events | intros _].
  apply generates_after_bind; [apply emits_fill_credentials; step_events | intros _].
  apply generates_after_bind; [apply emits_submit_login; step_events | intros _].
  apply generates_after_bind; [apply emits_sleep; step_events | intros _].
  apply generates_after_bind; [apply emits_until; step_events | intros v].
  intros w. unfold generates_after. rewrite bind_run.
  destruct v as [b|el|c]; cbn [as_element ret raise res final trace is_ok count];
    try (repeat split; auto; exists []; reflexivity).
  rewrite bind_run. unfold TOTP_now.
  assert (Hafter : forall code w',
             count is_totp
               (trace ((enter_totp ext d (seq 0 max_retries) el code ;;
                        sleep ext 2000 ;;
                        submit_totp ext d (seq 0 max_retries) ;;
                        rt <- wait_for_request_token ext d ;;
                        exchange ext cfg (new_KiteConnect (cfg_api_key cfg)) rt) w')) = 0).
  { intros code w'. apply count_never.
    apply (emits_after_code ext (fun ev => is_totp ev = false)); step_events. }
  unfold invoke.
  destruct (totp_now ext (authenticator cfg) w) as [[code|e] w1];
    cbn [res final trace app].
  - rewrite count_cons, Hafter. cbn [is_totp]. repeat split; auto.
    eexists. reflexivity.
  - repeat split; auto. eexists. reflexivity.
Qed.

End CodeStep.

Section CycleClaims.
Context {W : Type} (env : environment) (ext : collaborators W).
Variable cfg : config.

Lemma login_cycles (w : W) :
  exists cycles : list (outcome W (KiteConnect * string)),
    1 <= List.length cycles <= 3 /\
    Forall (fun o => exists w', o = login_once env ext cfg w') cycles /\
    trace (login env ext cfg w) = join [EvSleep 5000] (map (@trace _ _) cycles) /\
    res (login env ext cfg w) = res (List.last cycles (login_once env ext cfg w)) /\
    final (login env ext cfg w) = final (List.last cycles (login_once env ext cfg w)) /\
    Forall (fun o => is_ok (res o) = false) (removelast cycles).
Proof.
  destruct (retrying_call_cycles ext (login_once env ext cfg) wait_fixed
              (stop_max_attempt_number - 1) w)
    as (earlier & last & Hlen & Hall & Hraised & Hres & Hfin & Htr).
  exists (earlier ++ [last]).
  rewrite last_last, removelast_last. repeat split; auto.
  rewrite length_app. cbn. lia.
Qed.

Lemma login_cycle_counts (w : W) :
  count is_cycle_start (trace (login env ext cfg w)) <= 3 /\
  count is_retry_wait (trace (login env ext cfg w)) + 1
  = count is_cycle_start (trace (login env ext cfg w)).
Proof.
  destruct (login_cycles w) as (cycles & Hlen & Hall & Htr & _).
  assert (Hstart : count is_cycle_start (trace (login env ext cfg w))
                   = List.length cycles).
  { rewrite Htr, (count_join _ _ 1).
    - rewrite length_map. cbn. lia.
    - apply Forall_map. eapply Forall_impl; [|exact Hall].
      intros o [w' ->]. apply login_once_cycle_start. }
  assert (Hwait : count is_retry_wait (trace (login env ext cfg w))
                  = List.length cycles - 1).
  { rewrite Htr, (count_join _ _ 0).
    - rewrite length_map. cbn. lia.
    - apply Forall_map. eapply Forall_impl; [|exact Hall].
      intros o [w' ->]. apply login_once_no_retry_wait. }
  lia.
Qed.

(** C6.  The decorated login runs one to three cycles, each but the last
    raising, with a 5000 ms pause between each two and nowhere else.
    Over the whole call as many sessions are quit as were started.  In a
    cycle that has launched a session [d], the steps are followed by
    [d.quit()] as the last call of the cycle, whether they returned or
    raised, and the cycle returns or raises what the steps did, whatever
    [quit] did. *)
Theorem login_retries_and_teardown (w : W) :
  (exists cycles : list (outcome W (KiteConnect * string)),
      1 <= List.length cycles <= 3 /\
      Forall (fun o => exists w', o = login_once env ext cfg w') cycles /\
      trace (login env ext cfg w) = join [EvSleep 5000] (map (@trace _ _) cycles) /\
      res (login env ext cfg w) = res (List.last cycles (login_once env ext cfg w)) /\
      Forall (fun o => is_ok (res o) = false) (removelast cycles))
  /\ count is_cycle_start (trace (login env ext cfg w)) <= 3
  /\ count is_retry_wait (trace (login env ext cfg w)) + 1
     = count is_cycle_start (trace (login env ext cfg w))
  /\ count is_session_start (trace (login env ext cfg w))
     = count is_quit (trace (login env ext cfg w))
  /\ (forall w' url w1 d w2 t,
        kite_login_url ext (cfg_api_key cfg) w' = (Ok url, w1) ->
        launch env ext (build_options env) w1 = Out (Ok d) w2 t ->
        let body := login_steps ext cfg (new_KiteConnect (cfg_api_key cfg)) d url w2 in
        let o := login_once env ext cfg w' in
        res o = res body /\
        final o = snd (driver_quit ext d (final body)) /\
        trace o = EvLoginUrl (cfg_api_key cfg) :: t ++ trace body ++ [EvQuit d]).
Proof.
  destruct (login_cycles w) as (cycles & Hlen & Hall & Htr & Hres & _ & Hraised).
  destruct (login_cycle_counts w) as [Hstart Hwait].
  split; [exists cycles; auto|].
  split; [exact Hstart|]. split; [exact Hwait|]. split.
  - rewrite Htr. apply count_join_balanced; [|reflexivity].
    apply Forall_map. eapply Forall_impl; [|exact Hall].
    intros o [w' ->]. apply login_once_sessions.
  - intros w' url w1 d w2 t Hurl Hlaunch body o. subst body o.
    rewrite login_once_run, Hurl. cbn zeta. rewrite Hlaunch.
    cbn [res final trace]. auto.
Qed.

(** A login that returns has generated a code in its last cycle. *)
Lemma login_generates (w : W) :
  is_ok (res (login env ext cfg w)) = true ->
  1 <= count is_totp (trace (login env ext cfg w)).
Proof.
  destruct (retrying_call_cycles ext (login_once env ext cfg) wait_fixed
              (stop_max_attempt_number - 1) w)
    as (earlier & last & _ & Hall & _ & Hres & _ & Htr).
  unfold login, retry. rewrite Hres, Htr, map_app. cbn [map].
  apply Forall_app in Hall as [_ Hlast]. inversion Hlast as [|? ? [w' ->] _]; subst.
  intros Hok.
  destruct (join_last [EvSleep wait_fixed] (map (@trace _ _) earlier)
              (trace (login_once env ext cfg w'))) as [pre ->].
  destruct (login_once_generates_after env ext cfg w') as (Hc & _ & _ & Hreach).
  rewrite count_app, Hc, (Hreach Hok). lia.
Qed.

(** C10.  A cycle generates a code exactly when it gets as far as the
    OTP field, and then exactly once: a cycle that ends before line 316
    generates none, a cycle that returns has generated one.  The code
    comes from the configured seed; everything typed after it in that
    cycle is that code; the entry loop generates none and types nothing
    but the code it was given; over the decorated login there are no
    more generations than cycles, and at least one when it returns. *)
Theorem one_code_per_cycle (w : W) :
  let c := login_once env ext cfg w in
  let p := reach_otp_field env ext cfg w in
  count is_totp (trace c) = (if is_ok (res p) then 1 else 0)
  /\ count is_totp (trace p) = 0
  /\ (exists rest, trace c = trace p ++ rest)
  /\ (is_ok (res c) = true -> count is_totp (trace c) = 1)
  /\ count is_totp (trace c) <= 1
  /\ (forall t1 secret r t2,
        trace c = t1 ++ EvTotpNow secret r :: t2 ->
        secret = authenticator cfg /\
        count is_totp t1 = 0 /\ count is_totp t2 = 0 /\
        forall el text, In (EvSendKeys el text) t2 -> r = Ok text)
  /\ (forall d attempts box authkey w',
        let t := trace (enter_totp ext d attempts box authkey w') in
        count is_totp t = 0 /\
        forall el text, In (EvSendKeys el text) t -> text = authkey)
  /\ count is_totp (trace (login env ext cfg w))
     <= count is_cycle_start (trace (login env ext cfg w))
  /\ count is_cycle_start (trace (login env ext cfg w)) <= 3
  /\ (is_ok (res (login env ext cfg w)) = true ->
      1 <= count is_totp (trace (login env ext cfg w))).
Proof.
  intros c p. subst c p.
  pose proof (one_code_login_once env ext cfg w) as Hone.
  destruct (login_once_generates_after env ext cfg w) as (Hc & Hp & Hrest & Hreach).
  split; [exact Hc|]. split; [exact Hp|]. split; [exact Hrest|].
  split; [intros Hok; now rewrite Hc, (Hreach Hok)|].
  split; [exact (one_code_count _ _ Hone)|]. split; [|split; [|split; [|split]]].
  - intros t1 secret r t2 Heq.
    destruct (one_code_split _ _ _ _ _ _ Hone Heq) as [-> Hafter].
    pose proof (one_code_count _ _ Hone) as Hc1.
    rewrite Heq, count_app, count_cons in Hc1. cbn [is_totp] in Hc1.
    repeat split; try lia.
    intros el text Hin.
    apply (proj1 (Forall_forall _ _) Hafter _ Hin).
  - intros d attempts box authkey w' t.
    assert (H : Forall (fun ev => is_totp ev = false /\
                                  forall el text, ev = EvSendKeys el text -> text = authkey)
                       t).
    { apply (emits_enter_totp ext); intros; (split; [reflexivity|]);
        intros el' text' [=]; auto; congruence. }
    split.
    + apply count_never. eapply Forall_impl; [|exact H]. now intros ev [].
    + intros el text Hin.
      apply (proj2 (proj1 (Forall_forall _ _) H _ Hin) el text eq_refl).
  - destruct (login_cycles w) as (cycles & _ & Hall & -> & _).
    apply count_join_mono; [|cbn; lia].
    apply Forall_map. eapply Forall_impl; [|exact Hall].
    intros o [w' ->]. rewrite login_once_cycle_start.
    apply (one_code_count _ _ (one_code_login_once env ext cfg w')).
  - apply login_cycle_counts.
  - apply login_generates.
Qed.

End CycleClaims.

(* ===================================================================== *)
(** ** Persistence *)
(* ===================================================================== *)

Lemma upserts_stamped_none (access_token : string) (t : list event) :
  count is_update_one t = 0 -> upserts_stamped access_token t.
Proof.
  intros H pre ev post -> Hev. rewrite count_app, count_cons, Hev in H. lia.
Qed.

Lemma upserts_stamped_one (access_token : string) (now : datetime)
      (a b : list event) (ev : event) :
  count is_update_one a = 0 -> count is_update_one b = 0 ->
  is_update_one ev = true -> writes_token access_token now ev ->
  upserts_stamped access_token ((a ++ [EvUtcNow now]) ++ ev :: b).
Proof.
  intros Ha Hb Hev Hw pre ev' post Heq Hev'.
  assert (Hnone : forall t, count is_update_one t = 0 ->
                            Forall (fun e => is_update_one e = false) t).
  { induction t as [|e t IH]; [constructor|]. rewrite count_cons.
    destruct (is_update_one e) eqn:E; [discriminate|]. intros H. constructor; auto. }
  destruct (split_unique is_update_one _ _ _ _ _ _ Heq) as (<- & <- & _); auto.
  - apply Hnone. rewrite count_app, Ha. reflexivity.
  - exists a, now. auto.
Qed.

Section Persistence.
Context {W : Type} (env : environment) (ext : collaborators W).

Lemma datetime_add_ok (t delta t' : Z) :
  datetime_add t delta = Ok t' -> t' = (t + delta)%Z.
Proof.
  unfold datetime_add. destruct (_ && _); [now intros [= <-] | discriminate].
Qed.

(** The calls of one [save_token_to_mongo], case by case: the store is
    upserted when the connection and the default database are obtained
    and the expiry is a representable time, and [close] follows the
    connection in every case. *)
Lemma save_trace (access_token : string) (w : W) :
  trace (save_token_to_mongo env ext access_token w)
  = match mongo_connect ext (MONGO_URI env) w with
    | (Raise e, _) => [EvMongoClient (MONGO_URI env) (Raise e)]
    | (Ok c, w1) =>
        EvMongoClient (MONGO_URI env) (Ok c)
        :: match mongo_get_default_database ext c w1 with
           | (Raise _, _) => [EvGetDefaultDatabase c]
           | (Ok db, w2) =>
               let now := fst (clock_utcnow ext w2) in
               EvGetDefaultDatabase c :: EvUtcNow now
               :: (if ((0 <=? now + 86400000000) &&
                       (now + 86400000000 <=? DATETIME_MAX))%Z
                   then [EvUpdateOne db "zerodhatokens"
                           [("updatedBy", BStr "aiman.singh30@gmail.com")]
                           [("$set", [("accessToken", BStr access_token);
                                      ("updatedAt", BDate now);
                                      ("expiresAt", BDate (now + 86400000000)%Z);
                                      ("isActive", BBool true);
                                      ("updatedBy", BStr "aiman.singh30@gmail.com")]);
                            ("$setOnInsert", [("createdAt", BDate now)])]
                           true]
                   else [])
           end ++ [EvClose c]
    end.
Proof.
  unfold save_token_to_mongo, MongoClient, get_database, get_default_database,
    utcnow, update_one, close, try_finally, try_except, bind, lift, invoke, ret, raise.
  change (nonempty MONGO_DB_NAME) with false. cbv iota.
  destruct (mongo_connect ext (MONGO_URI env) w) as [[c|e] w1];
    cbn [res final trace]; [|reflexivity].
  destruct (mongo_get_default_database ext c w1) as [[db|e] w2];
    cbn [res final trace].
  - destruct (clock_utcnow ext w2) as [now w3]; cbn [res final trace fst].
    unfold datetime_add. change (timedelta_hours 24) with 86400000000%Z.
    destruct ((0 <=? now + 86400000000) && (now + 86400000000 <=? DATETIME_MAX))%Z;
      cbn [res final trace].
    + destruct (mongo_update_one ext db MONGO_COLLECTION_NAME token_filter
                  (token_update access_token now (now + 86400000000)%Z) true w3)
        as [[[]|e] w4]; cbn [res final trace];
        destruct (mongo_close ext c w4) as [[[]|e'] w5]; reflexivity.
    + destruct (mongo_close ext c w3) as [[[]|e'] w5]; reflexivity.
  - destruct (mongo_close ext c w2) as [[[]|e'] w5]; reflexivity.
Qed.

(** One call of [save_token_to_mongo] connects once and upserts at most
    once; when it returns, it has upserted. *)
Lemma save_counts (access_token : string) (w : W) :
  let s := save_token_to_mongo env ext access_token w in
  count is_mongo_client (trace s) = 1 /\
  count is_update_one (trace s) <= 1 /\
  (is_ok (res s) = true -> count is_update_one (trace s) = 1).
Proof.
  unfold save_token_to_mongo, MongoClient, get_database, get_default_database,
    utcnow, update_one, close, try_finally, try_except, bind, lift, invoke, ret, raise.
  change (nonempty MONGO_DB_NAME) with false. cbv iota.
  destruct (mongo_connect ext (MONGO_URI env) w) as [[c|e] w1];
    cbn [res final trace]; [|cbn; repeat split; auto; discriminate].
  destruct (mongo_get_default_database ext c w1) as [[db|e] w2];
    cbn [res final trace].
  - destruct (clock_utcnow ext w2) as [now w3]; cbn [res final trace].
    destruct (datetime_add now (timedelta_hours 24)) as [expires_at|e];
      cbn [res final trace].
    + destruct (mongo_update_one ext db MONGO_COLLECTION_NAME token_filter
                  (token_update access_token now expires_at) true w3)
        as [[[]|e] w4]; cbn [res final trace];
        destruct (mongo_close ext c w4) as [[[]|e'] w5]; cbn; repeat split; auto.
    + destruct (mongo_close ext c w3) as [[[]|e'] w5]; cbn;
        repeat split; auto; discriminate.
  - destruct (mongo_close ext c w2) as [[[]|e'] w5]; cbn;
      repeat split; auto; discriminate.
Qed.

End Persistence.

Section Exchange.
Context {W : Type} (env : environment) (ext : collaborators W).
Variable cfg : config.

Lemma ends_bind {A} (secret : string) (m : M W A)
      (k : A -> M W (KiteConnect * string)) :
  (forall a w kt, res (k a w) = Ok kt ->
     ends_with_exchange secret (snd kt) (trace (k a w))) ->
  forall w kt, res (bind m k w) = Ok kt ->
    ends_with_exchange secret (snd kt) (trace (bind m k w)).
Proof.
  intros Hk w kt. rewrite bind_run.
  destruct (res (m w)) as [a|e]; cbn [res trace]; [|discriminate].
  intros H. destruct (Hk _ _ _ H) as (t0 & rt & data & Heq & Hget).
  exists (trace (m w) ++ t0), rt, data. rewrite Heq, app_assoc. auto.
Qed.

Lemma exchange_ends (kite : KiteConnect) (rt : string) (w : W)
      (kt : KiteConnect * string) :
  res (exchange ext cfg kite rt w) = Ok kt ->
  ends_with_exchange (cfg_api_secret cfg) (snd kt) (trace (exchange ext cfg kite rt w)).
Proof.
  unfold exchange, generate_session, bind, lift, invoke, ret.
  destruct (kite_generate_session ext (api_key kite) rt (cfg_api_secret cfg) w)
    as [[data|e] w1]; cbn [res final trace]; [|discriminate].
  destruct (dict_getitem data "access_token") as [tok|e] eqn:E;
    cbn [res final trace]; [|discriminate].
  intros [= <-]. exists [], rt, data. auto.
Qed.

(** Steps that return have ended with a successful exchange, and return
    the [access_token] entry of its answer. *)
Lemma login_steps_ends (kite : KiteConnect) (d : driver) (url : string) (w : W)
      (kt : KiteConnect * string) :
  res (login_steps ext cfg kite d url w) = Ok kt ->
  ends_with_exchange (cfg_api_secret cfg) (snd kt)
                     (trace (login_steps ext cfg kite d url w)).
Proof.
  revert w kt. unfold login_steps.
  do 11 (apply ends_bind; intros ?).
  intros w kt. apply exchange_ends.
Qed.

Lemma login_once_ends (w : W) (kt : KiteConnect * string) :
  res (login_once env ext cfg w) = Ok kt ->
  exists t0 rt data d,
    trace (login_once env ext cfg w)
    = t0 ++ [EvGenerateSession rt (cfg_api_secret cfg) (Ok data); EvQuit d] /\
    dict_getitem data "access_token" = Ok (snd kt).
Proof.
  rewrite login_once_run.
  destruct (kite_login_url ext (cfg_api_key cfg) w) as [[url|e] w1];
    [|discriminate].
  cbn zeta. destruct (res (launch env ext (build_options env) w1)) as [d|e];
    cbn [res trace]; [|discriminate].
  intros H. destruct (login_steps_ends _ _ _ _ _ H) as (t0 & rt & data & -> & Hget).
  exists (EvLoginUrl (cfg_api_key cfg)
          :: trace (launch env ext (build_options env) w1) ++ t0), rt, data, d.
  split; [|exact Hget]. cbn [app]. now rewrite <- !app_assoc.
Qed.

Lemma login_ends (w : W) (kt : KiteConnect * string) :
  res (login env ext cfg w) = Ok kt ->
  exists t0 rt data d,
    trace (login env ext cfg w)
    = t0 ++ [EvGenerateSession rt (cfg_api_secret cfg) (Ok data); EvQuit d] /\
    dict_getitem data "access_token" = Ok (snd kt).
Proof.
  destruct (retrying_call_cycles ext (login_once env ext cfg) wait_fixed
              (stop_max_attempt_number - 1) w)
    as (earlier & last & _ & Hall & _ & Hres & _ & Htr).
  unfold login, retry. rewrite Hres, Htr, map_app. cbn [map].
  apply Forall_app in Hall as [_ Hlast]. inversion Hlast as [|? ? [w' ->] _]; subst.
  intros H. destruct (login_once_ends _ _ H) as (t0 & rt & data & d & -> & Hget).
  destruct (join_last [EvSleep wait_fixed] (map (@trace _ _) earlier)
              (t0 ++ [EvGenerateSession rt (cfg_api_secret cfg) (Ok data); EvQuit d]))
    as [pre ->].
  exists (pre ++ t0), rt, data, d. now rewrite <- app_assoc.
Qed.

End Exchange.

Section Main.
Context {W : Type} (env : environment) (ext : collaborators W).

Lemma main_run (w : W) :
  main env ext w
  = let o := login env ext (load_config env) w in
    match res o with
    | Ok p =>
        let s := save_token_to_mongo env ext (snd p) (final o) in
        Out (Ok (if is_ok (res s) then 0 else 1)) (final s) (trace o ++ trace s)
    | Raise e => Out (Ok 1) (final o) (trace o)
    end.
Proof.
  unfold main. rewrite bind_run. unfold catch. cbn [res final trace].
  rewrite bind_run. cbn zeta.
  destruct (res (login env ext (load_config env) w)) as [p|e]; cbn [res final trace].
  - destruct (res (save_token_to_mongo env ext (snd p) _)); cbn; now rewrite app_nil_r.
  - cbn. now rewrite app_nil_r.
Qed.

(** The login itself never touches the document store. *)
Lemma login_no_persistence (cfg : config) :
  never is_persistence (login env ext cfg).
Proof.
  apply emits_login; step_events. apply (step_event_kinds ev H).
Qed.

(** Where one [save_token_to_mongo] upserts, and what: exactly when the
    connection and the default database are obtained and the expiry is
    representable, and then the five calls of the save are the
    connection, the database, the clock, the upsert of the token
    document stamped with that reading of the clock, and [close]. *)
Lemma save_upserts (access_token : string) (w : W) :
  let s := save_token_to_mongo env ext access_token w in
  (count is_update_one (trace s) = 1 <->
   exists c w1 db w2,
     mongo_connect ext (MONGO_URI env) w = (Ok c, w1) /\
     mongo_get_default_database ext c w1 = (Ok db, w2) /\
     (0 <= fst (clock_utcnow ext w2) + 86400000000 <= DATETIME_MAX)%Z) /\
  (forall c w1 db w2,
     mongo_connect ext (MONGO_URI env) w = (Ok c, w1) ->
     mongo_get_default_database ext c w1 = (Ok db, w2) ->
     let now := fst (clock_utcnow ext w2) in
     (0 <= now + 86400000000 <= DATETIME_MAX)%Z ->
     trace s
     = [EvMongoClient (MONGO_URI env) (Ok c); EvGetDefaultDatabase c; EvUtcNow now;
        EvUpdateOne db "zerodhatokens"
          [("updatedBy", BStr "aiman.singh30@gmail.com")]
          [("$set", [("accessToken", BStr access_token);
                     ("updatedAt", BDate now);
                     ("expiresAt", BDate (now + 86400000000)%Z);
                     ("isActive", BBool true);
                     ("updatedBy", BStr "aiman.singh30@gmail.com")]);
           ("$setOnInsert", [("createdAt", BDate now)])]
          true;
        EvClose c]) /\
  upserts_stamped access_token (trace s).
Proof.
  cbv zeta. rewrite save_trace.
  destruct (mongo_connect ext (MONGO_URI env) w) as [[c|e] w1].
  2:{ split; [|split].
      - split; [discriminate|]. intros (c & w1' & db & w2 & [=] & _).
      - intros c w1' db w2 [=].
      - now apply upserts_stamped_none. }
  destruct (mongo_get_default_database ext c w1) as [[db|e] w2] eqn:Eg.
  2:{ split; [|split].
      - split; [discriminate|].
        intros (c' & w1' & db & w2' & [= <- <-] & Hg & _). congruence.
      - intros c' w1' db w2' [= <- <-] Hg. congruence.
      - now apply upserts_stamped_none. }
  cbv zeta. set (now := fst (clock_utcnow ext w2)).
  destruct ((0 <=? now + 86400000000) && (now + 86400000000 <=? DATETIME_MAX))%Z eqn:E.
  - apply andb_true_iff in E as [E1 E2].
    apply Z.leb_le in E1. apply Z.leb_le in E2.
    split; [|split].
    + split; [|reflexivity]. intros _. exists c, w1, db, w2. auto.
    + intros c' w1' db' w2' [= <- <-] Hg _. rewrite Eg in Hg.
      injection Hg as <- <-. reflexivity.
    + apply (upserts_stamped_one access_token now
               [EvMongoClient (MONGO_URI env) (Ok c); EvGetDefaultDatabase c]
               [EvClose c]); try reflexivity.
      cbn. auto.
  - assert (Hout : forall w2', w2' = w2 ->
                ~ (0 <= fst (clock_utcnow ext w2') + 86400000000 <= DATETIME_MAX)%Z).
    { intros w2' -> [H1 H2]. apply Z.leb_le in H1. apply Z.leb_le in H2.
      fold now in H1, H2. rewrite H1, H2 in E. discriminate. }
    split; [|split].
    + split; [discriminate|].
      intros (c' & w1' & db' & w2' & [= <- <-] & Hg & H). rewrite Eg in Hg.
      injection Hg as <- <-. now destruct (Hout w2 eq_refl).
    + intros c' w1' db' w2' [= <- <-] Hg H. rewrite Eg in Hg.
      injection Hg as <- <-. now destruct (Hout w2 eq_refl).
    + now apply upserts_stamped_none.
Qed.

Lemma upserts_stamped_after (access_token : string) (t0 t : list event) :
  count is_update_one t0 = 0 ->
  upserts_stamped access_token t -> upserts_stamped access_token (t0 ++ t).
Proof.
  intros H0 Ht pre ev post Heq Hev.
  revert pre Heq. induction t0 as [|e t0 IH]; intros pre Heq.
  - exact (Ht pre ev post Heq Hev).
  - rewrite count_cons in H0. destruct (is_update_one e) eqn:E; [discriminate|].
    destruct pre as [|e' pre]; cbn in Heq; injection Heq as <- Heq.
    + congruence.
    + destruct (IH H0 pre Heq) as (pre' & now & -> & Hw).
      exists (e :: pre'), now. auto.
Qed.

(** C8.  When the login returns a token, [main] goes on with exactly one
    call of [save_token_to_mongo] on that token, which is the
    [access_token] entry of what the last exchange returned.  The store
    is connected to once and upserted at most once: exactly once when
    the connection and the default database are obtained and the expiry
    is a representable time (so whenever the save returns), and not at
    all otherwise.  An upsert comes right after the reading of the clock
    and writes, into [zerodhatokens] under the fixed [updatedBy] filter
    and with [upsert=True], that token with the reading as [updatedAt]
    and the reading plus 24 hours as [expiresAt].  When the login
    raises, [main] makes no call to the store and exits with status 1. *)
Theorem main_persists_token (w : W) :
  let cfg := load_config env in
  let o := login env ext cfg w in
  match res o with
  | Ok (kite, tok) =>
      let s := save_token_to_mongo env ext tok (final o) in
      trace (main env ext w) = trace o ++ trace s /\
      (exists t0 rt data d,
          trace o = t0 ++ [EvGenerateSession rt (cfg_api_secret cfg) (Ok data); EvQuit d]
          /\ dict_getitem data "access_token" = Ok tok) /\
      count is_persistence (trace o) = 0 /\
      count is_mongo_client (trace (main env ext w)) = 1 /\
      count is_update_one (trace (main env ext w)) <= 1 /\
      (count is_update_one (trace (main env ext w)) = 1 <->
       exists c w1 db w2,
         mongo_connect ext (MONGO_URI env) (final o) = (Ok c, w1) /\
         mongo_get_default_database ext c w1 = (Ok db, w2) /\
         (0 <= fst (clock_utcnow ext w2) + 86400000000 <= DATETIME_MAX)%Z) /\
      (forall c w1 db w2,
         mongo_connect ext (MONGO_URI env) (final o) = (Ok c, w1) ->
         mongo_get_default_database ext c w1 = (Ok db, w2) ->
         let now := fst (clock_utcnow ext w2) in
         (0 <= now + 86400000000 <= DATETIME_MAX)%Z ->
         trace s
         = [EvMongoClient (MONGO_URI env) (Ok c); EvGetDefaultDatabase c; EvUtcNow now;
            EvUpdateOne db "zerodhatokens"
              [("updatedBy", BStr "aiman.singh30@gmail.com")]
              [("$set", [("accessToken", BStr tok);
                         ("updatedAt", BDate now);
                         ("expiresAt", BDate (now + 86400000000)%Z);
                         ("isActive", BBool true);
                         ("updatedBy", BStr "aiman.singh30@gmail.com")]);
               ("$setOnInsert", [("createdAt", BDate now)])]
              true;
            EvClose c]) /\
      (is_ok (res s) = true ->
       count is_update_one (trace (main env ext w)) = 1) /\
      upserts_stamped tok (trace (main env ext w))
  | Raise e =>
      res (main env ext w) = Ok 1 /\
      count is_persistence (trace (main env ext w)) = 0
  end.
Proof.
  intros cfg o. rewrite main_run. fold cfg. fold o. cbn zeta.
  pose proof (count_never _ _ (login_no_persistence cfg w)) as Hnone.
  fold o in Hnone.
  assert (Hsub : forall p, (forall ev, is_persistence ev = false -> p ev = false) ->
                           count p (trace o) = 0).
  { intros p Hp. apply count_never.
    eapply Forall_impl; [exact Hp | apply (login_no_persistence cfg w)]. }
  pose proof (login_ends env ext cfg w) as Hends. fold o in Hends.
  destruct (res o) as [[kite tok]|e]; cbn [res final trace snd]; [|auto].
  destruct (save_counts env ext tok (final o)) as (Hc & Hu & Hdone).
  destruct (save_upserts tok (final o)) as (Hiff & Hexact & Hstamp).
  assert (Hup : count is_update_one (trace o) = 0)
    by (apply Hsub; intros ev; destruct ev; cbn; congruence).
  split; [reflexivity|]. split; [exact (Hends _ eq_refl)|]. split; [exact Hnone|].
  rewrite !count_app, Hc, Hup.
  rewrite !Hsub by (intros ev; destruct ev; cbn; congruence).
  split; [reflexivity|]. split; [exact Hu|]. split; [exact Hiff|].
  split; [exact Hexact|]. split.
  - intros Hok. now rewrite (Hdone Hok).
  - now apply upserts_stamped_after.
Qed.

End Main.

(** The run that works: one upsert, of the token of the exchange,
    stamped with the reading of the clock. *)
Lemma main_persists_token_witness :
  count is_update_one (trace (main Sim.env Sim.ext Sim.happy)) = 1 /\
  trace (save_token_to_mongo Sim.env Sim.ext "token-for-abc123" Sim.happy)
  = [EvMongoClient "mongodb://localhost/trading" (Ok 1); EvGetDefaultDatabase 1;
     EvUtcNow 63900000000000000%Z;
     EvUpdateOne 1 "zerodhatokens"
       [("updatedBy", BStr "aiman.singh30@gmail.com")]
       [("$set", [("accessToken", BStr "token-for-abc123");
                  ("updatedAt", BDate 63900000000000000%Z);
                  ("expiresAt", BDate 63900086400000000%Z);
                  ("isActive", BBool true);
                  ("updatedBy", BStr "aiman.singh30@gmail.com")]);
        ("$setOnInsert", [("createdAt", BDate 63900000000000000%Z)])]
       true;
     EvClose 1].
Proof.
  pose proof (main_persists_token Sim.env Sim.ext Sim.happy) as H.
  cbv zeta in H.
  change (res (login Sim.env Sim.ext (load_config Sim.env) Sim.happy))
    with (@Ok (KiteConnect * string)
              (set_access_token (new_KiteConnect "key") "token-for-abc123",
               "token-for-abc123")) in H.
  cbv iota beta in H.
  destruct H as (_ & _ & _ & _ & _ & _ & Hexact & Hdone & _).
  split; [exact (Hdone eq_refl)|].
  exact (Hexact 1 Sim.happy 1 Sim.happy eq_refl eq_refl
           ltac:(unfold DATETIME_MAX; cbn; lia)).
Defined.

(** C8 as stated fails when the store cannot be reached: the login has
    returned a token and no upsert is made. *)
Lemma main_login_without_upsert :
  ~ (forall w : Sim.world,
        is_ok (res (login Sim.env Sim.ext (load_config Sim.env) w)) = true ->
        count is_update_one (trace (main Sim.env Sim.ext w)) = 1).
Proof.
  intros H. specialize (H (Sim.with_mongo_ok false Sim.happy) eq_refl).
  vm_compute in H. discriminate H.
Qed.

(** A cycle whose [quit] raises still returns the token of its steps. *)
Lemma login_retries_and_teardown_witness :
  fst (driver_quit Sim.ext 1 (Sim.with_quit_ok false Sim.happy)) = Raise Sim.QUIT_FAILED
  /\ res (login_once Sim.env Sim.ext (load_config Sim.env)
            (Sim.with_quit_ok false Sim.happy))
     = Ok (set_access_token (new_KiteConnect "key") "token-for-abc123",
           "token-for-abc123")
  /\ List.last (trace (login_once Sim.env Sim.ext (load_config Sim.env)
                         (Sim.with_quit_ok false Sim.happy))) EvInstall
     = EvQuit 1.
Proof.
  split; [reflexivity|].
  destruct (login_retries_and_teardown Sim.env Sim.ext (load_config Sim.env) Sim.happy)
    as (_ & _ & _ & _ & Hcycle).
  destruct (Hcycle (Sim.with_quit_ok false Sim.happy)
              "https://kite.zerodha.com/connect/login?v=3&api_key=key"
              (Sim.with_quit_ok false Sim.happy) 1
              (Sim.with_quit_ok false Sim.happy)
              [EvInstall; EvChromeStart "/tmp/chromedriver" (build_options Sim.env) (Ok 1)]
              eq_refl eq_refl) as (Hres & _ & Htr).
  rewrite Hres, Htr. split; reflexivity.
Defined.

(** The field goes stale twice: the cycle generates one code and types
    it three times. *)
Lemma one_code_per_cycle_witness :
  let t := trace (login_once Sim.env Sim.ext (load_config Sim.env)
                    (Sim.with_stale 2 Sim.happy)) in
  count is_totp t = 1 /\
  nth_error t 14 = Some (EvTotpNow "JBSWY3DPEHPK3PXP" (Ok "123456")) /\
  count is_entry (skipn 15 t) = 3 /\
  forall el text, In (EvSendKeys el text) (skipn 15 t) -> Ok "123456" = Ok text.
Proof.
  intros t.
  destruct (one_code_per_cycle Sim.env Sim.ext (load_config Sim.env)
              (Sim.with_stale 2 Sim.happy)) as (_ & _ & _ & Hret & _ & Hsplit & _).
  split; [exact (Hret eq_refl)|]. split; [reflexivity|]. split; [reflexivity|].
  exact (proj2 (proj2 (proj2
           (Hsplit (firstn 14 t) "JBSWY3DPEHPK3PXP" (Ok "123456") (skipn 15 t) eq_refl)))).
Defined.

(** C10 as stated fails for a cycle that ends before the OTP screen:
    on a login page without a submit button no code is generated. *)
Lemma no_code_before_otp_field :
  ~ (forall w : Sim.world,
        count is_totp (trace (login_once Sim.env Sim.ext (load_config Sim.env) w)) = 1).
Proof.
  intros H. specialize (H (Sim.with_buttons [] Sim.happy)).
  vm_compute in H. discriminate H.
Qed.

(* ===================================================================== *)
(** * Further properties of the code *)
(* ===================================================================== *)

(* ===================================================================== *)
(** ** Session launch *)
(* ===================================================================== *)

Section Launch.
Context {W : Type} (env : environment) (ext : collaborators W).

(** The webdriver-manager branch (lines 256-265). *)
Lemma launch_via_manager (options : Options) (w : W) :
  try_except (driver_path <- install ext ;; Chrome ext driver_path options)
             (fun _ => raise LAUNCH_FAILURE) w
  = match manager_install ext w with
    | (Raise _, w1) => Out (Raise LAUNCH_FAILURE) w1 [EvInstall]
    | (Ok driver_path, w1) =>
        let (r, w2) := chrome_start ext driver_path options w1 in
        Out (match r with Ok d => Ok d | Raise _ => Raise LAUNCH_FAILURE end) w2
            [EvInstall; EvChromeStart driver_path options r]
    end.
Proof.
  unfold try_except, bind, install, Chrome, invoke, raise.
  destruct (manager_install ext w) as [[driver_path|e] w1]; cbn [res final trace];
    [|reflexivity].
  destruct (chrome_start ext driver_path options w1) as [[d|e] w2]; reflexivity.
Qed.

(** The configured-path branch (lines 246-253). *)
Lemma launch_via_path (path : string) (options : Options) (w : W) :
  try_except (d <- Chrome ext path options ;; ret (Some d)) (fun _ => ret None) w
  = let (r, w1) := chrome_start ext path options w in
    Out (Ok (match r with Ok d => Some d | Raise _ => None end)) w1
        [EvChromeStart path options r].
Proof.
  unfold try_except, bind, Chrome, invoke, ret.
  destruct (chrome_start ext path options w) as [[d|e] w1]; reflexivity.
Qed.

(** The launch, spelled out. *)
Lemma launch_run (options : Options) (w : W) :
  launch env ext options w
  = let path := app_config_get env "chrome_driver_path" in
    let manager w0 :=
      try_except (driver_path <- install ext ;; Chrome ext driver_path options)
                 (fun _ => raise LAUNCH_FAILURE) w0 in
    if nonempty path then
      match chrome_start ext path options w with
      | (Ok d, w1) => Out (Ok d) w1 [EvChromeStart path options (Ok d)]
      | (Raise e, w1) =>
          Out (res (manager w1)) (final (manager w1))
              (EvChromeStart path options (Raise e) :: trace (manager w1))
      end
    else manager w.
Proof.
  unfold launch. cbn zeta. rewrite bind_run.
  destruct (nonempty (app_config_get env "chrome_driver_path")).
  - rewrite launch_via_path.
    destruct (chrome_start ext (app_config_get env "chrome_driver_path") options w)
      as [[d|e] w1]; reflexivity.
  - cbn [ret res final trace app].
    now destruct (try_except _ _ w).
Qed.

(** X1.  A launch either returns the session that its last call to
    [webdriver.Chrome] started, or raises the RuntimeError "Unable to
    start Chrome via webdriver-manager" having started no session and
    having asked webdriver-manager once: what the configured driver path
    or webdriver-manager raised never leaves the launch. *)
Theorem launch_outcome (options : Options) (w : W) :
  let o := launch env ext options w in
  match res o with
  | Ok d =>
      exists pre path, trace o = pre ++ [EvChromeStart path options (Ok d)] /\
                       count is_session_start pre = 0
  | Raise e =>
      e = RuntimeError "Unable to start Chrome via webdriver-manager" /\
      count is_session_start (trace o) = 0 /\
      count is_install (trace o) = 1
  end.
Proof.
  cbn zeta. rewrite launch_run. cbn zeta.
  change (RuntimeError "Unable to start Chrome via webdriver-manager")
    with LAUNCH_FAILURE.
  assert (Hm : forall pre w0,
    count is_session_start pre = 0 -> count is_install pre = 0 ->
    let m := try_except (driver_path <- install ext ;; Chrome ext driver_path options)
                        (fun _ => raise LAUNCH_FAILURE) w0 in
    match res m with
    | Ok d => exists pre' path, pre ++ trace m = pre' ++ [EvChromeStart path options (Ok d)]
                                /\ count is_session_start pre' = 0
    | Raise e => e = LAUNCH_FAILURE /\ count is_session_start (pre ++ trace m) = 0 /\
                 count is_install (pre ++ trace m) = 1
    end).
  { intros pre w0 Hs Hi. cbn zeta. rewrite launch_via_manager.
    destruct (manager_install ext w0) as [[driver_path|e'] w2].
    - destruct (chrome_start ext driver_path options w2) as [[d|e'] w3];
        cbn [res final trace].
      + exists (pre ++ [EvInstall]), driver_path.
        rewrite <- app_assoc, count_app, Hs. auto.
      + rewrite !count_app, Hs, Hi. auto.
    - cbn [res final trace]. rewrite !count_app, Hs, Hi. auto. }
  destruct (nonempty (app_config_get env "chrome_driver_path")).
  - destruct (chrome_start ext (app_config_get env "chrome_driver_path") options w)
      as [[d|e] w1]; cbn [res final trace].
    + exists [], (app_config_get env "chrome_driver_path"). auto.
    + apply (Hm [EvChromeStart _ options (Raise e)] w1); reflexivity.
  - apply (Hm [] w); reflexivity.
Qed.

(** X2.  The order of the launch.  With a non-empty configured driver
    path that path is tried first, and when it starts a session
    webdriver-manager is not consulted; when it raises, the launch goes
    on with webdriver-manager instead of failing.  With an empty path no
    start is attempted before webdriver-manager has been asked. *)
Theorem launch_order (options : Options) (w : W) :
  let path := app_config_get env "chrome_driver_path" in
  let o := launch env ext options w in
  (nonempty path = true ->
   (forall d w1, chrome_start ext path options w = (Ok d, w1) ->
                 o = Out (Ok d) w1 [EvChromeStart path options (Ok d)]) /\
   (forall e w1, chrome_start ext path options w = (Raise e, w1) ->
                 exists rest, trace o = EvChromeStart path options (Raise e) :: EvInstall :: rest))
  /\ (nonempty path = false -> exists rest, trace o = EvInstall :: rest).
Proof.
  cbn zeta. rewrite launch_run. cbn zeta.
  assert (Hm : forall w0, exists rest,
    trace (try_except (driver_path <- install ext ;; Chrome ext driver_path options)
                      (fun _ => raise LAUNCH_FAILURE) w0) = EvInstall :: rest).
  { intros w0. rewrite launch_via_manager.
    destruct (manager_install ext w0) as [[driver_path|e'] w2]; [|now exists []].
    destruct (chrome_start ext driver_path options w2) as [r w3]. cbn. eauto. }
  split.
  - intros ->. split.
    + intros d w1 ->. reflexivity.
    + intros e w1 ->. cbn [trace]. destruct (Hm w1) as [rest ->]. eauto.
  - intros ->. apply Hm.
Qed.

End Launch.

(* ===================================================================== *)
(** ** Chrome options *)
(* ===================================================================== *)

Section ChromeOptions.

Lemma not_true_branch {A} (s : string) (a b : A) :
  s <> "true" ->
  match s with "true" => a | _ => b end = b.
Proof.
  intros Hs.
  destruct s as [|c1 s]; [reflexivity|].
  destruct c1 as [[] [] [] [] [] [] [] []]; try reflexivity.
  destruct s as [|c2 s]; [reflexivity|].
  destruct c2 as [[] [] [] [] [] [] [] []]; try reflexivity.
  destruct s as [|c3 s]; [reflexivity|].
  destruct c3 as [[] [] [] [] [] [] [] []]; try reflexivity.
  destruct s as [|c4 s]; [reflexivity|].
  destruct c4 as [[] [] [] [] [] [] [] []]; try reflexivity.
  destruct s; [congruence | reflexivity].
Qed.

Variable env : environment.

(** X3.  The two modes of the Chrome options.  On a CI runner
    ([GITHUB_ACTIONS] equal to "true") the arguments are exactly the six
    headless flags and the binary is [CHROME_BIN] or its default; the
    profile directory is not used there even when one is configured.
    Otherwise no binary is set and the only possible argument is the
    profile directory, passed when one is configured and
    [GITHUB_ACTIONS] is unset or empty; a [GITHUB_ACTIONS] of any other
    value gives neither.  The two experimental options are always set. *)
Theorem build_options_modes :
  let o := build_options env in
  let dir := app_config_get env "chrome_user_data_dir" in
  experimental_options o
  = [("excludeSwitches", OptList ["enable-automation"]);
     ("useAutomationExtension", OptBool false)]
  /\ (getenv env "GITHUB_ACTIONS" = Some "true" ->
      arguments o = ["--headless=new"; "--no-sandbox"; "--disable-dev-shm-usage";
                     "--disable-gpu"; "--window-size=1920,1080";
                     "--remote-debugging-port=9222"] /\
      binary_location o
      = Some (match getenv env "CHROME_BIN" with
              | Some p => p
              | None => "/usr/bin/chromium-browser"
              end))
  /\ (getenv env "GITHUB_ACTIONS" <> Some "true" ->
      binary_location o = None /\
      arguments o
      = if nonempty dir && negb (truthy_opt (getenv env "GITHUB_ACTIONS"))
        then [("--user-data-dir=" ++ dir)%string] else []).
Proof.
  cbn zeta. unfold build_options. cbn zeta. split; [|split].
  - destruct (getenv env "GITHUB_ACTIONS") as [s|] eqn:E.
    + destruct (String.eqb_spec s "true") as [->|Hs].
      * cbn. rewrite andb_false_r. reflexivity.
      * rewrite (not_true_branch s _ _ Hs).
        destruct (nonempty _ && _); reflexivity.
    + destruct (nonempty _ && _); reflexivity.
  - intros ->. cbn. rewrite andb_false_r. split; reflexivity.
  - intros Hci. destruct (getenv env "GITHUB_ACTIONS") as [s|] eqn:E.
    + rewrite (not_true_branch s _ _ ltac:(congruence)).
      destruct (nonempty _ && _); split; reflexivity.
    + destruct (nonempty _ && _); split; reflexivity.
Qed.

End ChromeOptions.

(* ===================================================================== *)
(** ** Submitting the OTP screen *)
(* ===================================================================== *)

Section OtpSubmit.
Context {W : Type} (ext : collaborators W).
Variable d : driver.

(** What a round does once it holds the buttons of its last query. *)
Lemma submit_totp_decide (submit_btns : list element) (w : W) :
  (match submit_btns with
   | _ :: _ => click ext (List.last submit_btns 0)
   | [] =>
       sleep ext 2000 ;;
       u <- current_url ext d ;;
       if PyStr.contains "request_token" u then ret tt
       else
         u <- current_url ext d ;;
         if PyStr.contains "status=success" u then ret tt
         else raise OTP_SUBMIT_NOT_FOUND
   end) w
  = match submit_btns with
    | _ :: _ =>
        let (r, w1) := element_click ext (List.last submit_btns 0) w in
        Out r w1 [EvClick (List.last submit_btns 0)]
    | [] =>
        match driver_current_url ext d (time_passes ext 2000 w) with
        | (Raise e, w1) => Out (Raise e) w1 [EvSleep 2000; EvCurrentUrl d]
        | (Ok u, w1) =>
            if PyStr.contains "request_token" u
            then Out (Ok tt) w1 [EvSleep 2000; EvCurrentUrl d]
            else
              match driver_current_url ext d w1 with
              | (Raise e, w2) =>
                  Out (Raise e) w2 [EvSleep 2000; EvCurrentUrl d; EvCurrentUrl d]
              | (Ok u', w2) =>
                  Out (if PyStr.contains "status=success" u' then Ok tt
                       else Raise OTP_SUBMIT_NOT_FOUND)
                      w2 [EvSleep 2000; EvCurrentUrl d; EvCurrentUrl d]
              end
        end
    end.
Proof.
  destruct submit_btns as [|b btns].
  - unfold bind, sleep, current_url, invoke, ret, raise. cbn [res final trace].
    destruct (driver_current_url ext d (time_passes ext 2000 w)) as [[u|e] w1];
      cbn [res final trace]; [|reflexivity].
    destruct (PyStr.contains "request_token" u); cbn [res final trace];
      [reflexivity|].
    destruct (driver_current_url ext d w1) as [[u'|e] w2];
      cbn [res final trace]; [|reflexivity].
    destruct (PyStr.contains "status=success" u'); reflexivity.
  - unfold click, invoke. now destruct (element_click ext _ w).
Qed.

(** One round, spelled out. *)
Lemma submit_totp_round_run (w : W) :
  submit_totp_round ext d w
  = match driver_find_elements ext d XPATH_TOTP_SUBMIT w with
    | (Raise e, w1) => Out (Raise e) w1 [EvFindElements d XPATH_TOTP_SUBMIT]
    | (Ok (b :: btns), w1) =>
        let (r, w2) := element_click ext (List.last (b :: btns) 0) w1 in
        Out r w2 [EvFindElements d XPATH_TOTP_SUBMIT; EvClick (List.last (b :: btns) 0)]
    | (Ok [], w1) =>
        match driver_find_elements ext d XPATH_CONTINUE_TEXT w1 with
        | (Raise e, w2) =>
            Out (Raise e) w2
                [EvFindElements d XPATH_TOTP_SUBMIT; EvFindElements d XPATH_CONTINUE_TEXT]
        | (Ok btns, w2) =>
            let o := (match btns with
                      | _ :: _ => click ext (List.last btns 0)
                      | [] =>
                          sleep ext 2000 ;;
                          u <- current_url ext d ;;
                          if PyStr.contains "request_token" u then ret tt
                          else
                            u <- current_url ext d ;;
                            if PyStr.contains "status=success" u then ret tt
                            else raise OTP_SUBMIT_NOT_FOUND
                      end) w2 in
            Out (res o) (final o)
                ([EvFindElements d XPATH_TOTP_SUBMIT;
                  EvFindElements d XPATH_CONTINUE_TEXT] ++ trace o)
        end
    end.
Proof.
  unfold submit_totp_round, find_elements.
  destruct (driver_find_elements ext d XPATH_TOTP_SUBMIT w) as [[[|b btns]|e] w1] eqn:E1.
  - rewrite (bind_ok _ _ _ _ _ _ (invoke_run _ _ _ _ _ E1)).
    destruct (driver_find_elements ext d XPATH_CONTINUE_TEXT w1) as [[btns|e] w2] eqn:E2.
    + rewrite (bind_ok _ _ _ _ _ _ (invoke_run _ _ _ _ _ E2)). reflexivity.
    + rewrite (bind_raise _ _ _ _ _ _ (invoke_run _ _ _ _ _ E2)). reflexivity.
  - rewrite (bind_ok _ _ _ _ _ _ (invoke_run _ _ _ _ _ E1)).
    rewrite bind_run. cbn [ret res final trace].
    unfold click, invoke.
    destruct (element_click ext (List.last (b :: btns) 0) w1); reflexivity.
  - rewrite (bind_raise _ _ _ _ _ _ (invoke_run _ _ _ _ _ E1)). reflexivity.
Qed.

Lemma last_in {A} (a : A) (l : list A) (dflt : A) : In (List.last (a :: l) dflt) (a :: l).
Proof.
  revert a; induction l as [|b l IH]; intros a; [now left|].
  right. apply (IH b).
Qed.

(** X4.  One round of the OTP submit loop.  When the first query finds
    buttons, the last of them is clicked and nothing else is asked; when
    it finds none, the buttons whose lowered text holds "continue" are
    asked for and the last of those is clicked; when there is none
    either, the round pauses two seconds and reads the URL: a URL with
    [request_token] ends the round, otherwise the URL is read a second
    time and that second reading is the one tested for [status=success];
    with neither marker the round raises "TOTP submit button not found"
    and has clicked nothing. *)
Theorem submit_totp_round_order (w : W) :
  let first := EvFindElements d XPATH_TOTP_SUBMIT in
  let second := EvFindElements d XPATH_CONTINUE_TEXT in
  (forall b btns w1,
      driver_find_elements ext d XPATH_TOTP_SUBMIT w = (Ok (b :: btns), w1) ->
      let target := List.last (b :: btns) 0 in
      In target (b :: btns) /\
      submit_totp_round ext d w
      = Out (fst (element_click ext target w1)) (snd (element_click ext target w1))
            [first; EvClick target])
  /\ (forall w1 b btns w2,
      driver_find_elements ext d XPATH_TOTP_SUBMIT w = (Ok [], w1) ->
      driver_find_elements ext d XPATH_CONTINUE_TEXT w1 = (Ok (b :: btns), w2) ->
      let target := List.last (b :: btns) 0 in
      In target (b :: btns) /\
      submit_totp_round ext d w
      = Out (fst (element_click ext target w2)) (snd (element_click ext target w2))
            [first; second; EvClick target])
  /\ (forall w1 w2 u w3,
      driver_find_elements ext d XPATH_TOTP_SUBMIT w = (Ok [], w1) ->
      driver_find_elements ext d XPATH_CONTINUE_TEXT w1 = (Ok [], w2) ->
      driver_current_url ext d (time_passes ext 2000 w2) = (Ok u, w3) ->
      (PyStr.contains "request_token" u = true ->
       submit_totp_round ext d w
       = Out (Ok tt) w3 [first; second; EvSleep 2000; EvCurrentUrl d]) /\
      (PyStr.contains "request_token" u = false ->
       forall u' w4,
         driver_current_url ext d w3 = (Ok u', w4) ->
         submit_totp_round ext d w
         = Out (if PyStr.contains "status=success" u' then Ok tt
                else Raise OTP_SUBMIT_NOT_FOUND)
               w4 [first; second; EvSleep 2000; EvCurrentUrl d; EvCurrentUrl d])).
Proof.
  cbn zeta. rewrite submit_totp_round_run. split; [|split].
  - intros b btns w1 ->. split; [apply last_in|].
    now destruct (element_click ext (List.last (b :: btns) 0) w1).
  - intros w1 b btns w2 -> ->. split; [apply last_in|].
    pose proof (submit_totp_decide (b :: btns) w2) as Hd. cbv iota in Hd.
    rewrite Hd. now destruct (element_click ext (List.last (b :: btns) 0) w2).
  - intros w1 w2 u w3 -> -> Hu.
    pose proof (submit_totp_decide [] w2) as Hd. cbv iota in Hd.
    rewrite Hd, Hu. split.
    + now intros ->.
    + intros -> u' w4 ->. reflexivity.
Qed.

(** What a round puts on the trace: its first query once, at most one
    click, no pause of the loop. *)
Lemma submit_totp_round_counts (w : W) :
  count is_otp_query (trace (submit_totp_round ext d w)) = 1 /\
  count is_click (trace (submit_totp_round ext d w)) <= 1 /\
  count is_round_pause (trace (submit_totp_round ext d w)) = 0.
Proof.
  rewrite submit_totp_round_run.
  destruct (driver_find_elements ext d XPATH_TOTP_SUBMIT w) as [[[|b btns]|e] w1];
    [| |cbn; auto].
  - destruct (driver_find_elements ext d XPATH_CONTINUE_TEXT w1) as [[btns|e] w2];
      [|cbn; auto].
    rewrite submit_totp_decide. destruct btns as [|b btns].
    + destruct (driver_current_url ext d (time_passes ext 2000 w2)) as [[u|e] w3];
        [|cbn; auto].
      destruct (PyStr.contains "request_token" u); [cbn; auto|].
      destruct (driver_current_url ext d w3) as [[u'|e] w4]; cbn; auto.
    + destruct (element_click ext (List.last (b :: btns) 0) w2). cbn. auto.
  - destruct (element_click ext (List.last (b :: btns) 0) w1). cbn. auto.
Qed.

(** One turn of the loop. *)
Lemma submit_totp_turn (attempt : nat) (rest : list nat) (w : W) :
  submit_totp ext d (attempt :: rest) w
  = let o := submit_totp_round ext d w in
    match res o with
    | Ok _ => Out (Ok tt) (final o) (trace o)
    | Raise e =>
        if Nat.ltb attempt (max_retries - 1) then
          let o' := submit_totp ext d rest (time_passes ext 1000 (final o)) in
          Out (res o') (final o') (trace o ++ [EvSleep 1000] ++ trace o')
        else Out (Raise e) (final o) (trace o)
    end.
Proof.
  cbn [submit_totp]. rewrite bind_run. unfold catch. cbn [res final trace].
  destruct (res (submit_totp_round ext d w)) as [[]|e].
  - cbn. now rewrite app_nil_r.
  - destruct (Nat.ltb attempt (max_retries - 1)).
    + rewrite bind_run. cbn [sleep res final trace]. reflexivity.
    + cbn. now rewrite app_nil_r.
Qed.

(** The loop from attempt [k] on, [n] attempts being left. *)
Lemma submit_totp_from (k n : nat) (w : W) :
  k + S n = max_retries ->
  exists (earlier : list (outcome W unit)) (last : outcome W unit),
    List.length (earlier ++ [last]) <= S n /\
    Forall (fun o => exists w', o = submit_totp_round ext d w') (earlier ++ [last]) /\
    Forall (fun o => is_ok (res o) = false) earlier /\
    res (submit_totp ext d (seq k (S n)) w) = res last /\
    final (submit_totp ext d (seq k (S n)) w) = final last /\
    trace (submit_totp ext d (seq k (S n)) w)
    = join [EvSleep 1000] (map (@trace W unit) (earlier ++ [last])) /\
    (is_ok (res last) = false -> List.length (earlier ++ [last]) = S n).
Proof.
  revert k w; induction n as [|n IH]; intros k w Hk;
    cbn [seq]; rewrite submit_totp_turn; cbn zeta.
  - replace (Nat.ltb k (max_retries - 1)) with false
      by (symmetry; apply Nat.ltb_ge; unfold max_retries in *; lia).
    exists [], (submit_totp_round ext d w). cbn [app List.length map join].
    destruct (res (submit_totp_round ext d w)) as [[]|e] eqn:E; cbn [res final trace];
      repeat split; auto; repeat constructor; eauto.
  - replace (Nat.ltb k (max_retries - 1)) with true
      by (symmetry; apply Nat.ltb_lt; unfold max_retries in *; lia).
    destruct (res (submit_totp_round ext d w)) as [[]|e] eqn:E.
    + exists [], (submit_totp_round ext d w). cbn [app List.length map join res final trace].
      rewrite E. repeat split; auto; try lia; try discriminate.
      repeat constructor. eauto.
    + destruct (IH (S k) (time_passes ext 1000 (final (submit_totp_round ext d w)))
                  ltac:(lia))
        as (earlier & last & Hlen & Hall & Hraised & Hres & Hfin & Htr & Hfull).
      exists (submit_totp_round ext d w :: earlier), last. cbn [res final trace].
      change (seq (S k) (S n)) with (S k :: seq (S (S k)) n) in *.
      repeat split.
      * cbn [app List.length] in *. lia.
      * constructor; [eauto | exact Hall].
      * constructor; [now rewrite E | exact Hraised].
      * exact Hres.
      * exact Hfin.
      * rewrite Htr. cbn [app map].
        rewrite join_cons by (destruct earlier; discriminate). reflexivity.
      * intros Hlast. specialize (Hfull Hlast). cbn [app List.length] in *. lia.
Qed.

(** X5.  The OTP submit loop runs one to three rounds with a one-second
    pause between each two; a round that returns ends the loop, a round
    that raises (a click that fails included) is followed by another
    round, and the loop raises only after three rounds, with what the
    third raised.  So the first query is made at most three times and
    there are at most as many clicks as rounds. *)
Theorem submit_totp_rounds (w : W) :
  let o := submit_totp ext d (seq 0 max_retries) w in
  (exists rounds : list (outcome W unit),
      1 <= List.length rounds <= 3 /\
      Forall (fun r => exists w', r = submit_totp_round ext d w') rounds /\
      Forall (fun r => is_ok (res r) = false) (removelast rounds) /\
      res o = res (List.last rounds (submit_totp_round ext d w)) /\
      trace o = join [EvSleep 1000] (map (@trace W unit) rounds) /\
      (is_ok (res o) = false -> List.length rounds = 3))
  /\ count is_otp_query (trace o) <= 3
  /\ count is_round_pause (trace o) + 1 = count is_otp_query (trace o)
  /\ count is_click (trace o) <= count is_otp_query (trace o)
  /\ (is_ok (res o) = false -> count is_otp_query (trace o) = 3).
Proof.
  cbn zeta.
  destruct (submit_totp_from 0 2 w eq_refl)
    as (earlier & last & Hlen & Hall & Hraised & Hres & Hfin & Htr & Hfull).
  change (seq 0 (S 2)) with (seq 0 max_retries) in *.
  assert (Hq : count is_otp_query (trace (submit_totp ext d (seq 0 max_retries) w))
               = List.length (earlier ++ [last])).
  { rewrite Htr, (count_join _ _ 1).
    - rewrite length_map. cbn. lia.
    - apply Forall_map. eapply Forall_impl; [|exact Hall].
      intros o [w' ->]. apply submit_totp_round_counts. }
  assert (Hp : count is_round_pause (trace (submit_totp ext d (seq 0 max_retries) w))
               = List.length (earlier ++ [last]) - 1).
  { rewrite Htr, (count_join _ _ 0).
    - rewrite length_map. cbn. lia.
    - apply Forall_map. eapply Forall_impl; [|exact Hall].
      intros o [w' ->]. apply submit_totp_round_counts. }
  assert (Hpos : 1 <= List.length (earlier ++ [last]))
    by (rewrite length_app; cbn; lia).
  split; [|split; [|split; [|split]]].
  - exists (earlier ++ [last]). rewrite last_last, removelast_last.
    rewrite Hres. repeat split; auto.

  - lia.
  - lia.
  - rewrite Htr. apply count_join_mono; [|cbn; lia].
    apply Forall_map. eapply Forall_impl; [|exact Hall].
    intros o [w' ->]. destruct (submit_totp_round_counts w') as (-> & Hc & _). exact Hc.
  - rewrite Hres. intros H. rewrite Hq. now apply Hfull.
Qed.

End OtpSubmit.

(* ===================================================================== *)
(** ** Waiting *)
(* ===================================================================== *)

Section Waiting.
Context {W : Type} (ext : collaborators W).
Variable d : driver.

Lemma call_condition_one_poll (c : condition) (w : W) :
  count is_poll (trace (call_condition ext d c w)) = 1 /\
  count is_poll_pause (trace (call_condition ext d c w)) = 0.
Proof.
  unfold call_condition, current_url, bind, invoke, ret. destruct c.
  - destruct (driver_current_url ext d w) as [[u|e] w1]; cbn; auto.
  - destruct (probe_clickable ext d locator w) as [[o|e] w1]; cbn; auto.
Qed.

(** What a condition returns: a boolean for the URL test, the element or
    [False] for the clickable test. *)
Lemma call_condition_value (c : condition) (w : W) (v : pyval) :
  res (call_condition ext d c w) = Ok v ->
  truthy v = true ->
  match c with
  | url_contains _ => v = PyBool true
  | element_to_be_clickable _ => exists el, v = PyElement el
  end.
Proof.
  unfold call_condition, current_url, bind, invoke, ret. destruct c.
  - destruct (driver_current_url ext d w) as [[u|e] w1]; cbn; [|discriminate].
    intros [= <-]. cbn. now intros ->.
  - destruct (probe_clickable ext d locator w) as [[[el|]|e] w1]; cbn;
      try discriminate; intros [= <-]; cbn; eauto; discriminate.
Qed.

(** One poll of the wait. *)
Lemma until_loop_step (c : condition) (more : nat) (w : W) :
  until_loop ext d c more w
  = let o := call_condition ext d c w in
    match res o with
    | Raise e => Out (Raise e) (final o) (trace o)
    | Ok v =>
        if truthy v then Out (Ok v) (final o) (trace o)
        else match more with
             | O => Out (Raise TimeoutException) (final o) (trace o)
             | S more' =>
                 let o' := until_loop ext d c more' (time_passes ext 500 (final o)) in
                 Out (res o') (final o') (trace o ++ [EvSleep 500] ++ trace o')
             end
    end.
Proof.
  destruct more; cbn [until_loop]; rewrite bind_run;
    destruct (res (call_condition ext d c w)) as [v|e]; cbn zeta; try reflexivity;
    destruct (truthy v); cbn; rewrite ?app_nil_r; reflexivity.
Qed.

Lemma until_loop_polls (c : condition) (more : nat) (w : W) :
  let o := until_loop ext d c more w in
  (forall v, res o = Ok v ->
     truthy v = true /\
     match c with
     | url_contains _ => v = PyBool true
     | element_to_be_clickable _ => exists el, v = PyElement el
     end) /\
  count is_poll (trace o) <= S more /\
  count is_poll (trace o) = S (count is_poll_pause (trace o)).
Proof.
  assert (Hstop : forall w,
    let o := call_condition ext d c w in
    forall v, res o = Ok v -> truthy v = true ->
      truthy v = true /\
      match c with
      | url_contains _ => v = PyBool true
      | element_to_be_clickable _ => exists el, v = PyElement el
      end).
  { intros w0 o v Hv Ht. split; [exact Ht|]. now apply (call_condition_value c w0). }
  revert w; induction more as [|more IH]; intros w; cbn zeta;
    rewrite until_loop_step; cbn zeta;
    destruct (call_condition_one_poll c w) as [Hp Hs];
    specialize (Hstop w); cbn zeta in Hstop;
    destruct (res (call_condition ext d c w)) as [v|e]; cbn [res trace].
  - destruct (truthy v) eqn:Et; cbn [res trace].
    + split; [intros v' [= <-]; now apply Hstop | split; lia].
    + split; [discriminate | split; lia].
  - split; [discriminate | split; lia].
  - destruct (truthy v) eqn:Et; cbn [res trace].
    + split; [intros v' [= <-]; now apply Hstop | split; lia].
    + destruct (IH (time_passes ext 500 (final (call_condition ext d c w))))
        as (Hok & Hle & Heq).
      split; [exact Hok|]. rewrite !count_app, Hp, Hs, !count_cons, !count_nil.
      cbn [is_poll is_poll_pause Nat.eqb]. lia.
  - split; [discriminate | split; lia].
Qed.

(** As modelled, [wait.until] returns only a true value: [True] for a URL
    condition, the element itself for a clickable condition.  It
    evaluates the condition at most once more than further polls fit
    into the timeout, with a half-second pause between each two
    evaluations, and given something that is not callable it raises
    [TypeError] without touching the browser. *)
Lemma until_polls (method : pyval) (w : W) :
  let o := until ext d method w in
  (forall v, res o = Ok v ->
     truthy v = true /\
     (forall url, method = PyCallable (url_contains url) -> v = PyBool true) /\
     (forall loc, method = PyCallable (element_to_be_clickable loc) ->
                  exists el, v = PyElement el))
  /\ count is_poll (trace o) <= S (wait_polls ext)
  /\ (forall c, method = PyCallable c ->
                count is_poll (trace o) = S (count is_poll_pause (trace o)))
  /\ ((forall c, method <> PyCallable c) -> o = Out (Raise TypeError) w []).
Proof.
  cbn zeta. unfold until. destruct method as [b|el|c].
  - repeat split; try discriminate; cbn; lia.
  - repeat split; try discriminate; cbn; lia.
  - destruct (until_loop_polls c (wait_polls ext) w) as (Hok & Hle & Heq).
    split; [|split; [exact Hle|split]].
    + intros v Hv. destruct (Hok v Hv) as [Ht Hc]. split; [exact Ht|].
      split; intros x [= ->]; exact Hc.
    + intros c' _. exact Heq.
    + intros H. now destruct (H c).
Qed.

Lemma extract_needs_marker (rt_url rt : string) :
  extract_request_token rt_url = Ok rt ->
  PyStr.contains "request_token" rt_url = true.
Proof.
  unfold extract_request_token.
  destruct (PyStr.contains "request_token=" rt_url) eqn:E.
  - intros _. now apply (contains_weaken "request_token" "=").
  - destruct (PyStr.contains "request_token" rt_url); [reflexivity | discriminate].
Qed.

(** X6.  When the wait for the redirect returns a request token, the
    last thing it did was read the URL, that reading held
    [request_token], and the token is what the extraction gives on that
    reading (not on the reading the wait itself had polled). *)
Theorem wait_for_request_token_returns (w w' : W) (rt : string) (t : list event) :
  wait_for_request_token ext d w = Out (Ok rt) w' t ->
  exists rt_url w1 t1,
    driver_current_url ext d w1 = (Ok rt_url, w') /\
    w1 = final (until ext d redirect_condition w) /\
    t = t1 ++ [EvCurrentUrl d] /\
    PyStr.contains "request_token" rt_url = true /\
    extract_request_token rt_url = Ok rt.
Proof.
  unfold wait_for_request_token, current_url. rewrite bind_run.
  destruct (res (until ext d redirect_condition w)) as [v|e]; [|discriminate].
  cbn zeta.
  destruct (driver_current_url ext d (final (until ext d redirect_condition w)))
    as [[rt_url|e] w1] eqn:Eu.
  - rewrite (bind_ok _ _ _ _ _ _ (invoke_run _ _ _ _ _ Eu)).
    cbn [lift res final trace]. intros [= Hrt <- <-].
    exists rt_url, (final (until ext d redirect_condition w)),
           (trace (until ext d redirect_condition w)).
    repeat split; auto.
    now apply extract_needs_marker with rt.
  - rewrite (bind_raise _ _ _ _ _ _ (invoke_run _ _ _ _ _ Eu)). discriminate.
Qed.

End Waiting.

(* ===================================================================== *)
(** ** What a login hands back *)
(* ===================================================================== *)

Section LoginResult.
Context {W : Type} (env : environment) (ext : collaborators W).
Variable cfg : config.

(** A property of the value a computation returns is kept by whatever
    runs before it. *)
Lemma returns_bind {A B} (Q : B -> Prop) (m : M W A) (k : A -> M W B) :
  (forall a w b, res (k a w) = Ok b -> Q b) ->
  forall w b, res (bind m k w) = Ok b -> Q b.
Proof.
  intros Hk w b. rewrite bind_run.
  destruct (res (m w)) as [a|e]; cbn [res]; [apply Hk | discriminate].
Qed.

Lemma exchange_returns (kite : KiteConnect) (rt : string) (w : W)
      (kt : KiteConnect * string) :
  res (exchange ext cfg kite rt w) = Ok kt ->
  access_token (fst kt) = Some (snd kt) /\ api_key (fst kt) = api_key kite.
Proof.
  unfold exchange, generate_session, bind, lift, invoke, ret.
  destruct (kite_generate_session ext (api_key kite) rt (cfg_api_secret cfg) w)
    as [[data|e] w1]; cbn [res final trace]; [|discriminate].
  destruct (dict_getitem data "access_token") as [tok|e];
    cbn [res final trace]; [|discriminate].
  intros [= <-]. auto.
Qed.

Lemma login_steps_returns (kite : KiteConnect) (d : driver) (url : string) (w : W)
      (kt : KiteConnect * string) :
  res (login_steps ext cfg kite d url w) = Ok kt ->
  access_token (fst kt) = Some (snd kt) /\ api_key (fst kt) = api_key kite.
Proof.
  revert w kt. unfold login_steps.
  do 11 (apply returns_bind; intros ?).
  intros w kt. apply exchange_returns.
Qed.

Lemma login_once_returns (w : W) (kt : KiteConnect * string) :
  res (login_once env ext cfg w) = Ok kt ->
  access_token (fst kt) = Some (snd kt) /\ api_key (fst kt) = cfg_api_key cfg.
Proof.
  rewrite login_once_run.
  destruct (kite_login_url ext (cfg_api_key cfg) w) as [[url|e] w1];
    [|discriminate].
  cbn zeta. destruct (res (launch env ext (build_options env) w1)) as [d|e];
    cbn [res]; [|discriminate].
  apply login_steps_returns.
Qed.

(** X7.  What [login] returns is a client authenticated with the token
    returned beside it: the client carries the configured API key and
    has exactly that token set on it. *)
Theorem login_returns_authenticated_client (w : W) (kite : KiteConnect)
        (tok : string) :
  res (login env ext cfg w) = Ok (kite, tok) ->
  access_token kite = Some tok /\ api_key kite = cfg_api_key cfg.
Proof.
  destruct (retrying_call_cycles ext (login_once env ext cfg) wait_fixed
              (stop_max_attempt_number - 1) w)
    as (earlier & last & _ & Hall & _ & Hres & _).
  unfold login, retry. rewrite Hres.
  apply Forall_app in Hall as [_ Hlast]. inversion Hlast as [|? ? [w' ->] _]; subst.
  intros H. apply (login_once_returns w' (kite, tok) H).
Qed.

(** X8.  A cycle without a session.  When asking for the login URL
    raises, the cycle ends there: nothing is launched.  When the launch
    raises, the cycle raises the same exception and has made no step
    call and no [quit]: there is no session to drive or to tear down. *)
Theorem login_once_without_session (w : W) :
  (forall e w1,
      kite_login_url ext (cfg_api_key cfg) w = (Raise e, w1) ->
      login_once env ext cfg w = Out (Raise e) w1 [EvLoginUrl (cfg_api_key cfg)])
  /\ (forall url w1 e,
      kite_login_url ext (cfg_api_key cfg) w = (Ok url, w1) ->
      res (launch env ext (build_options env) w1) = Raise e ->
      let o := login_once env ext cfg w in
      res o = Raise e /\
      trace o = EvLoginUrl (cfg_api_key cfg)
                :: trace (launch env ext (build_options env) w1) /\
      count is_step (trace o) = 0 /\ count is_quit (trace o) = 0 /\
      count is_session_start (trace o) = 0).
Proof.
  rewrite login_once_run. split.
  - intros e w1 ->. reflexivity.
  - intros url w1 e -> Hl. cbn zeta. rewrite Hl. cbn [res trace].
    pose proof (launch_sessions env ext (build_options env) w1) as Hs.
    rewrite Hl in Hs. cbn [is_ok] in Hs.
    repeat split; auto; rewrite count_cons; cbn [is_step is_quit is_session_start];
      try (rewrite Hs; reflexivity);
      apply count_never; apply emits_launch; step_events.
Qed.

End LoginResult.

(* ===================================================================== *)
(** ** How retrying ends *)
(* ===================================================================== *)

Section RetryEnds.
Context {W : Type} (env : environment) (ext : collaborators W).

(** A decorated call that raises has used every attempt it had. *)
Lemma retrying_call_exhausted {A} (p : event -> bool) (c : nat) (fn : M W A)
      (wait_ms further : nat) (w : W) :
  (forall w', count p (trace (fn w')) = c) ->
  is_ok (res (retrying_call ext further wait_ms fn w)) = false ->
  count p (trace (retrying_call ext further wait_ms fn w))
  = S further * c + further * count p [EvSleep wait_ms].
Proof.
  intros Hc. revert w; induction further as [|further IH]; intros w;
    rewrite retrying_call_round; cbn zeta;
    destruct (res (fn w)) as [a|e]; cbn [res trace is_ok]; try discriminate.
  - intros _. rewrite Hc. lia.
  - intros H. rewrite !count_app, Hc, (IH _ H). lia.
Qed.

(** A first run that returns is the whole decorated call. *)
Lemma retrying_call_first {A} (fn : M W A) (wait_ms further : nat) (w : W) (a : A) :
  res (fn w) = Ok a ->
  retrying_call ext further wait_ms fn w = fn w.
Proof.
  intros H. rewrite retrying_call_round. cbn zeta. rewrite H.
  destruct (fn w) as [r f t]. cbn in *. now subst.
Qed.

Variable cfg : config.

(** X9.  How the decorated login ends.  A first cycle that returns is
    the whole login: no pause and no second cycle follow it.  A login
    that raises has run exactly three cycles with exactly two 5000 ms
    pauses between them. *)
Theorem login_ends_early_or_exhausted (w : W) :
  (forall p, res (login_once env ext cfg w) = Ok p ->
             login env ext cfg w = login_once env ext cfg w)
  /\ (forall e, res (login env ext cfg w) = Raise e ->
                count is_cycle_start (trace (login env ext cfg w)) = 3 /\
                count is_retry_wait (trace (login env ext cfg w)) = 2).
Proof.
  split.
  - intros p H. unfold login, retry. now apply retrying_call_first with p.
  - intros e H. unfold login, retry in *.
    assert (Hf : is_ok (res (retrying_call ext (stop_max_attempt_number - 1) wait_fixed
                               (login_once env ext cfg) w)) = false)
      by now rewrite H.
    split.
    + rewrite (retrying_call_exhausted is_cycle_start 1); auto.
      intros w'. apply login_once_cycle_start.
    + rewrite (retrying_call_exhausted is_retry_wait 0); auto.
      intros w'. apply login_once_no_retry_wait.
Qed.


End RetryEnds.

(* ===================================================================== *)
(** ** Saving the token *)
(* ===================================================================== *)

Section Saving.
Context {W : Type} (env : environment) (ext : collaborators W).
Variable access_token : string.







End Saving.

(* ===================================================================== *)
(** ** The shape of an extracted code *)
(* ===================================================================== *)

Section CodeShape.
Import PyStr PyStrFacts.

Lemma startswith_take (p : string) (n : nat) (s : string) :
  startswith p (take n s) = true -> startswith p s = true.
Proof.
  revert n s; induction p as [|a p IH]; intros n s; [reflexivity|].
  destruct n as [|n], s as [|b s]; cbn; try discriminate.
  intros H. apply andb_true_iff in H as [Hab H]. now rewrite Hab, (IH _ _ H).
Qed.

Lemma find_in_empty (sep : string) : sep <> "" -> find sep "" = None.
Proof. destruct sep; [congruence | reflexivity]. Qed.

(** A prefix of a string free of [sep] is free of [sep]. *)
Lemma find_none_take (sep : string) (n : nat) (s : string) :
  find sep s = None -> find sep (take n s) = None.
Proof.
  assert (Hne : forall s', find sep s' = None -> sep <> "").
  { intros s' H ->. now rewrite find_empty in H. }
  revert n; induction s as [|a s IH]; intros n Hs.
  - destruct n; cbn [take]; exact Hs.
  - pose proof (Hne _ Hs) as Hsep.
    apply find_none_cons in Hs as [Hst Hf].
    destruct n as [|n]; cbn [take]; [now apply find_in_empty|].
    rewrite find_cons.
    destruct (startswith sep (String a (take n s))) eqn:E.
    + apply (startswith_take sep (S n) (String a s)) in E. congruence.
    + now rewrite (IH n Hf).
Qed.

(** The text before the first occurrence of [sep] is free of [sep]. *)
Lemma find_before (sep s : string) : sep <> "" -> find sep (before sep s) = None.
Proof.
  intros Hsep. unfold before. destruct (find sep s) as [i|] eqn:E; [|exact E].
  revert i E; induction s as [|a s IH]; intros i E.
  - destruct i; cbn [take]; now apply find_in_empty.
  - rewrite find_cons in E.
    destruct (startswith sep (String a s)) eqn:Est.
    + injection E as <-. cbn [take]. now apply find_in_empty.
    + destruct (find sep s) as [j|] eqn:Ej; [|discriminate].
      injection E as <-. cbn [take]. rewrite find_cons.
      destruct (startswith sep (String a (take j s))) eqn:E'.
      * apply (startswith_take sep (S j) (String a s)) in E'. congruence.
      * now rewrite (IH j eq_refl).
Qed.

Lemma take_all (s : string) : take (String.length s) s = s.
Proof. induction s as [|a s IH]; cbn; [reflexivity | now rewrite IH]. Qed.

Lemma before_prefix (sep s : string) : exists n, before sep s = take n s.
Proof.
  unfold before. destruct (find sep s) as [i|]; [eauto|].
  exists (String.length s). now rewrite take_all.
Qed.

Lemma lstrip_head (chars s : string) :
  match lstrip chars s with
  | EmptyString => True
  | String c _ => char_in c chars = false
  end.
Proof.
  induction s as [|a s IH]; cbn [lstrip]; [exact I|].
  destruct (char_in a chars) eqn:E; [exact IH | exact E].
Qed.

(** X13.  What an extracted code looks like.  Taken from a URL with
    [request_token=], it holds no [&] and no further [request_token=].
    Taken from a URL with the bare marker only, it does not begin with
    any of the characters [=&#?/]. *)
Theorem extracted_code_shape (rt_url rt : string) :
  extract_request_token rt_url = Ok rt ->
  (contains "request_token=" rt_url = true ->
   contains "&" rt = false /\ contains "request_token=" rt = false)
  /\ (contains "request_token=" rt_url = false ->
      match rt with
      | EmptyString => True
      | String c _ => char_in c "=&#?/" = false
      end).
Proof.
  intros Hrt. split; intros H.
  - rewrite (extract_query_branch _ H) in Hrt. injection Hrt as <-.
    unfold contains. split.
    + now rewrite find_before.
    + destruct (before_prefix "&" (before "request_token="
                                     (after "request_token=" rt_url))) as [n ->].
      rewrite find_none_take; [reflexivity|]. now apply find_before.
  - assert (Hm : contains "request_token" rt_url = true).
    { unfold extract_request_token in Hrt. rewrite H in Hrt.
      destruct (contains "request_token" rt_url); [reflexivity | discriminate]. }
    rewrite (extract_bare_branch _ H Hm) in Hrt. injection Hrt as <-.
    apply lstrip_head.
Qed.

Lemma extracted_code_shape_witness :
  contains "&" "abc123" = false /\ contains "request_token=" "abc123" = false.
Proof.
  exact (proj1 (extracted_code_shape
                  "https://127.0.0.1/?request_token=abc123&action=login&status=success"
                  "abc123" eq_refl) eq_refl).
Defined.

End CodeShape.

(* ===================================================================== *)
(** ** Filling in the credentials *)
(* ===================================================================== *)

Section Credentials.
Context {W : Type} (ext : collaborators W).
Variable cfg : config.
Variable d : driver.





End Credentials.

(* ===================================================================== *)
(** ** One exchange per cycle *)
(* ===================================================================== *)

Section OneExchange.
Context {W : Type} (env : environment) (ext : collaborators W).
Variable cfg : config.

Lemma exchange_last_before {A B} (secret : string) (m : M W A) (k : A -> M W B) :
  never is_exchange m ->
  (forall a w, exchange_last secret (trace (k a w))) ->
  forall w, exchange_last secret (trace (bind m k w)).
Proof.
  intros Hm Hk w. rewrite trace_bind. specialize (Hm w).
  destruct (res (m w)) as [a|e].
  - destruct (Hk a (final (m w))) as [H | (t0 & rt & r & Heq & H0)].
    + left. apply Forall_app. auto.
    + right. exists (trace (m w) ++ t0), rt, r. rewrite Heq, <- app_assoc.
      split; [reflexivity|]. apply Forall_app. auto.
  - left. now rewrite app_nil_r.
Qed.

(** The exchange step makes exactly one call, whatever comes of it. *)
Lemma exchange_one_call (kite : KiteConnect) (rt : string) (w : W) :
  exists r, trace (exchange ext cfg kite rt w)
            = [EvGenerateSession rt (cfg_api_secret cfg) r].
Proof.
  unfold exchange, generate_session, bind, lift, invoke, ret.
  destruct (kite_generate_session ext (api_key kite) rt (cfg_api_secret cfg) w)
    as [[data|e] w1]; cbn [res final trace]; [|eauto].
  destruct (dict_getitem data "access_token"); cbn; eauto.
Qed.

Lemma login_steps_exchange_last (kite : KiteConnect) (d : driver) (url : string)
      (w : W) :
  exchange_last (cfg_api_secret cfg) (trace (login_steps ext cfg kite d url w)).
Proof.
  revert w. unfold login_steps.
  apply exchange_last_before; [unfold get; apply emits_invoke; step_events | intros _].
  apply exchange_last_before; [apply emits_fill_credentials; step_events | intros _].
  apply exchange_last_before; [apply emits_submit_login; step_events | intros _].
  apply exchange_last_before; [apply emits_sleep; step_events | intros _].
  apply exchange_last_before; [apply emits_until; step_events | intros v].
  apply exchange_last_before; [apply emits_as_element | intros box].
  apply exchange_last_before;
    [unfold TOTP_now; apply emits_invoke; step_events | intros authkey].
  apply exchange_last_before; [apply emits_enter_totp; step_events | intros _].
  apply exchange_last_before; [apply emits_sleep; step_events | intros _].
  apply exchange_last_before; [apply emits_submit_totp; step_events | intros _].
  apply exchange_last_before;
    [apply emits_wait_for_request_token; step_events | intros rt].
  intros w. right. destruct (exchange_one_call kite rt w) as [r ->].
  exists [], rt, r. auto.
Qed.

(** The shape of the trace of a cycle around its exchange. *)
Lemma login_once_exchange (w : W) :
  let t := trace (login_once env ext cfg w) in
  Forall (fun ev => is_exchange ev = false) t \/
  exists t0 rt r d,
    t = t0 ++ [EvGenerateSession rt (cfg_api_secret cfg) r; EvQuit d] /\
    Forall (fun ev => is_exchange ev = false) t0.
Proof.
  cbn zeta. rewrite login_once_run.
  destruct (kite_login_url ext (cfg_api_key cfg) w) as [[url|e] w1];
    [|left; repeat constructor].
  cbn zeta.
  assert (Hl : Forall (fun ev => is_exchange ev = false)
                      (trace (launch env ext (build_options env) w1)))
    by (apply emits_launch; step_events).
  destruct (res (launch env ext (build_options env) w1)) as [d|e]; cbn [trace];
    [|left; constructor; auto].
  destruct (login_steps_exchange_last (new_KiteConnect (cfg_api_key cfg)) d url
              (final (launch env ext (build_options env) w1)))
    as [H | (t0 & rt & r & -> & H0)].
  - left. constructor; [reflexivity|]. apply Forall_app. split; [exact Hl|].
    apply Forall_app. split; [exact H | repeat constructor].
  - right.
    exists (EvLoginUrl (cfg_api_key cfg)
            :: trace (launch env ext (build_options env) w1) ++ t0), rt, r, d.
    split; [cbn [app]; now rewrite <- !app_assoc|].
    constructor; [reflexivity|]. apply Forall_app. auto.
Qed.

(** X15.  The one-time code is spent at most once per cycle.  A cycle
    calls [generate_session] at most once, with the configured API
    secret, and nothing follows that call but the teardown of the
    session; over the decorated login there are no more exchanges than
    cycles. *)
Theorem one_exchange_per_cycle (w : W) :
  count is_exchange (trace (login_once env ext cfg w)) <= 1
  /\ (forall t1 rt secret r t2,
        trace (login_once env ext cfg w) = t1 ++ EvGenerateSession rt secret r :: t2 ->
        secret = cfg_api_secret cfg /\ exists d, t2 = [EvQuit d])
  /\ count is_exchange (trace (login env ext cfg w))
     <= count is_cycle_start (trace (login env ext cfg w)).
Proof.
  assert (Hcount : forall w', count is_exchange (trace (login_once env ext cfg w')) <= 1).
  { intros w'. destruct (login_once_exchange w') as [H | (t0 & rt & r & d & -> & H0)].
    - rewrite (count_never _ _ H). lia.
    - rewrite count_app, (count_never _ _ H0). cbn. lia. }
  split; [apply Hcount|]. split.
  - intros t1 rt secret r t2 Heq.
    destruct (login_once_exchange w) as [H | (t0 & rt0 & r0 & d & Ht & H0)].
    + exfalso. cbn zeta in H. rewrite Heq in H.
      apply Forall_app in H as [_ H]. inversion H; subst. discriminate.
    + cbn zeta in Ht. rewrite Heq in Ht.
      change (t0 ++ [EvGenerateSession rt0 (cfg_api_secret cfg) r0; EvQuit d])
        with (t0 ++ EvGenerateSession rt0 (cfg_api_secret cfg) r0 :: [EvQuit d]) in Ht.
      assert (Hq : Forall (fun ev => is_exchange ev = false) [EvQuit d])
        by (repeat constructor).
      destruct (split_unique is_exchange _ _ _ _ _ _ (eq_sym Ht) H0 Hq eq_refl eq_refl)
        as (_ & Hx & Ht2).
      injection Hx as _ Hs _. subst. eauto.
  - destruct (login_cycles env ext cfg w) as (cycles & _ & Hall & -> & _).
    apply count_join_mono; [|cbn; lia].
    apply Forall_map. eapply Forall_impl; [|exact Hall].
    intros o [w' ->]. rewrite login_once_cycle_start. apply Hcount.
Qed.

End OneExchange.

(* ===================================================================== *)
(** ** Module initialisation *)
(* ===================================================================== *)

Section RequiredEnv.
Variable getenv : string -> option string.

Lemma missing_filter :
  missing getenv = filter (fun k => negb (truthy_opt (getenv k))) REQUIRED_ENV.
Proof.
  unfold missing, required_env.
  induction REQUIRED_ENV as [|k l IH]; cbn; [reflexivity|].
  destruct (truthy_opt (getenv k)); cbn; now rewrite IH.
Qed.

Lemma truthy_opt_spec (o : option string) :
  truthy_opt o = true <-> exists v, o = Some v /\ v <> "".
Proof.
  destruct o as [[|a s]|]; cbn; split; try discriminate.
  - intros (v & [= <-] & H). congruence.
  - intros _. eexists. split; [reflexivity | discriminate].
  - reflexivity.
  - intros (v & H & _). discriminate.
Qed.

(** X16.  The check of the environment at import time passes exactly
    when each of the six required variables is set to a non-empty value:
    a variable set to the empty string counts as missing.  When it
    fails it raises one [ValueError] that names every missing variable,
    not just the first, in the order of declaration. *)
Theorem check_required_env_spec :
  (check_required_env getenv = Ok tt <->
   forall k, In k REQUIRED_ENV -> exists v, getenv k = Some v /\ v <> "")
  /\ (forall e, check_required_env getenv = Raise e ->
        missing getenv <> [] /\
        e = ValueError ("Missing required environment variables: "
                        ++ repr_names (missing getenv))%string)
  /\ missing getenv = filter (fun k => negb (truthy_opt (getenv k))) REQUIRED_ENV
  /\ (forall k, In k (missing getenv) <->
                In k REQUIRED_ENV /\ (getenv k = None \/ getenv k = Some "")).
Proof.
  split; [|split; [|split]].
  - unfold check_required_env. rewrite missing_filter. split.
    + intros H k Hk. apply truthy_opt_spec.
      destruct (truthy_opt (getenv k)) eqn:E; [reflexivity|]. exfalso.
      assert (Hin : In k (filter (fun k => negb (truthy_opt (getenv k))) REQUIRED_ENV))
        by (apply filter_In; split; [exact Hk | now rewrite E]).
      destruct (filter _ REQUIRED_ENV); [contradiction | discriminate].
    + intros H.
      destruct (filter _ REQUIRED_ENV) as [|k l] eqn:E; [reflexivity|]. exfalso.
      assert (Hin : In k (filter (fun k => negb (truthy_opt (getenv k))) REQUIRED_ENV))
        by (rewrite E; now left).
      apply filter_In in Hin as [Hk Hf].
      apply H, truthy_opt_spec in Hk. rewrite Hk in Hf. discriminate.
  - intros e. unfold check_required_env.
    destruct (missing getenv) as [|k l]; [discriminate|].
    intros [= <-]. split; [discriminate | reflexivity].
  - apply missing_filter.
  - intros k. rewrite missing_filter, filter_In. split; intros [Hk H]; split; auto.
    + destruct (getenv k) as [[|a s]|]; auto. discriminate.
    + destruct H as [-> | ->]; reflexivity.
Qed.

End RequiredEnv.

Section AppConfigFacts.
Variable doc : Type.
Variable doc_truthy : doc -> bool.
Variable empty_doc : doc.
Variable embedded : doc.

Lemma load_first_cases (fs : files doc) (cands : list Path) :
  (Forall (fun p => fs p = None) cands /\
   load_first doc_truthy empty_doc embedded fs cands
   = (Ok (or_empty_doc doc_truthy empty_doc embedded), []))
  \/ exists pre config_path post r,
       cands = pre ++ config_path :: post /\
       Forall (fun p => fs p = None) pre /\
       fs config_path = Some r /\
       load_first doc_truthy empty_doc embedded fs cands
       = (match r with
          | Ok v => Ok (or_empty_doc doc_truthy empty_doc v)
          | Raise e => Raise e
          end, [config_path]).
Proof.
  induction cands as [|p cands IH]; [left; split; [constructor | reflexivity]|].
  cbn [load_first]. destruct (fs p) as [r|] eqn:E.
  - right. exists [], p, cands, r. repeat split; auto.
  - destruct IH as [[Hall ->] | (pre & q & post & r & -> & Hpre & Hq & ->)].
    + left. split; [constructor; auto | reflexivity].
    + right. exists (p :: pre), q, post, r. repeat split; auto.
Qed.

(** X17.  [load_app_config] takes the first of its three candidates, in
    the order config/app_config.yaml, app_config.yaml beside the script,
    /mnt/data/app_config.yaml, that is a file, and opens no other file.
    What that file gives is final: a document that parses is returned,
    the empty dict standing in for an empty document, and an exception
    from opening or parsing it is raised again, with no fall-back to a
    later candidate or to the embedded text.  Only when no candidate is
    a file is the embedded document used, and then no file is opened. *)
Theorem load_app_config_priority (fs : files doc) (project_root : Path) :
  let out := load_app_config doc_truthy empty_doc embedded fs project_root in
  let cands := candidates project_root in
  List.length (snd out) <= 1
  /\ (Forall (fun p => fs p = None) cands ->
      out = (Ok (or_empty_doc doc_truthy empty_doc embedded), []))
  /\ (forall pre config_path post r,
        cands = pre ++ config_path :: post ->
        Forall (fun p => fs p = None) pre ->
        fs config_path = Some r ->
        out = (match r with
               | Ok v => Ok (or_empty_doc doc_truthy empty_doc v)
               | Raise e => Raise e
               end, [config_path])).
Proof.
  cbn zeta. unfold load_app_config.
  destruct (load_first_cases fs (candidates project_root))
    as [[Hall Heq] | (pre & q & post & r & Hc & Hpre & Hq & Heq)]; rewrite Heq.
  - split; [cbn; lia|]. split; [reflexivity|].
    intros pre q post r Hc _ Hq. exfalso. rewrite Hc in Hall.
    apply Forall_app in Hall as [_ Hall]. inversion Hall; subst. congruence.
  - split; [cbn; lia|]. split.
    + intros Hall. exfalso. rewrite Hc in Hall.
      apply Forall_app in Hall as [_ Hall]. inversion Hall; subst. congruence.
    + intros pre' q' post' r' Hc' Hpre' Hq'.
      assert (Hsame : pre = pre' /\ q = q').
      { rewrite Hc in Hc'. clear Heq Hc.
        revert pre' Hc' Hpre'. induction pre as [|a pre IH]; intros [|a' pre'] Hc' Hpre';
          cbn in Hc'; injection Hc' as Ha Hrest; subst.
        - auto.
        - inversion Hpre'; subst. congruence.
        - inversion Hpre; subst. congruence.
        - inversion Hpre; inversion Hpre'; subst.
          destruct (IH ltac:(assumption) pre' Hrest ltac:(assumption)) as [-> ->]. auto. }
      destruct Hsame as [<- <-]. rewrite Hq in Hq'. injection Hq' as <-. reflexivity.
Qed.

End AppConfigFacts.

(* ===================================================================== *)
(** ** The further properties on scripted inputs *)
(* ===================================================================== *)

(** With a driver path configured and working, the manager is not asked;
    without one, the manager is asked first. *)
Lemma launch_order_witness :
  launch Scenario.env_with_driver_path Sim.ext
         (build_options Scenario.env_with_driver_path) Sim.happy
  = Out (Ok 1) Sim.happy
        [EvChromeStart "/opt/chromedriver"
                       (build_options Scenario.env_with_driver_path) (Ok 1)]
  /\ exists rest,
       trace (launch Sim.env Sim.ext (build_options Sim.env) Sim.happy)
       = EvInstall :: rest.
Proof.
  split.
  - pose proof (launch_order Scenario.env_with_driver_path Sim.ext
                  (build_options Scenario.env_with_driver_path) Sim.happy) as H.
    cbv zeta in H. destruct H as [Hpath _].
    exact (proj1 (Hpath eq_refl) 1 Sim.happy eq_refl).
  - pose proof (launch_order Sim.env Sim.ext (build_options Sim.env) Sim.happy) as H.
    cbv zeta in H. destruct H as [_ Hnone]. exact (Hnone eq_refl).
Defined.

(** On the CI runner the configured profile directory is not passed. *)
Lemma build_options_modes_witness :
  arguments (build_options Scenario.env_ci)
  = ["--headless=new"; "--no-sandbox"; "--disable-dev-shm-usage"; "--disable-gpu";
     "--window-size=1920,1080"; "--remote-debugging-port=9222"]
  /\ arguments (build_options Sim.env) = [].
Proof.
  split.
  - pose proof (build_options_modes Scenario.env_ci) as H. cbv zeta in H.
    destruct H as (_ & Hci & _). exact (proj1 (Hci eq_refl)).
  - pose proof (build_options_modes Sim.env) as H. cbv zeta in H.
    destruct H as (_ & _ & Hlocal).
    exact (proj2 (Hlocal ltac:(discriminate))).
Defined.

(** Of two matching buttons the second is clicked; with no button and a
    URL that reports success only, the second reading of the URL ends
    the round. *)
Lemma submit_totp_round_order_witness :
  trace (submit_totp_round Sim.ext 1
           (Sim.with_buttons [Scenario.CONTINUE_BUTTON; Scenario.CONTINUE_BUTTON_AGAIN]
                             Sim.happy))
  = [EvFindElements 1 XPATH_TOTP_SUBMIT; EvClick 31]
  /\ submit_totp_round Sim.ext 1
       (Sim.with_buttons [] (Sim.with_url Sim.STATUS_ONLY_URL Sim.happy))
     = Out (Ok tt) (Sim.with_buttons [] (Sim.with_url Sim.STATUS_ONLY_URL Sim.happy))
           [EvFindElements 1 XPATH_TOTP_SUBMIT; EvFindElements 1 XPATH_CONTINUE_TEXT;
            EvSleep 2000; EvCurrentUrl 1; EvCurrentUrl 1].
Proof.
  split.
  - pose proof (submit_totp_round_order Sim.ext 1
                  (Sim.with_buttons
                     [Scenario.CONTINUE_BUTTON; Scenario.CONTINUE_BUTTON_AGAIN]
                     Sim.happy)) as H.
    cbv zeta in H. destruct H as (Hfirst & _ & _).
    destruct (Hfirst 30 [31] _ eq_refl) as [_ ->]. reflexivity.
  - pose proof (submit_totp_round_order Sim.ext 1
                  (Sim.with_buttons [] (Sim.with_url Sim.STATUS_ONLY_URL Sim.happy)))
      as H.
    cbv zeta in H. destruct H as (_ & _ & Hnone).
    destruct (Hnone _ _ Sim.STATUS_ONLY_URL _ eq_refl eq_refl eq_refl) as [_ Hsecond].
    exact (Hsecond eq_refl Sim.STATUS_ONLY_URL _ eq_refl).
Defined.

(** On the stuck screen the loop gives up after its third round. *)
Lemma submit_totp_rounds_witness :
  res (submit_totp Sim.ext 1 (seq 0 max_retries) Scenario.stuck)
  = Raise OTP_SUBMIT_NOT_FOUND
  /\ count is_otp_query
       (trace (submit_totp Sim.ext 1 (seq 0 max_retries) Scenario.stuck)) = 3.
Proof.
  split; [reflexivity|].
  pose proof (submit_totp_rounds Sim.ext 1 Scenario.stuck) as H. cbv zeta in H.
  destruct H as (_ & _ & _ & _ & Hfail). exact (Hfail eq_refl).
Defined.

Lemma wait_for_request_token_returns_witness :
  exists rt_url w1 t1,
    driver_current_url Sim.ext 1 w1 = (Ok rt_url, Sim.happy) /\
    w1 = final (until Sim.ext 1 redirect_condition Sim.happy) /\
    [EvCurrentUrl 1; EvCurrentUrl 1] = t1 ++ [EvCurrentUrl 1] /\
    PyStr.contains "request_token" rt_url = true /\
    extract_request_token rt_url = Ok "abc123".
Proof.
  exact (wait_for_request_token_returns Sim.ext 1 Sim.happy Sim.happy "abc123"
           [EvCurrentUrl 1; EvCurrentUrl 1] eq_refl).
Defined.

Lemma login_returns_authenticated_client_witness :
  access_token (set_access_token (new_KiteConnect "key") "token-for-abc123")
  = Some "token-for-abc123"
  /\ api_key (set_access_token (new_KiteConnect "key") "token-for-abc123") = "key".
Proof.
  exact (login_returns_authenticated_client Sim.env Sim.ext (load_config Sim.env)
           Sim.happy (set_access_token (new_KiteConnect "key") "token-for-abc123")
           "token-for-abc123" eq_refl).
Defined.

(** No Chrome, no session: the cycle ends with the launch failure and
    quits nothing. *)
Lemma login_once_without_session_witness :
  res (login_once Sim.env Sim.ext (load_config Sim.env)
         (Scenario.with_chrome_ok false Sim.happy)) = Raise LAUNCH_FAILURE
  /\ count is_quit
       (trace (login_once Sim.env Sim.ext (load_config Sim.env)
                 (Scenario.with_chrome_ok false Sim.happy))) = 0.
Proof.
  destruct (login_once_without_session Sim.env Sim.ext (load_config Sim.env)
              (Scenario.with_chrome_ok false Sim.happy)) as [_ H].
  destruct (H "https://kite.zerodha.com/connect/login?v=3&api_key=key"
              (Scenario.with_chrome_ok false Sim.happy) LAUNCH_FAILURE eq_refl eq_refl)
    as (Hres & _ & _ & Hquit & _).
  split; [exact Hres | exact Hquit].
Defined.

(** A login that times out three times has run three cycles. *)
Lemma login_ends_early_or_exhausted_witness :
  count is_cycle_start
    (trace (login Sim.env Sim.ext (load_config Sim.env)
              (Sim.with_url Sim.STATUS_ONLY_URL Sim.happy))) = 3
  /\ count is_retry_wait
       (trace (login Sim.env Sim.ext (load_config Sim.env)
                 (Sim.with_url Sim.STATUS_ONLY_URL Sim.happy))) = 2.
Proof.
  destruct (login_ends_early_or_exhausted Sim.env Sim.ext (load_config Sim.env)
              (Sim.with_url Sim.STATUS_ONLY_URL Sim.happy)) as [_ H].
  exact (H TimeoutException eq_refl).
Defined.


(** An empty password and an unset URI are both reported. *)
Lemma check_required_env_spec_witness :
  missing Scenario.getenv_incomplete <> []
  /\ ValueError
       "Missing required environment variables: ['ZERODHA_PASSWORD', 'MONGO_URI']"
     = ValueError ("Missing required environment variables: "
                   ++ repr_names (missing Scenario.getenv_incomplete))%string.
Proof.
  destruct (check_required_env_spec Scenario.getenv_incomplete) as (_ & H & _).
  exact (H _ eq_refl).
Defined.

(** A broken file under config/ is not skipped for the good one beside
    the script; an empty file beside the script gives the empty dict,
    not the embedded document. *)
Lemma load_app_config_priority_witness :
  load_app_config Scenario.yaml_truthy [] EMBEDDED_APP_CONFIG
                  Scenario.broken_then_good Scenario.PROJECT_ROOT
  = (Raise (Foreign 20), [["/"; "srv"; "token"; "config"; "app_config.yaml"]])
  /\ load_app_config Scenario.yaml_truthy [] EMBEDDED_APP_CONFIG
                     Scenario.empty_beside_script Scenario.PROJECT_ROOT
     = (Ok [], [["/"; "srv"; "token"; "app_config.yaml"]]).
Proof.
  split.
  - pose proof (load_app_config_priority (dict yaml) Scenario.yaml_truthy []
                  EMBEDDED_APP_CONFIG Scenario.broken_then_good Scenario.PROJECT_ROOT)
      as H.
    cbv zeta in H. destruct H as (_ & _ & H).
    exact (H [] _ _ (Raise (Foreign 20)) eq_refl (Forall_nil _) eq_refl).
  - pose proof (load_app_config_priority (dict yaml) Scenario.yaml_truthy []
                  EMBEDDED_APP_CONFIG Scenario.empty_beside_script Scenario.PROJECT_ROOT)
      as H.
    cbv zeta in H. destruct H as (_ & _ & H).
    exact (H [["/"; "srv"; "token"; "config"; "app_config.yaml"]] _ _ (Ok [])
             eq_refl ltac:(constructor; [reflexivity | constructor]) eq_refl).
Defined.


(** In the cycle that works the exchange is the 23rd call, and the only
    call after it is [quit]. *)
Lemma one_exchange_per_cycle_witness :
  let t := trace (login_once Sim.env Sim.ext (load_config Sim.env) Sim.happy) in
  "apisecret" = cfg_api_secret (load_config Sim.env) /\ exists d, skipn 23 t = [EvQuit d].
Proof.
  intros t.
  destruct (one_exchange_per_cycle Sim.env Sim.ext (load_config Sim.env) Sim.happy)
    as (_ & H & _).
  exact (H (firstn 22 t) "abc123" "apisecret"
           (Ok [("access_token", "token-for-abc123"); ("user_id", "XW7136")])
           (skipn 23 t) eq_refl).
Defined.

(** A launch through the manager ends with the session start. *)
Lemma launch_outcome_witness :
  exists pre path,
    trace (launch Sim.env Sim.ext (build_options Sim.env) Sim.happy)
    = pre ++ [EvChromeStart path (build_options Sim.env) (Ok 1)] /\
    count is_session_start pre = 0.
Proof.
  exact (launch_outcome Sim.env Sim.ext (build_options Sim.env) Sim.happy).
Defined.


